(** * Student attendance tracker: a shallow embedding of [student_attendance.py]

    The development follows the source file top to bottom: the Python
    values the program manipulates, the [str] methods and library calls it
    relies on, [AttendanceRecord] with [clean] and [validate], and the
    [AttendanceDB] store with its queries and its JSON persistence.

    Python strings are sequences of code points.  What the interpreter
    looks up in the Unicode character database (white space, case
    mappings, decimal digits) and what it computes on floats is taken as
    a parameter, so that every statement below holds whatever these
    tables are.  The limits the interpreter sets to the JSON decoder
    (the recursion limit, the length limit of integer conversion) are
    parameters too; memory is taken to suffice. *)

From Stdlib Require Import NArith ZArith Bool String Ascii List Lia Btauto.
Import ListNotations.

Set Implicit Arguments.
Set Warnings "-register-all".
Local Open Scope N_scope.

(* ================================================================= *)
(** ** Strings *)

(** A character is its code point, a [str] the list of its characters. *)
Definition char := N.
Definition str := list char.

(** The [str] written as an ASCII literal. *)
Definition lit (s : string) : str := map N_of_ascii (list_ascii_of_string s).

Fixpoint str_eqb (a b : str) : bool :=
  match a, b with
  | [], [] => true
  | x :: a', y :: b' => (x =? y) && str_eqb a' b'
  | _, _ => false
  end.

(** [a <= b] on [str]: code point by code point, a proper prefix first. *)
Fixpoint str_leb (a b : str) : bool :=
  match a, b with
  | [], _ => true
  | _ :: _, [] => false
  | x :: a', y :: b' => (x <? y) || ((x =? y) && str_leb a' b')
  end.

(** Truth value of a [str]: the empty string is false. *)
Definition truthy (s : str) : bool :=
  match s with [] => false | _ :: _ => true end.

(** [x or ""] on a [str]. *)
Definition or_empty (x : str) : str := if truthy x then x else lit "".

(** [sep.join(l)]. *)
Fixpoint join (sep : str) (l : list str) : str :=
  match l with
  | [] => []
  | [x] => x
  | x :: rest => x ++ sep ++ join sep rest
  end.

Definition is_nil {A} (l : list A) : bool :=
  match l with [] => true | _ :: _ => false end.

Fixpoint dropwhile {A} (p : A -> bool) (l : list A) : list A :=
  match l with
  | [] => []
  | x :: r => if p x then dropwhile p r else l
  end.

(* ================================================================= *)
(** ** What the interpreter supplies *)

(** The Unicode character database, as the [str] methods and the regular
    expression engine consult it. *)
Class UnicodeData := {
  isspace : char -> bool;            (* Py_UNICODE_ISSPACE *)
  iscased : char -> bool;            (* _PyUnicode_IsCased *)
  iscaseignorable : char -> bool;    (* _PyUnicode_IsCaseIgnorable *)
  tolower_full : char -> str;        (* _PyUnicode_ToLowerFull *)
  totitle_full : char -> str;        (* _PyUnicode_ToTitleFull *)
  todecimal : char -> option N       (* Py_UNICODE_TODECIMAL, None for -1 *)
}.

(** Float arithmetic, as far as the program uses it: [int / int],
    [float * int], [round(float, ndigits)] and the constant [0.0]; and the
    text [json] prints for a number it has read. *)
Class FloatOps := {
  float : Type;
  float_zero : float;
  int_truediv : Z -> Z -> float;
  float_mul_int : float -> Z -> float;
  round_ndigits : float -> Z -> float;
  number_repr : str -> str
}.

(* ================================================================= *)
(** ** Exceptions *)

Inductive exn :=
| ValueError (msg : str)
| AttributeError (attr : string)
| KeyError (key : str)
| TypeError
| ZeroDivisionError
| FileNotFoundError
| UnicodeDecodeError
| UnicodeEncodeError
| JSONDecodeError
| RecursionError
| OSError (kind : string).

(** A computation that returns or raises. *)
Inductive result (A : Type) :=
| Ok (a : A)
| Raise (e : exn).
Arguments Ok {A} a.
Arguments Raise {A} e.

Definition rbind {A B} (c : result A) (k : A -> result B) : result B :=
  match c with Ok a => k a | Raise e => Raise e end.

Declare Scope py_scope.
Delimit Scope py_scope with py.
Notation "x <- c ;; k" := (rbind c (fun x => k))
  (at level 61, c at next level, right associativity) : py_scope.
Notation "' pat <- c ;; k" := (rbind c (fun x => match x with pat => k end))
  (at level 61, pat pattern, c at next level, right associativity) : py_scope.

Section StrMethods.
Context {U : UnicodeData}.

(** *** [str.strip()] *)

Definition lstrip (s : str) : str := dropwhile isspace s.
Definition rstrip (s : str) : str := rev (dropwhile isspace (rev s)).
Definition strip (s : str) : str := rstrip (lstrip s).

(** *** [str.lower()], [str.capitalize()], [str.title()]

    The three walk the string once; each character is mapped with the
    characters before it (most recent first) and after it in view, which
    only the capital sigma looks at. *)

Definition SIGMA : char := 931.          (* U+03A3 *)
Definition FINAL_SIGMA : char := 962.    (* U+03C2 *)
Definition SMALL_SIGMA : char := 963.    (* U+03C3 *)

Definition handle_capital_sigma (before after : str) : char :=
  let final_sigma :=
    match dropwhile iscaseignorable before with
    | [] => false
    | c :: _ =>
        iscased c &&
        match dropwhile iscaseignorable after with
        | [] => true
        | d :: _ => negb (iscased d)
        end
    end in
  if final_sigma then FINAL_SIGMA else SMALL_SIGMA.

Definition lower_ucs4 (before : str) (c : char) (after : str) : str :=
  if c =? SIGMA then [handle_capital_sigma before after]
  else tolower_full c.

Fixpoint do_lower (before : str) (s : str) : str :=
  match s with
  | [] => []
  | c :: rest => lower_ucs4 before c rest ++ do_lower (c :: before) rest
  end.

Definition lower (s : str) : str := do_lower [] s.

Definition capitalize (s : str) : str :=
  match s with
  | [] => []
  | c :: rest => totitle_full c ++ do_lower [c] rest
  end.

Fixpoint do_title (before : str) (previous_is_cased : bool) (s : str) : str :=
  match s with
  | [] => []
  | c :: rest =>
      (if previous_is_cased then lower_ucs4 before c rest else totitle_full c)
      ++ do_title (c :: before) (iscased c) rest
  end.

Definition title (s : str) : str := do_title [] false s.

(** *** [datetime.strptime(s, "%Y-%m-%d").date()]

    The format compiles to the regular expression
    [(?P<Y>\d\d\d\d)-(?P<m>1[0-2]|0[1-9]|[1-9])-(?P<d>3[0-1]|[1-2]\d|0[1-9]|[1-9]| [1-9])],
    matched at the start of the string; the whole string must be
    consumed, and the three numbers must form a date of the proleptic
    Gregorian calendar in the years 1 to 9999.  [\d] is any decimal digit
    of the character database. *)

Definition in_range (lo hi c : char) : bool := (lo <=? c) && (c <=? hi).
Definition digit_val (c : char) : N := c - 48.

Definition match_year (s : str) : option (N * str) :=
  match s with
  | a :: b :: c :: d :: rest =>
      match todecimal a, todecimal b, todecimal c, todecimal d with
      | Some va, Some vb, Some vc, Some vd =>
          Some (1000 * va + 100 * vb + 10 * vc + vd, rest)
      | _, _, _, _ => None
      end
  | _ => None
  end.

Definition match_1digit (s : str) : option (N * str) :=
  match s with
  | c :: rest => if in_range 49 57 c then Some (digit_val c, rest) else None
  | [] => None
  end.

Definition match_month (s : str) : option (N * str) :=
  match s with
  | 49 :: c :: rest =>
      if in_range 48 50 c then Some (10 + digit_val c, rest)
      else match_1digit s
  | 48 :: c :: rest =>
      if in_range 49 57 c then Some (digit_val c, rest) else None
  | _ => match_1digit s
  end.

Definition match_day (s : str) : option (N * str) :=
  let tail :=
    match s with
    | 48 :: c :: rest =>
        if in_range 49 57 c then Some (digit_val c, rest) else None
    | 32 :: c :: rest =>
        if in_range 49 57 c then Some (digit_val c, rest) else None
    | _ => match_1digit s
    end in
  match s with
  | 51 :: c :: rest =>
      if in_range 48 49 c then Some (30 + digit_val c, rest) else tail
  | c1 :: c2 :: rest =>
      if in_range 49 50 c1 then
        match todecimal c2 with
        | Some v => Some (10 * digit_val c1 + v, rest)
        | None => tail
        end
      else tail
  | _ => tail
  end.

Definition is_leap (y : N) : bool :=
  (y mod 4 =? 0) && (negb (y mod 100 =? 0) || (y mod 400 =? 0)).

Definition days_in_month (y m : N) : N :=
  if m =? 2 then (if is_leap y then 29 else 28)
  else if (m =? 4) || (m =? 6) || (m =? 9) || (m =? 11) then 30
  else 31.

(** A [datetime.date]. *)
Record date_t := { d_year : Z; d_month : Z; d_day : Z }.

(** [None] stands for the [ValueError] that [strptime] raises. *)
Definition strptime_ymd (s : str) : option date_t :=
  match match_year s with
  | Some (y, 45 :: s1) =>
      match match_month s1 with
      | Some (m, 45 :: s2) =>
          match match_day s2 with
          | Some (d, []) =>
              if (1 <=? y) && (y <=? 9999) && (1 <=? d) && (d <=? days_in_month y m)
              then Some {| d_year := Z.of_N y; d_month := Z.of_N m; d_day := Z.of_N d |}
              else None
          | _ => None
          end
      | _ => None
      end
  | _ => None
  end.

End StrMethods.

(* ================================================================= *)
(** ** A character database that knows ASCII only *)

Definition ascii_upper_letter (c : char) : bool := in_range 65 90 c.
Definition ascii_lower_letter (c : char) : bool := in_range 97 122 c.

Definition ascii_isspace (c : char) : bool :=
  in_range 9 13 c || in_range 28 32 c.
Definition ascii_iscased (c : char) : bool :=
  ascii_upper_letter c || ascii_lower_letter c.
Definition ascii_iscaseignorable (c : char) : bool :=
  (c =? 39) || (c =? 46) || (c =? 58) || (c =? 94) || (c =? 96).
Definition ascii_tolower (c : char) : char :=
  if ascii_upper_letter c then c + 32 else c.
Definition ascii_toupper (c : char) : char :=
  if ascii_lower_letter c then c - 32 else c.
Definition ascii_todecimal (c : char) : option N :=
  if in_range 48 57 c then Some (digit_val c) else None.

(** Characters above U+007F have no property and map to themselves. *)
Definition ascii_ucd : UnicodeData := {|
  isspace := ascii_isspace;
  iscased := ascii_iscased;
  iscaseignorable := ascii_iscaseignorable;
  tolower_full := fun c => [ascii_tolower c];
  totitle_full := fun c => [ascii_toupper c];
  todecimal := ascii_todecimal
|}.

(** A database agrees with ASCII when its entries below U+0080 are the
    ASCII ones. *)
Definition is_ascii (c : char) : bool := c <? 128.

Record ascii_std (U : UnicodeData) : Prop := {
  std_isspace : forall c, is_ascii c = true -> isspace c = ascii_isspace c;
  std_iscased : forall c, is_ascii c = true -> iscased c = ascii_iscased c;
  std_tolower : forall c, is_ascii c = true -> tolower_full c = [ascii_tolower c];
  std_totitle : forall c, is_ascii c = true -> totitle_full c = [ascii_toupper c]
}.

(** The ASCII database extended with two entries of the Unicode
    character database: U+01F0 LATIN SMALL LETTER J WITH CARON, a cased
    letter whose title case is the pair U+004A U+030C, and U+030C
    COMBINING CARON, which is case-ignorable and not cased. *)
Definition J_CARON : char := 496.
Definition COMBINING_CARON : char := 780.

Definition caron_ucd : UnicodeData := {|
  isspace := ascii_isspace;
  iscased := fun c => ascii_iscased c || (c =? J_CARON);
  iscaseignorable := fun c => ascii_iscaseignorable c || (c =? COMBINING_CARON);
  tolower_full := fun c => [ascii_tolower c];
  totitle_full := fun c =>
    if c =? J_CARON then [74; COMBINING_CARON] else [ascii_toupper c];
  todecimal := ascii_todecimal
|}.

(** The ASCII database extended with the accented letters of Latin-1:
    the capitals U+00C0 to U+00DE and the small letters U+00E0 to
    U+00FE, the signs U+00D7 and U+00F7 between them left aside. *)
Definition latin_capital (c : char) : bool :=
  in_range 192 222 c && negb (c =? 215).
Definition latin_small (c : char) : bool :=
  in_range 224 254 c && negb (c =? 247).

Definition latin_ucd : UnicodeData := {|
  isspace := ascii_isspace;
  iscased := fun c => ascii_iscased c || latin_capital c || latin_small c;
  iscaseignorable := ascii_iscaseignorable;
  tolower_full := fun c => if latin_capital c then [c + 32] else [ascii_tolower c];
  totitle_full := fun c => if latin_small c then [c - 32] else [ascii_toupper c];
  todecimal := ascii_todecimal
|}.

(** A stand-in for floats, to evaluate examples with: fixed-point numbers
    with four decimal places, each kept as its number of ten-thousandths;
    rounding keeps two of the places. *)
Definition fixed_point : FloatOps := {|
  float := Z;
  float_zero := 0%Z;
  int_truediv := fun a b => (a * 10000 / b)%Z;
  float_mul_int := fun x k => (x * k)%Z;
  round_ndigits := fun x _ => ((x + 50) / 100 * 100)%Z;
  number_repr := fun s => s
|}.

(* ================================================================= *)
(** ** Values held by the store

    What [json.load] returns and [json.dump] accepts.  A dict keeps its
    items in insertion order; its keys are strings.  A number is kept as
    the literal it was read from: the program never computes with one. *)

Inductive pyval :=
| PNone
| PBool (b : bool)
| PNum (literal : str)
| PStr (s : str)
| PList (l : list pyval)
| PDict (d : list (str * pyval)).

Fixpoint dict_get (d : list (str * pyval)) (k : str) : option pyval :=
  match d with
  | [] => None
  | (k', v) :: r => if str_eqb k' k then Some v else dict_get r k
  end.

(** [d[k] = v]: an existing key keeps its place. *)
Fixpoint dict_set (d : list (str * pyval)) (k : str) (v : pyval)
  : list (str * pyval) :=
  match d with
  | [] => [(k, v)]
  | (k', v') :: r =>
      if str_eqb k' k then (k', v) :: r else (k', v') :: dict_set r k v
  end.

(** [for r in v]. *)
Definition py_iter (v : pyval) : result (list pyval) :=
  match v with
  | PList l => Ok l
  | PDict d => Ok (map (fun kv => PStr (fst kv)) d)
  | PStr s => Ok (map (fun c => PStr [c]) s)
  | _ => Raise TypeError
  end.

(** [v[k]] for a string [k]. *)
Definition py_getitem (v : pyval) (k : str) : result pyval :=
  match v with
  | PDict d =>
      match dict_get d k with
      | Some x => Ok x
      | None => Raise (KeyError k)
      end
  | _ => Raise TypeError
  end.

(** [v == s], [v >= s] and [v <= s] for a string [s]. *)
Definition py_eq_str (v : pyval) (s : str) : bool :=
  match v with PStr t => str_eqb t s | _ => false end.

Definition py_ge_str (v : pyval) (s : str) : result bool :=
  match v with PStr t => Ok (str_leb s t) | _ => Raise TypeError end.

Definition py_le_str (v : pyval) (s : str) : result bool :=
  match v with PStr t => Ok (str_leb t s) | _ => Raise TypeError end.

(** [v.append(x)]. *)
Definition py_append (v x : pyval) : result pyval :=
  match v with
  | PList l => Ok (PList (l ++ [x]))
  | _ => Raise (AttributeError "append")
  end.

(** A list comprehension [[r for r in l if p(r)]] whose test may raise. *)
Fixpoint comprehension (p : pyval -> result bool) (l : list pyval)
  : result (list pyval) :=
  match l with
  | [] => Ok []
  | r :: rest =>
      (b <- p r ;;
       tl <- comprehension p rest ;;
       Ok (if b then r :: tl else tl))%py
  end.

(* ================================================================= *)
(** ** Text files: UTF-8 *)

Definition bytes := list N.

Definition is_surrogate (c : char) : bool := in_range 55296 57343 c.
Definition is_cont (b : N) : bool := in_range 128 191 b.

(** [None] stands for [UnicodeEncodeError]. *)
Definition utf8_encode_char (c : char) : option bytes :=
  if c <? 128 then Some [c]
  else if c <? 2048 then Some [192 + c / 64; 128 + c mod 64]
  else if c <? 65536 then
    if is_surrogate c then None
    else Some [224 + c / 4096; 128 + (c / 64) mod 64; 128 + c mod 64]
  else if c <? 1114112 then
    Some [240 + c / 262144; 128 + (c / 4096) mod 64;
          128 + (c / 64) mod 64; 128 + c mod 64]
  else None.

Fixpoint utf8_encode (s : str) : option bytes :=
  match s with
  | [] => Some []
  | c :: rest =>
      match utf8_encode_char c, utf8_encode rest with
      | Some b, Some bs => Some (b ++ bs)
      | _, _ => None
      end
  end.

(** The strict decoder; [None] stands for [UnicodeDecodeError]. *)
Fixpoint utf8_decode (b : bytes) : option str :=
  match b with
  | [] => Some []
  | b0 :: r0 =>
      if b0 <? 128 then option_map (cons b0) (utf8_decode r0)
      else if in_range 194 223 b0 then
        match r0 with
        | b1 :: r1 =>
            if is_cont b1
            then option_map (cons ((b0 - 192) * 64 + (b1 - 128))) (utf8_decode r1)
            else None
        | _ => None
        end
      else if in_range 224 239 b0 then
        match r0 with
        | b1 :: b2 :: r2 =>
            let c := (b0 - 224) * 4096 + (b1 - 128) * 64 + (b2 - 128) in
            if is_cont b1 && is_cont b2 && (2048 <=? c) && negb (is_surrogate c)
            then option_map (cons c) (utf8_decode r2)
            else None
        | _ => None
        end
      else if in_range 240 244 b0 then
        match r0 with
        | b1 :: b2 :: b3 :: r3 =>
            let c := (b0 - 240) * 262144 + (b1 - 128) * 4096
                     + (b2 - 128) * 64 + (b3 - 128) in
            if is_cont b1 && is_cont b2 && is_cont b3
               && (65536 <=? c) && (c <? 1114112)
            then option_map (cons c) (utf8_decode r3)
            else None
        | _ => None
        end
      else None
  end.

(** Reading in text mode translates line endings to a line feed. *)
Fixpoint universal_newlines (s : str) : str :=
  match s with
  | [] => []
  | c :: r =>
      if c =? 13 then
        10 :: match r with
              | d :: r' =>
                  if d =? 10 then universal_newlines r' else universal_newlines r
              | [] => []
              end
      else c :: universal_newlines r
  end.

(* ================================================================= *)
(** ** [json.dump(obj, f, indent=2, ensure_ascii=False)]

    The encoder yields the text in chunks, which are written to the file
    one by one. *)

Definition hex_digit (n : N) : char := if n <? 10 then 48 + n else 87 + n.

(** One character of a string, as [ESCAPE_DCT] replaces it. *)
Definition escape_char (c : char) : str :=
  if c =? 92 then [92; 92]
  else if c =? 34 then [92; 34]
  else if c =? 8 then [92; 98]
  else if c =? 12 then [92; 102]
  else if c =? 10 then [92; 110]
  else if c =? 13 then [92; 114]
  else if c =? 9 then [92; 116]
  else if c <? 32 then [92; 117; 48; 48; hex_digit (c / 16); hex_digit (c mod 16)]
  else [c].

Definition encode_basestring (s : str) : str :=
  34 :: flat_map escape_char s ++ [34].

Definition newline_indent (level : nat) : str := 10 :: repeat 32 (2 * level).

Section Json.
Context {F : FloatOps}.

Definition is_atom (o : pyval) : bool :=
  match o with PList _ | PDict _ => false | _ => true end.

(** The loop of [_iterencode_list] over the items, [enc] encoding an
    item one level deeper. *)
Fixpoint encode_items (enc : pyval -> list str) (level : nat) (first : bool)
    (l : list pyval) : list str :=
  match l with
  | [] => []
  | value :: rest =>
      let buf := (if first then 91 else 44) :: newline_indent (S level) in
      (if is_atom value then [buf ++ concat (enc value)] else buf :: enc value)
      ++ encode_items enc level false rest
  end.

(** The loop of [_iterencode_dict] over the items. *)
Fixpoint encode_pairs (enc : pyval -> list str) (level : nat) (first : bool)
    (l : list (str * pyval)) : list str :=
  match l with
  | [] => []
  | (key, value) :: rest =>
      (if first then [] else [44 :: newline_indent (S level)])
      ++ [encode_basestring key; lit ": "]
      ++ enc value
      ++ encode_pairs enc level false rest
  end.

Fixpoint iterencode (o : pyval) (level : nat) : list str :=
  match o with
  | PStr s => [encode_basestring s]
  | PNone => [lit "null"]
  | PBool true => [lit "true"]
  | PBool false => [lit "false"]
  | PNum n => [number_repr n]
  | PList lst =>
      if is_nil lst then [lit "[]"] else
      encode_items (fun v => iterencode v (S level)) level true lst
      ++ [newline_indent level; lit "]"]
  | PDict dct =>
      if is_nil dct then [lit "{}"] else
      [lit "{"; newline_indent (S level)]
      ++ encode_pairs (fun v => iterencode v (S level)) level true dct
      ++ [newline_indent level; lit "}"]
  end.

(** [json.dumps] with the same options: the chunks joined. *)
Definition json_dumps (o : pyval) : str := concat (iterencode o 0).

End Json.

(* ================================================================= *)
(** ** [json.load]: the scanner *)

(** What the interpreter allows the decoder: how deep arrays and
    objects may nest before the recursion limit is reached, and how many
    digits an integer may have ([sys.get_int_max_str_digits()], where 0
    lifts the limit).  Raising a [JSONDecodeError] takes three levels of
    recursion (the call of the class, its initializer, and the one of
    [ValueError]); the levels left when the decoder is called are
    these and [spare_depth] more, which is also how deep arrays and
    objects may nest. *)
Class Interpreter := {
  spare_depth : nat;
  int_max_str_digits : N
}.

Definition error_levels : nat := 3.

Definition nesting_allowed {I : Interpreter} : nat := error_levels + spare_depth.

(** The interpreter as it starts: a recursion limit of 1000, of which a
    few levels are taken when the decoder is called, and integers of at
    most 4300 digits. *)
Definition cpython : Interpreter :=
  {| spare_depth := 991; int_max_str_digits := 4300 |}.

(** The outcome of scanning a value at the head of a text: the value and
    the text after it, a syntax error, an exception that is no syntax
    error, or no fuel left. *)
Inductive scan (A : Type) :=
| Scanned (a : A) (rest : str)
| Malformed
| Failed (e : exn)
| Starved.
Arguments Scanned {A} a rest.
Arguments Malformed {A}.
Arguments Failed {A} e.
Arguments Starved {A}.

(** [str(n)] for a natural number. *)
Fixpoint decimal_digits (fuel : nat) (n : N) (acc : str) : str :=
  match fuel with
  | O => acc
  | S fuel =>
      let acc := (48 + n mod 10) :: acc in
      if n <? 10 then acc else decimal_digits fuel (n / 10) acc
  end.

Definition decimal (n : N) : str :=
  decimal_digits (S (N.to_nat (N.log2 n))) n [].

Definition is_ws (c : char) : bool :=
  (c =? 32) || (c =? 9) || (c =? 10) || (c =? 13).
Definition skip_ws (s : str) : str := dropwhile is_ws s.

Definition is_digit (c : char) : bool := in_range 48 57 c.

Fixpoint span_digits (s : str) : str * str :=
  match s with
  | c :: r =>
      if is_digit c then let '(ds, r') := span_digits r in (c :: ds, r')
      else ([], s)
  | [] => ([], [])
  end.

Definition hexval (c : char) : option N :=
  if in_range 48 57 c then Some (c - 48)
  else if in_range 97 102 c then Some (c - 87)
  else if in_range 65 70 c then Some (c - 55)
  else None.

Definition hex4 (a b c d : char) : option N :=
  match hexval a, hexval b, hexval c, hexval d with
  | Some va, Some vb, Some vc, Some vd =>
      Some (((va * 16 + vb) * 16 + vc) * 16 + vd)
  | _, _, _, _ => None
  end.

Definition unescape (c : char) : option char :=
  if (c =? 34) || (c =? 92) || (c =? 47) then Some c
  else if c =? 98 then Some 8
  else if c =? 102 then Some 12
  else if c =? 110 then Some 10
  else if c =? 114 then Some 13
  else if c =? 116 then Some 9
  else None.

Definition is_high_surrogate (c : char) : bool := in_range 55296 56319 c.
Definition is_low_surrogate (c : char) : bool := in_range 56320 57343 c.
Definition join_surrogates (hi lo : char) : char :=
  65536 + (hi - 55296) * 1024 + (lo - 56320).

Definition scan_cons (c : char) (r : option (str * str)) : option (str * str) :=
  match r with
  | Some (s, rest) => Some (c :: s, rest)
  | None => None
  end.

(** [scanstring], strict: the text after an opening quote, up to the
    closing one.  [None] stands for [JSONDecodeError]. *)
Fixpoint scanstring (s : str) : option (str * str) :=
  match s with
  | [] => None
  | c :: rest =>
      if c =? 34 then Some ([], rest)
      else if c =? 92 then
        match rest with
        | [] => None
        | e :: rest1 =>
            if e =? 117 then
              match rest1 with
              | h1 :: h2 :: h3 :: h4 :: rest2 =>
                  match hex4 h1 h2 h3 h4 with
                  | None => None
                  | Some u =>
                      if is_high_surrogate u then
                        match rest2 with
                        | b :: v :: l1 :: l2 :: l3 :: l4 :: rest3 =>
                            if (b =? 92) && (v =? 117) then
                              match hex4 l1 l2 l3 l4 with
                              | None => None
                              | Some u2 =>
                                  if is_low_surrogate u2
                                  then scan_cons (join_surrogates u u2)
                                         (scanstring rest3)
                                  else scan_cons u (scanstring rest2)
                              end
                            else scan_cons u (scanstring rest2)
                        | _ => scan_cons u (scanstring rest2)
                        end
                      else scan_cons u (scanstring rest2)
                  end
              | _ => None
              end
            else
              match unescape e with
              | Some c' => scan_cons c' (scanstring rest1)
              | None => None
              end
        end
      else if c <=? 31 then None
      else scan_cons c (scanstring rest)
  end.

(** The text of a number at the head of [s]: an optional minus sign, an
    integer part without a leading zero, then optionally a point with
    digits, then optionally an exponent with digits. *)
Definition number_sign (s : str) : str * str :=
  match s with
  | c :: r => if c =? 45 then ([45], r) else ([], s)
  | [] => ([], s)
  end.

Definition number_int (s : str) : option (str * str) :=
  match s with
  | [] => None
  | c :: r =>
      if in_range 49 57 c then let '(ds, r') := span_digits r in Some (c :: ds, r')
      else if c =? 48 then Some ([48], r)
      else None
  end.

Definition number_frac (s : str) : str * str :=
  match s with
  | p :: d :: r =>
      if (p =? 46) && is_digit d
      then let '(ds, r') := span_digits r in (p :: d :: ds, r')
      else ([], s)
  | _ => ([], s)
  end.

Definition number_exp (s : str) : str * str :=
  match s with
  | e :: r =>
      if (e =? 101) || (e =? 69) then
        let '(sg, r') :=
          match r with
          | g :: t => if (g =? 45) || (g =? 43) then ([g], t) else ([], r)
          | [] => ([], r)
          end in
        match span_digits r' with
        | ([], _) => ([], s)
        | (ds, r'') => (e :: sg ++ ds, r'')
        end
      else ([], s)
  | [] => ([], s)
  end.

Definition match_number (s : str) : option (str * str) :=
  let '(sign, s0) := number_sign s in
  match number_int s0 with
  | None => None
  | Some (ip, r1) =>
      let '(frac, r2) := number_frac r1 in
      let '(ex, r3) := number_exp r2 in
      Some (sign ++ ip ++ frac ++ ex, r3)
  end.

(** The text of a number is that of a float when it has a fraction or
    an exponent, and of an integer otherwise. *)
Definition is_float_text (n : str) : bool :=
  existsb (fun c => (c =? 46) || (c =? 101) || (c =? 69)) n.

Definition count_digits (n : str) : N :=
  N.of_nat (length (filter is_digit n)).

Definition too_many_digits (limit digits : N) : exn :=
  ValueError
    (lit "Exceeds the limit (" ++ decimal limit
     ++ lit " digits) for integer string conversion: value has "
     ++ decimal digits
     ++ lit " digits; use sys.set_int_max_str_digits() to increase the limit").

(** [int(n)] for the text of an integer: refused beyond the limit. *)
Definition int_conversion_error {I : Interpreter} (n : str) : option exn :=
  let digits := count_digits n in
  if negb (is_float_text n)
     && (0 <? int_max_str_digits) && (int_max_str_digits <? digits)
  then Some (too_many_digits int_max_str_digits digits)
  else None.

(** [s] starts with the ASCII literal [p]: the text after it. *)
Fixpoint strip_prefix (p s : str) : option str :=
  match p, s with
  | [], _ => Some s
  | x :: p', y :: s' => if x =? y then strip_prefix p' s' else None
  | _ :: _, [] => None
  end.

Definition scan_constant (s : str) : option (pyval * str) :=
  match strip_prefix (lit "null") s with
  | Some r => Some (PNone, r)
  | None =>
  match strip_prefix (lit "true") s with
  | Some r => Some (PBool true, r)
  | None =>
  match strip_prefix (lit "false") s with
  | Some r => Some (PBool false, r)
  | None =>
  match strip_prefix (lit "NaN") s with
  | Some r => Some (PNum (lit "NaN"), r)
  | None =>
  match strip_prefix (lit "Infinity") s with
  | Some r => Some (PNum (lit "Infinity"), r)
  | None =>
  match strip_prefix (lit "-Infinity") s with
  | Some r => Some (PNum (lit "-Infinity"), r)
  | None => None
  end end end end end end.

(** A syntax error found inside a string, an array or an object is
    raised where it is found, [depth] levels of recursion being left:
    with fewer than it takes, what is raised is [RecursionError].  The
    end of the text or a character that starts no value, met where a
    value is expected, is reported by the caller of the scanner
    instead, where the levels are left. *)
Definition syntax_error {A} (depth : nat) : scan A :=
  if (depth <? error_levels)%nat then Failed RecursionError else Malformed.

(** One call of [scan_once], with the loops of [JSONArray] and
    [JSONObject] to run on what follows an opening bracket or brace.
    Entering an array or an object takes one level of the [depth] left,
    and raises [RecursionError] when none is left. *)
Definition scan_step {I : Interpreter} (depth : nat)
    (items : str -> list pyval -> scan pyval)
    (pairs : str -> list (str * pyval) -> scan pyval)
    (s : str) : scan pyval :=
  match s with
  | [] => Malformed
  | c :: rest =>
      if c =? 34 then
        match scanstring rest with
        | Some (x, r) => Scanned (PStr x) r
        | None => syntax_error depth
        end
      else if c =? 123 then
        match depth with
        | O => Failed RecursionError
        | S _ =>
            match skip_ws rest with
            | [] => pairs [] []
            | d :: r => if d =? 125 then Scanned (PDict []) r else pairs (d :: r) []
            end
        end
      else if c =? 91 then
        match depth with
        | O => Failed RecursionError
        | S _ =>
            match skip_ws rest with
            | [] => items [] []
            | d :: r => if d =? 93 then Scanned (PList []) r else items (d :: r) []
            end
        end
      else
        match scan_constant s with
        | Some (v, r) => Scanned v r
        | None =>
            match match_number s with
            | Some (n, r) =>
                match int_conversion_error n with
                | Some e => Failed e
                | None => Scanned (PNum n) r
                end
            | None => Malformed
            end
        end
  end.

(** One round of the loop of [JSONArray], [depth] levels being left
    inside the array: a value, then the closing bracket or a comma and
    the next round. *)
Definition items_step (depth : nat)
    (once : str -> scan pyval)
    (items : str -> list pyval -> scan pyval)
    (s : str) (values : list pyval) : scan pyval :=
  match once s with
  | Scanned v r =>
      match skip_ws r with
      | [] => syntax_error depth
      | d :: r1 =>
          if d =? 93 then Scanned (PList (values ++ [v])) r1
          else if d =? 44 then items (skip_ws r1) (values ++ [v])
          else syntax_error depth
      end
  | Malformed => Malformed
  | Failed e => Failed e
  | Starved => Starved
  end.

(** One round of the loop of [JSONObject]: a key, a colon, a value, then
    the closing brace or a comma and the next round. *)
Definition pairs_step (depth : nat)
    (once : str -> scan pyval)
    (pairs : str -> list (str * pyval) -> scan pyval)
    (s : str) (seen : list (str * pyval)) : scan pyval :=
  match s with
  | [] => syntax_error depth
  | q :: s1 =>
      if q =? 34 then
        match scanstring s1 with
        | None => syntax_error depth
        | Some (key, r) =>
            match skip_ws r with
            | [] => syntax_error depth
            | d :: r1 =>
                if d =? 58 then
                  match once (skip_ws r1) with
                  | Scanned v r2 =>
                      match skip_ws r2 with
                      | [] => syntax_error depth
                      | d2 :: r3 =>
                          if d2 =? 125 then Scanned (PDict (dict_set seen key v)) r3
                          else if d2 =? 44
                          then pairs (skip_ws r3) (dict_set seen key v)
                          else syntax_error depth
                      end
                  | Malformed => Malformed
                  | Failed e => Failed e
                  | Starved => Starved
                  end
                else syntax_error depth
            end
        end
      else syntax_error depth
  end.

Section Scanner.
Context {I : Interpreter}.

(** [scan_once] and the two loops; every call takes one unit of [fuel],
    and the loops of an array or object run one level deeper than the
    call that met its bracket. *)
Fixpoint scan_once (fuel depth : nat) (s : str) {struct fuel} : scan pyval :=
  match fuel with
  | O => Starved
  | S fuel =>
      scan_step depth (parse_items fuel (pred depth)) (parse_pairs fuel (pred depth)) s
  end

with parse_items (fuel depth : nat) (s : str) (values : list pyval) {struct fuel}
  : scan pyval :=
  match fuel with
  | O => Starved
  | S fuel => items_step depth (scan_once fuel depth) (parse_items fuel depth) s values
  end

with parse_pairs (fuel depth : nat) (s : str) (seen : list (str * pyval))
    {struct fuel} : scan pyval :=
  match fuel with
  | O => Starved
  | S fuel => pairs_step depth (scan_once fuel depth) (parse_pairs fuel depth) s seen
  end.

(** A text that starts with a byte order mark is refused. *)
Definition starts_with_bom (s : str) : bool :=
  match s with c :: _ => c =? 65279 | [] => false end.

(** [json.loads]: a value with white space around it and nothing else.
    The fuel given is never used up (see [scan_once_fed] below): the
    [RecursionError] raised is the one of the depth. *)
Definition json_loads (s : str) : result pyval :=
  if starts_with_bom s then Raise JSONDecodeError
  else
    match scan_once (2 * length s + 1) nesting_allowed (skip_ws s) with
    | Scanned v r =>
        match skip_ws r with
        | [] => Ok v
        | _ :: _ => Raise JSONDecodeError
        end
    | Malformed => Raise JSONDecodeError
    | Failed e => Raise e
    | Starved => Raise RecursionError
    end.

End Scanner.

(* ================================================================= *)
(** ** [AttendanceRecord] *)

Definition VALID_STATUSES : list str := [lit "Present"; lit "Absent"; lit "Late"].

Record AttendanceRecord := {
  student_name : str;
  date : str;
  status : str;
  remarks : str
}.

(** The messages of the four [ValueError]s of [validate] and of the one
    of [add_record], under the names the specification gives them. *)
Definition InvalidDate : exn :=
  ValueError (lit "Date must be in YYYY-MM-DD format, e.g., 2025-08-24").
Definition InvalidStatus : exn :=
  ValueError (lit "Status must be one of: " ++ join (lit ", ") VALID_STATUSES).
Definition MissingRemarks : exn :=
  ValueError (lit "Remarks are required when the student is Absent.").
Definition EmptyName : exn :=
  ValueError (lit "Student name cannot be empty.").
Definition DuplicateRecord (name on_date : str) : exn :=
  ValueError (lit "Attendance already exists for " ++ name ++ lit " on "
              ++ on_date ++ lit ".").

(** The dict of a record's fields, [rec.__dict__]: what the backing file
    holds for it. *)
Definition record_dict (r : AttendanceRecord) : pyval :=
  PDict [(lit "student_name", PStr (student_name r));
         (lit "date", PStr (date r));
         (lit "status", PStr (status r));
         (lit "remarks", PStr (remarks r))].

(** Attribute lookup on a record by name.  A record has its four fields;
    the dataclass adds methods and dunder names, none of them [dict_]. *)
Definition getattr_record (r : AttendanceRecord) (name : string) : result pyval :=
  if String.eqb name "student_name" then Ok (PStr (student_name r))
  else if String.eqb name "date" then Ok (PStr (date r))
  else if String.eqb name "status" then Ok (PStr (status r))
  else if String.eqb name "remarks" then Ok (PStr (remarks r))
  else if String.eqb name "__dict__" then Ok (record_dict r)
  else Raise (AttributeError name).

Section Program.
Context {U : UnicodeData} {F : FloatOps} {I : Interpreter}.

Definition clean (self : AttendanceRecord) : AttendanceRecord :=
  {| student_name := title (strip (or_empty (student_name self)));
     status := capitalize (strip (or_empty (status self)));
     date := strip (or_empty (date self));
     remarks := strip (or_empty (remarks self)) |}.

Definition str_in (s : str) (l : list str) : bool := existsb (str_eqb s) l.

(** [validate] cleans the record in place, then returns or raises: the
    result is the record as it is afterwards, and the outcome. *)
Definition validate (self : AttendanceRecord) : AttendanceRecord * result unit :=
  let self := clean self in
  (self,
   match strptime_ymd (date self) with
   | None => Raise InvalidDate
   | Some _ =>
       if negb (str_in (status self) VALID_STATUSES) then Raise InvalidStatus
       else if str_eqb (status self) (lit "Absent") && negb (truthy (remarks self))
       then Raise MissingRemarks
       else if negb (truthy (student_name self)) then Raise EmptyName
       else Ok tt
   end).

(* ================================================================= *)
(** ** [AttendanceDB] *)

(** The store object after [_init_]: the two attributes it assigns. *)
Record AttendanceDB := {
  path : str;
  _data : pyval
}.

(** Attribute lookup on the store by name.  The class body defines only
    methods; [path] and [_data] are the attributes an instance carries. *)
Definition getattr_db (o : AttendanceDB) (name : string) : result pyval :=
  if String.eqb name "path" then Ok (PStr (path o))
  else if String.eqb name "_data" then Ok (_data o)
  else Raise (AttributeError name).

(** The files on disk, by path; a file is its bytes. *)
Definition filesystem := str -> option bytes.

Definition write_file (fs : filesystem) (p : str) (content : bytes) : filesystem :=
  fun q => if str_eqb q p then Some content else fs q.

(** The store and the disk: what a method call can read and change. *)
Record world := {
  self : AttendanceDB;
  files : filesystem
}.

(** A method call returns or raises, and leaves a world behind. *)
Definition M (A : Type) := world -> result A * world.

(** [f.write(chunk)] for every chunk: each is encoded as it is written,
    and what was written before a failure stays in the file. *)
Fixpoint write_chunks (chunks : list str) (written : bytes) : result unit * bytes :=
  match chunks with
  | [] => (Ok tt, written)
  | c :: rest =>
      match utf8_encode c with
      | Some b => write_chunks rest (written ++ b)
      | None => (Raise UnicodeEncodeError, written)
      end
  end.

Definition _load : M pyval := fun w =>
  match files w (path (self w)) with
  | None => (Raise FileNotFoundError, w)
  | Some content =>
      match utf8_decode content with
      | None => (Raise UnicodeDecodeError, w)
      | Some text =>
          match json_loads (universal_newlines text) with
          | Ok v => (Ok v, w)
          | Raise JSONDecodeError => (Ok (PList []), w)
          | Raise e => (Raise e, w)
          end
      end
  end.

Definition _save : M unit := fun w =>
  let '(outcome, content) := write_chunks (iterencode (_data (self w)) 0) [] in
  (outcome,
   {| self := self w; files := write_file (files w) (path (self w)) content |}).

(** [v.lower()]. *)
Definition py_lower (v : pyval) : result str :=
  match v with
  | PStr s => Ok (lower s)
  | _ => Raise (AttributeError "lower")
  end.

(** [r["student_name"].lower() == s]. *)
Definition name_is (s : str) (r : pyval) : result bool :=
  (n <- py_getitem r (lit "student_name") ;;
   x <- py_lower n ;;
   Ok (str_eqb x s))%py.

(** The loop of [add_record] over the records held. *)
Fixpoint check_duplicate (rec : AttendanceRecord) (l : list pyval) : result unit :=
  match l with
  | [] => Ok tt
  | r :: rest =>
      (same_name <- name_is (lower (student_name rec)) r ;;
       same <- (if same_name : bool
                then d <- py_getitem r (lit "date") ;; Ok (py_eq_str d (date rec))
                else Ok false) ;;
       if same : bool
       then Raise (DuplicateRecord (student_name rec) (date rec))
       else check_duplicate rec rest)%py
  end.

Definition add_record (rec : AttendanceRecord) : M unit := fun w =>
  let '(rec, valid) := validate rec in
  match valid with
  | Raise e => (Raise e, w)
  | Ok _ =>
      match (l <- py_iter (_data (self w)) ;; check_duplicate rec l)%py with
      | Raise e => (Raise e, w)
      | Ok _ =>
          (* self.data.append(rec.dict_): the list appended to would be
             the one held by [data], not [_data], which [_save] writes *)
          match (lst <- getattr_db (self w) "data" ;;
                 d <- getattr_record rec "dict_" ;;
                 py_append lst d)%py with
          | Raise e => (Raise e, w)
          | Ok _ => _save w
          end
      end
  end.

(** [records = [r for r in records if test(r)]]. *)
Definition filtered (test : pyval -> result bool) (records : result pyval)
  : result pyval :=
  (v <- records ;;
   l <- py_iter v ;;
   l' <- comprehension test l ;;
   Ok (PList l'))%py.

(** [r["date"] >= date_from] and [r["date"] <= date_to]. *)
Definition date_ge (date_from : str) (r : pyval) : result bool :=
  (d <- py_getitem r (lit "date") ;; py_ge_str d date_from)%py.

Definition date_le (date_to : str) (r : pyval) : result bool :=
  (d <- py_getitem r (lit "date") ;; py_le_str d date_to)%py.

Definition list_records (student_name date_from date_to : option str) : M pyval :=
  fun w =>
  let records := Ok (_data (self w)) in
  let records :=
    match student_name with
    | Some n =>
        if truthy n
        then let s := lower (strip n) in filtered (name_is s) records
        else records
    | None => records
    end in
  let records :=
    match date_from with
    | Some lo => if truthy lo then filtered (date_ge lo) records else records
    | None => records
    end in
  let records :=
    match date_to with
    | Some hi => if truthy hi then filtered (date_le hi) records else records
    | None => records
    end in
  (records, w).

(** [dt.strptime(v, "%Y-%m-%d").date()] on a value. *)
Definition py_strptime (v : pyval) : result date_t :=
  match v with
  | PStr s =>
      match strptime_ymd s with
      | Some d => Ok d
      | None => Raise (ValueError (lit "time data does not match format"))
      end
  | _ => Raise TypeError
  end.

(** The loop of [student_monthly_percentage] that fills [chosen]. *)
Fixpoint choose (s : str) (year month : Z) (l : list pyval) : result (list pyval) :=
  match l with
  | [] => Ok []
  | r :: rest =>
      (same_name <- name_is s r ;;
       if negb same_name then choose s year month rest
       else
         match (v <- py_getitem r (lit "date") ;; py_strptime v) with
         | Raise _ => choose s year month rest
         | Ok d =>
             chosen <- choose s year month rest ;;
             Ok (if (d_year d =? year)%Z && (d_month d =? month)%Z
                 then r :: chosen else chosen)
         end)%py
  end.

(** [sum(1 for r in chosen if r["status"] == "Present")]. *)
Fixpoint count_present (chosen : list pyval) : result Z :=
  match chosen with
  | [] => Ok 0%Z
  | r :: rest =>
      (v <- py_getitem r (lit "status") ;;
       n <- count_present rest ;;
       Ok (if py_eq_str v (lit "Present") then (1 + n)%Z else n))%py
  end.

(** [a / b] on integers. *)
Definition py_truediv (a b : Z) : result float :=
  if (b =? 0)%Z then Raise ZeroDivisionError else Ok (int_truediv a b).

Definition student_monthly_percentage (student_name : str) (year month : Z)
  : M (Z * Z * float) := fun w =>
  let s := lower (strip student_name) in
  ((l <- py_iter (_data (self w)) ;;
    chosen <- choose s year month l ;;
    let total := Z.of_nat (length chosen) in
    present <- count_present chosen ;;
    pct <- (if negb (total =? 0)%Z
            then q <- py_truediv present total ;;
                 Ok (round_ndigits (float_mul_int q 100) 2)
            else Ok float_zero) ;;
    Ok (total, present, pct))%py,
   w).

End Program.

(* ================================================================= *)
(** * Definitions for the statements *)

(** The checks of the specification, in the order it gives them. *)
Inductive check := CheckDate | CheckStatus | CheckRemarks | CheckName.

Definition validation_order : list check :=
  [CheckDate; CheckStatus; CheckRemarks; CheckName].

Definition error_of (c : check) : exn :=
  match c with
  | CheckDate => InvalidDate
  | CheckStatus => InvalidStatus
  | CheckRemarks => MissingRemarks
  | CheckName => EmptyName
  end.

Section Specification.
Context {U : UnicodeData} {F : FloatOps}.

(** What each check asks of a normalized record. *)
Definition passes (r : AttendanceRecord) (c : check) : bool :=
  match c with
  | CheckDate => match strptime_ymd (date r) with Some _ => true | None => false end
  | CheckStatus => str_in (status r) VALID_STATUSES
  | CheckRemarks => negb (str_eqb (status r) (lit "Absent")) || truthy (remarks r)
  | CheckName => truthy (student_name r)
  end.

(** The first check of the order that the record fails, if any. *)
Definition first_failure (r : AttendanceRecord) : option check :=
  find (fun c => negb (passes r c)) validation_order.

(** A store that holds the records [rs], and a world around it. *)
Definition store_of (p : str) (rs : list AttendanceRecord) : AttendanceDB :=
  {| path := p; _data := PList (map record_dict rs) |}.

Definition world_of (p : str) (rs : list AttendanceRecord) (fs : filesystem) : world :=
  {| self := store_of p rs; files := fs |}.

End Specification.

(** Title-casing of an ASCII string, character by character: upper case
    after an uncased character, lower case after a cased one. *)
Definition ascii_title_char (previous_is_cased : bool) (c : char) : char :=
  if previous_is_cased then ascii_tolower c else ascii_toupper c.

Fixpoint ascii_title (previous_is_cased : bool) (s : str) : str :=
  match s with
  | [] => []
  | c :: rest =>
      ascii_title_char previous_is_cased c :: ascii_title (ascii_iscased c) rest
  end.

(** A string that [strip] leaves alone: no white space at either end. *)
Definition stripped {U : UnicodeData} (s : str) : Prop :=
  lstrip s = s /\ rstrip s = s.

(** ** Characters whose case mappings are stable

    A character is case-stable when its lower case and its title case
    are one character each, cased and white space exactly when the
    character is, and unchanged when lower-cased, respectively
    title-cased, again.  The capital sigma has two lower cases, by
    position. *)
Section CaseStable.
Context {U : UnicodeData}.

Definition lower_images (c : char) : list str :=
  if c =? SIGMA then [[FINAL_SIGMA]; [SMALL_SIGMA]] else [tolower_full c].

Definition same_class (c c' : char) : bool :=
  Bool.eqb (iscased c') (iscased c) && Bool.eqb (isspace c') (isspace c).

Definition lower_image_ok (c : char) (image : str) : bool :=
  match image with
  | [l] => negb (l =? SIGMA) && str_eqb (tolower_full l) [l] && same_class c l
  | _ => false
  end.

Definition title_image_ok (c : char) (image : str) : bool :=
  match image with
  | [t] => str_eqb (totitle_full t) [t] && same_class c t
  | _ => false
  end.

Definition case_stable (c : char) : bool :=
  forallb (lower_image_ok c) (lower_images c)
  && title_image_ok c (totitle_full c).

(** [s'] is [s] title-cased character by character: every character of
    [s'] stands for one of [s], is of its class, and is unchanged by the
    mapping applied at its place. *)
Inductive titled : bool -> str -> str -> Prop :=
| titled_nil (prev : bool) : titled prev [] []
| titled_cons (prev : bool) (c c' : char) (s s' : str) :
    (if prev then forall before after, lower_ucs4 before c' after = [c']
     else totitle_full c' = [c']) ->
    iscased c' = iscased c ->
    isspace c' = isspace c ->
    titled (iscased c) s s' ->
    titled prev (c :: s) (c' :: s').

End CaseStable.

Section QuerySpecification.
Context {U : UnicodeData} {F : FloatOps}.

(** Two names match case-insensitively: their lower-casings are equal. *)
Definition name_matches (query : str) (r : AttendanceRecord) : bool :=
  str_eqb (lower (student_name r)) (lower query).

(** The record's date parses and falls in the given year and month. *)
Definition in_month (y m : Z) (r : AttendanceRecord) : bool :=
  match strptime_ymd (date r) with
  | Some d => (d_year d =? y)%Z && (d_month d =? m)%Z
  | None => false
  end.

Definition selected (query : str) (y m : Z) (r : AttendanceRecord) : bool :=
  name_matches query r && in_month y m r.

Definition is_present (r : AttendanceRecord) : bool :=
  str_eqb (status r) (lit "Present").

Definition count_of (n : nat) : Z := Z.of_nat n.

(** [round(present / total * 100, 2)] when [total > 0], and [0.0] otherwise. *)
Definition percentage (total present : Z) : float :=
  if (0 <? total)%Z
  then round_ndigits (float_mul_int (int_truediv present total) 100) 2
  else float_zero.

(** The report over the records selected for [query]. *)
Definition monthly_report (query : str) (y m : Z) (rs : list AttendanceRecord)
  : Z * Z * float :=
  let chosen := filter (selected query y m) rs in
  let total := count_of (length chosen) in
  let present := count_of (length (filter is_present chosen)) in
  (total, present, percentage total present).

(** The three filters of [list_records], each applied when it is given. *)
Definition name_filter (o : option str) (r : AttendanceRecord) : bool :=
  match o with Some q => name_matches q r | None => true end.

Definition from_filter (o : option str) (r : AttendanceRecord) : bool :=
  match o with Some lo => str_leb lo (date r) | None => true end.

Definition to_filter (o : option str) (r : AttendanceRecord) : bool :=
  match o with Some hi => str_leb (date r) hi | None => true end.

Definition satisfies (name from to : option str) (r : AttendanceRecord) : bool :=
  name_filter name r && from_filter from r && to_filter to r.

(** A filter counts as given when it is present and not the empty string. *)
Definition supplied (o : option str) : option str :=
  match o with
  | Some s => if truthy s then Some s else None
  | None => None
  end.

(** The key on which [add_record] looks for a duplicate. *)
Definition same_key (rec r : AttendanceRecord) : bool :=
  str_eqb (lower (student_name r)) (lower (student_name rec))
  && str_eqb (date r) (date rec).

(** The same tests on any stored value, as the loop of
    [student_monthly_percentage] makes them: the value is chosen when
    its name, lower-cased, is the one asked for and its date parses into
    the year and month; it counts as present when its status is the
    string [Present]. *)
Definition item_selected (s : str) (y m : Z) (r : pyval) : bool :=
  match name_is s r with
  | Ok true =>
      match (v <- py_getitem r (lit "date") ;; py_strptime v)%py with
      | Ok d => (d_year d =? y)%Z && (d_month d =? m)%Z
      | Raise _ => false
      end
  | _ => false
  end.

Definition item_present (r : pyval) : bool :=
  match py_getitem r (lit "status") with
  | Ok v => py_eq_str v (lit "Present")
  | Raise _ => false
  end.

End QuerySpecification.

(** ** Sample data *)

Definition john_raw : AttendanceRecord :=
  {| student_name := lit "john doe"; date := lit "2025-08-24";
     status := lit "present"; remarks := lit "" |}.

Definition john : AttendanceRecord :=
  {| student_name := lit "John Doe"; date := lit "2025-08-24";
     status := lit "Present"; remarks := lit "" |}.

Definition john_late_raw : AttendanceRecord :=
  {| student_name := lit "JOHN DOE"; date := lit "2025-08-24";
     status := lit "late"; remarks := lit "overslept" |}.

Definition jane_raw : AttendanceRecord :=
  {| student_name := lit "Jane Doe"; date := lit "2025-08-24";
     status := lit "absent"; remarks := lit "" |}.

Definition jane : AttendanceRecord :=
  {| student_name := lit "Jane Doe"; date := lit "2025-08-24";
     status := lit "Absent"; remarks := lit "sick" |}.

Definition jose_raw : AttendanceRecord :=
  {| student_name := [106; 111; 115; 233; 32; 109; 97; 114; 237; 97];
     date := lit "2025-08-24"; status := lit "present"; remarks := lit "" |}.

(** A record as a hand-edited backing file may hold it: the status is
    not capitalized. *)
Definition john_edited : AttendanceRecord :=
  {| student_name := lit "John Doe"; date := lit "2025-08-25";
     status := lit "present"; remarks := lit "" |}.

Definition db_path : str := lit "data/attendance.json".

Definition no_files : filesystem := fun _ => None.

Definition empty_world : world := world_of db_path [] no_files.
Definition sample_world : world := world_of db_path [john; jane] no_files.

(** A store as a hand-edited file leaves it: the first record has its
    status in lower case. *)
Definition edited_world : world := world_of db_path [john_edited; jane; john] no_files.

(** ** Text that UTF-8 can encode *)

(** A Unicode scalar value: a code point that is not a surrogate. *)
Definition scalar (c : char) : bool := (c <? 1114112) && negb (is_surrogate c).

Definition encodable (s : str) : bool := forallb scalar s.

Definition record_encodable (r : AttendanceRecord) : bool :=
  encodable (student_name r) && encodable (date r)
  && encodable (status r) && encodable (remarks r).

(** ** The interpreter's limits

    An exception of the decoder that is no syntax error:
    [RecursionError], or the [ValueError] of an integer with more digits
    than the limit, which is then not zero. *)
Definition beyond_limits {I : Interpreter} (e : exn) : Prop :=
  e = RecursionError
  \/ exists digits,
       e = too_many_digits int_max_str_digits digits
       /\ 0 < int_max_str_digits < digits.

(** ** The scanner's fuel *)

(** [once], given [n] units, does not starve on a text of fewer than
    [n / 2] characters, and leaves a text that is not longer. *)
Definition fed_once (once : str -> scan pyval) (n : nat) : Prop :=
  forall s, (2 * length s < n)%nat ->
    once s <> Starved
    /\ forall v r, once s = Scanned v r -> (length r <= length s)%nat.

Definition fed_loop {A} (loop : str -> A -> scan pyval) (n : nat) : Prop :=
  forall s acc, (2 * length s + 1 < n)%nat ->
    loop s acc <> Starved
    /\ forall v r, loop s acc = Scanned v r -> (length r <= length s)%nat.

(** [once'] agrees with [once] wherever [once] does not starve. *)
Definition extends_once (once once' : str -> scan pyval) : Prop :=
  forall s, once s <> Starved -> once' s = once s.

Definition extends_loop {A} (loop loop' : str -> A -> scan pyval) : Prop :=
  forall s acc, loop s acc <> Starved -> loop' s acc = loop s acc.

(** ** The text of a store of records

    What [json.dump] writes for a list of record dicts, each text built in
    front of what follows it. *)

Definition quoted (value : str) (rest : str) : str :=
  34 :: flat_map escape_char value ++ 34 :: rest.

Definition field_text (key : string) (value : str) (rest : str) : str :=
  10 :: 32 :: 32 :: 32 :: 32 :: quoted (lit key) (58 :: 32 :: quoted value rest).

Definition record_text (r : AttendanceRecord) (rest : str) : str :=
  123 :: field_text "student_name" (student_name r)
   (44 :: field_text "date" (date r)
     (44 :: field_text "status" (status r)
       (44 :: field_text "remarks" (remarks r)
         (10 :: 32 :: 32 :: 125 :: rest)))).

(** The records after the first, then the closing bracket. *)
Fixpoint more_records_text (rs : list AttendanceRecord) (rest : str) : str :=
  match rs with
  | [] => 10 :: 93 :: rest
  | r :: rs' => 44 :: 10 :: 32 :: 32 :: record_text r (more_records_text rs' rest)
  end.

Definition records_text (rs : list AttendanceRecord) : str :=
  match rs with
  | [] => lit "[]"
  | r :: rs' => 91 :: 10 :: 32 :: 32 :: record_text r (more_records_text rs' [])
  end.

(** A world whose backing file is not JSON, and one whose backing file is
    not even UTF-8. *)
Definition broken_world : world :=
  {| self := store_of db_path [];
     files := write_file no_files db_path (lit "{not json") |}.

Definition garbled_world : world :=
  {| self := store_of db_path [];
     files := write_file no_files db_path [255] |}.

(** A world whose backing file holds the given text. *)
Definition world_reading (text : bytes) : world :=
  {| self := store_of db_path [];
     files := write_file no_files db_path text |}.

(** Backing files that are no store and yet no syntax error: 1500
    opening brackets, an integer of 4301 digits, and [NaN]. *)
Definition deep_world : world := world_reading (repeat 91 1500).
Definition long_integer_world : world := world_reading (repeat 49 4301).
Definition nan_world : world := world_reading (lit "NaN").

(** A valid record whose remarks hold a lone surrogate, U+D800. *)
Definition surrogate_record : AttendanceRecord :=
  {| student_name := lit "Ann"; date := lit "2025-01-01";
     status := lit "Late"; remarks := [55296] |}.

(** ** Auxiliary notions for the proofs *)

(** An ASCII character. *)
Definition ascii (c : char) : Prop := c < 128.

(** The characters of a field from U+0020 on have the property [P]; the
    ones below are escaped when written. *)
Definition field_ok (P : char -> Prop) (s : str) : Prop :=
  Forall (fun c => 32 <= c -> P c) s.

Definition record_ok (P : char -> Prop) (r : AttendanceRecord) : Prop :=
  field_ok P (student_name r) /\ field_ok P (date r)
  /\ field_ok P (status r) /\ field_ok P (remarks r).

(** ** Tactics *)

Ltac no_if t :=
  lazymatch t with context [if _ then _ else _] => fail | _ => idtac end.

Ltac brange :=
  unfold ascii_title_char, ascii_iscased, ascii_isspace, ascii_tolower,
    ascii_toupper, ascii_upper_letter, ascii_lower_letter, in_range, is_ascii in *;
  repeat match goal with
    | |- context [if ?b then _ else _] => is_var b; destruct b
    | |- context [N.leb ?a ?b] =>
        no_if a; no_if b; destruct (N.leb_spec a b); cbn [andb orb negb]
    | |- context [N.ltb ?a ?b] =>
        no_if a; no_if b; destruct (N.ltb_spec a b); cbn [andb orb negb]
    | |- context [N.eqb ?a ?b] =>
        no_if a; no_if b; destruct (N.eqb_spec a b); cbn [andb orb negb]
    end;
  try reflexivity; try discriminate; try lia.

Ltac settle_tests :=
  repeat match goal with
    | |- context [N.ltb ?a ?b] =>
        no_if a; no_if b;
        first [ replace (N.ltb a b) with true by (symmetry; apply N.ltb_lt; lia)
              | replace (N.ltb a b) with false by (symmetry; apply N.ltb_ge; lia) ];
        cbn [andb orb negb]
    | |- context [N.leb ?a ?b] =>
        no_if a; no_if b;
        first [ replace (N.leb a b) with true by (symmetry; apply N.leb_le; lia)
              | replace (N.leb a b) with false by (symmetry; apply N.leb_gt; lia) ];
        cbn [andb orb negb]
    | |- context [N.eqb ?a ?b] =>
        no_if a; no_if b;
        first [ replace (N.eqb a b) with true by (symmetry; apply N.eqb_eq; lia)
              | replace (N.eqb a b) with false by (symmetry; apply N.eqb_neq; lia) ];
        cbn [andb orb negb]
    end.

Ltac take_some :=
  let H := fresh in
  intro H;
  match type of H with
  | Some ?x = Some ?y => assert (y = x) by congruence; subst y; clear H
  end.

Ltac literal_ok ascii_ok :=
  repeat (apply Forall_cons; [try intros _; apply ascii_ok; lia|]);
  try apply Forall_nil.

(* ================================================================= *)
(** * The rest of the program *)

(** ** [export_csv]

    [csv.DictWriter] with the default dialect: fields separated by a
    comma, rows ended by CR LF, a field quoted when it holds a comma, a
    quote, a carriage return or a line feed, a quote inside written
    twice. *)

Definition fieldnames : list str :=
  [lit "student_name"; lit "date"; lit "status"; lit "remarks"].

Definition csv_special (c : char) : bool :=
  (c =? 44) || (c =? 34) || (c =? 13) || (c =? 10).

Definition needs_quotes (s : str) : bool := existsb csv_special s.

Definition csv_double_quote (c : char) : str :=
  if c =? 34 then [34; 34] else [c].

Definition csv_field (s : str) : str :=
  if needs_quotes s then 34 :: flat_map csv_double_quote s ++ [34] else s.

(** A row of one empty field is written as a pair of quotes. *)
Definition csv_row (fields : list str) : str :=
  match fields with
  | [[]] => [34; 34; 13; 10]
  | _ => join [44] (map csv_field fields) ++ [13; 10]
  end.

(** What the interpreter prints for values other than strings and
    [None]: [str(v)], and the message of [DictWriter] for a dict with
    keys that are no field names, whose order is the interpreter's. *)
Class ReprOps := {
  py_str : pyval -> str;
  extra_fields_message : list str -> str
}.

(** Whether a file can be opened for writing is the operating system's
    affair: the path may be empty, its folder missing, or it may name a
    directory.  [open_error w p] is what [open(p, "w")] raises in the
    world [w], if anything: [FileNotFoundError], or another [OSError]
    by its name.  The store's own file is one that [_init_] has
    opened. *)
Class Disk := {
  open_error : world -> str -> option exn;
  own_file_opens : forall w, open_error w (path (self w)) = None
}.

Section ExportCsv.
Context {R : ReprOps} {D : Disk}.

(** The text the writer puts in a field for a value. *)
Definition csv_text (v : pyval) : str :=
  match v with
  | PStr s => s
  | PNone => []
  | _ => py_str v
  end.

(** [DictWriter._dict_to_list] with [extrasaction="raise"] and
    [restval=""]. *)
Definition _dict_to_list (rowdict : pyval) : result (list pyval) :=
  match rowdict with
  | PDict d =>
      let wrong_fields := filter (fun k => negb (str_in k fieldnames)) (map fst d) in
      if negb (is_nil wrong_fields)
      then Raise (ValueError (extra_fields_message wrong_fields))
      else Ok (map (fun key => match dict_get d key with
                               | Some v => v
                               | None => PStr (lit "")
                               end) fieldnames)
  | _ => Raise (AttributeError "keys")
  end.

(** [DictWriter.writerow]: the row is converted, its line built and
    written to the file, which encodes it. *)
Definition writerow (rowdict : pyval) (written : bytes) : result unit * bytes :=
  match _dict_to_list rowdict with
  | Raise e => (Raise e, written)
  | Ok fields =>
      match utf8_encode (csv_row (map csv_text fields)) with
      | Some b => (Ok tt, written ++ b)
      | None => (Raise UnicodeEncodeError, written)
      end
  end.

(** [writeheader]: the row that maps every field name to itself. *)
Definition writeheader (written : bytes) : result unit * bytes :=
  writerow (PDict (map (fun k => (k, PStr k)) fieldnames)) written.

(** [writerows]: the rows are converted and written one by one; what was
    written before a failure stays in the file. *)
Fixpoint writerows (rows : list pyval) (written : bytes) : result unit * bytes :=
  match rows with
  | [] => (Ok tt, written)
  | r :: rest =>
      match writerow r written with
      | (Ok _, written) => writerows rest written
      | (Raise e, written) => (Raise e, written)
      end
  end.

Definition export_csv (out_path : str) : M str := fun w =>
  match open_error w out_path with
  | Some e => (Raise e, w)
  | None =>
      let '(outcome, content) :=
        match writeheader [] with
        | (Ok _, written) =>
            match py_iter (_data (self w)) with
            | Ok rows => writerows rows written
            | Raise e => (Raise e, written)
            end
        | (Raise e, written) => (Raise e, written)
        end in
      (match outcome with Ok _ => Ok out_path | Raise e => Raise e end,
       {| self := self w; files := write_file (files w) out_path content |})
  end.

End ExportCsv.

(** ** [prompt_record]

    The console: the lines still to be read from standard input, each
    without its line end, and the text written to standard output. *)
Record console := {
  stdin : list str;
  stdout : str
}.

(** What a read gives: a value, or [EOFError] at the end of input. *)
Inductive read (A : Type) :=
| Read (a : A)
| EOFError.
Arguments Read {A} a.
Arguments EOFError {A}.

(** [input(prompt)]: the prompt is written, then a line is read. *)
Definition input (prompt : str) (c : console) : read str * console :=
  let out := stdout c ++ prompt in
  match stdin c with
  | [] => (EOFError, {| stdin := []; stdout := out |})
  | line :: rest => (Read line, {| stdin := rest; stdout := out |})
  end.

Section Prompt.
Context {U : UnicodeData}.

Definition prompt_record (c : console) : read AttendanceRecord * console :=
  match input (lit "Student name: ") c with
  | (EOFError, c) => (EOFError, c)
  | (Read l, c) =>
      let name := strip l in
      match input (lit "Date (YYYY-MM-DD): ") c with
      | (EOFError, c) => (EOFError, c)
      | (Read l, c) =>
          let date_str := strip l in
          match input (lit "Status (Present/Absent/Late): ") c with
          | (EOFError, c) => (EOFError, c)
          | (Read l, c) =>
              let status := strip l in
              if str_eqb (lower status) (lit "absent")
              then
                match input (lit "Remarks (required if Absent): ") c with
                | (EOFError, c) => (EOFError, c)
                | (Read l, c) =>
                    (Read {| student_name := name; date := date_str;
                             status := status; remarks := strip l |}, c)
                end
              else
                (Read {| student_name := name; date := date_str;
                         status := status; remarks := lit "" |}, c)
          end
      end
  end.

End Prompt.

(** ** Definitions for the further statements *)

(** [capitalize] and [lower] of an ASCII string, character by character. *)
Definition ascii_capitalize (s : str) : str :=
  match s with
  | [] => []
  | c :: rest => ascii_toupper c :: map ascii_tolower rest
  end.

(** The three statuses as the user may type them in lower case. *)
Definition lowercase_statuses : list str :=
  [lit "present"; lit "absent"; lit "late"].

Definition all_ascii (s : str) : bool := forallb is_ascii s.

(** The lines [prompt_record] reads: three, and a fourth for the remarks
    when the third, trimmed and lower-cased, is [absent]. *)
Definition lines_needed {U : UnicodeData} (c : console) : nat :=
  match stdin c with
  | _ :: _ :: s :: _ => if str_eqb (lower (strip s)) (lit "absent") then 4 else 3
  | _ => 3
  end.

(** The text of an export: the header line, then a line per record. *)
Definition csv_line (r : AttendanceRecord) : str :=
  csv_row [student_name r; date r; status r; remarks r].

Definition csv_lines (rs : list AttendanceRecord) : str :=
  csv_row fieldnames ++ flat_map csv_line rs.

(** A world whose store holds the values [items], records or not. *)
Definition world_with (p : str) (items : list pyval) (fs : filesystem) : world :=
  {| self := {| path := p; _data := PList items |}; files := fs |}.

(** A stored object whose date cannot be read as one: the key is
    missing, or its value is no string, or no date. *)
Definition date_unusable {U : UnicodeData} (d : list (str * pyval)) : Prop :=
  forall s, dict_get d (lit "date") = Some (PStr s) -> strptime_ymd s = None.

(** An object without the key [student_name], and one without a date. *)
Definition nameless : list (str * pyval) :=
  [(lit "date", PStr (lit "2025-08-24")); (lit "status", PStr (lit "Present"))].

Definition dateless : list (str * pyval) :=
  [(lit "student_name", PStr (lit "John Doe")); (lit "status", PStr (lit "Present"))].

(** A console on which an absence is typed with blank remarks. *)
Definition absent_console : console :=
  {| stdin := [lit " john doe "; lit "2025-08-24"; lit " ABSENT"; lit "  "];
     stdout := [] |}.

Definition absent_typed : AttendanceRecord :=
  {| student_name := lit "john doe"; date := lit "2025-08-24";
     status := lit "ABSENT"; remarks := lit "" |}.

(** A stand-in for the interpreter's printing, to evaluate examples
    with: every value prints as a question mark, and the message for
    keys that are no field names lists them in the order given. *)
Definition sketch_repr : ReprOps := {|
  py_str := fun _ => lit "?";
  extra_fields_message := fun keys =>
    lit "dict contains fields not in fieldnames: "
    ++ join (lit ", ") (map (fun k => 39 :: k ++ [39]) keys)
|}.

(** A disk on which every path can be opened for writing. *)
Definition open_disk : Disk := {|
  open_error := fun _ _ => None;
  own_file_opens := fun _ => eq_refl
|}.

(** A stored object with a key that is no field name. *)
Definition numbered : pyval :=
  PDict [(lit "student_name", PStr (lit "John Doe")); (lit "id", PStr (lit "7"))].

(* ================================================================= *)
(** * Strings: basic facts *)

Lemma str_eqb_refl (s : str) : str_eqb s s = true.
Proof.
  induction s as [|c s IH]; simpl; [reflexivity|].
  now rewrite N.eqb_refl, IH.
Qed.

Lemma str_eqb_eq (a b : str) : str_eqb a b = true <-> a = b.
Proof.
  split; [|intros ->; apply str_eqb_refl].
  revert b; induction a as [|x a IH]; intros [|y b]; simpl; try discriminate; auto.
  rewrite andb_true_iff, N.eqb_eq. intros [-> H]. f_equal. now apply IH.
Qed.

Lemma str_eqb_neq (a b : str) : str_eqb a b = false <-> a <> b.
Proof.
  rewrite <- str_eqb_eq. destruct (str_eqb a b); split; congruence.
Qed.

Lemma or_empty_id (x : str) : or_empty x = x.
Proof. now destruct x. Qed.

(* ================================================================= *)
(** * Validation *)

Section ValidationFacts.
Context {U : UnicodeData}.

Lemma validate_fst (r : AttendanceRecord) : fst (validate r) = clean r.
Proof. reflexivity. Qed.

(** C2. [validate] normalizes the record first and then reports the first
    check that fails in the order date format, status membership,
    absent-requires-remarks, name non-empty, and succeeds when none does;
    the four errors are distinct, so a record with an invalid date and
    an empty name is reported as [InvalidDate], not as [EmptyName]. *)
Theorem validate_first_failure_wins :
  forall r : AttendanceRecord,
    validate r =
      (clean r,
       match first_failure (clean r) with
       | Some c => Raise (error_of c)
       | None => Ok tt
       end)
    /\ NoDup (map error_of validation_order).
Proof.
  intro r. split.
  - unfold validate, first_failure, validation_order.
    generalize (clean r); intro c. cbn [find passes].
    destruct (strptime_ymd (date c)); cbn [negb error_of]; [|reflexivity].
    destruct (str_in (status c) VALID_STATUSES); cbn [negb error_of]; [|reflexivity].
    destruct (str_eqb (status c) (lit "Absent")), (truthy (remarks c));
      cbn [negb orb andb error_of]; try reflexivity;
      destruct (truthy (student_name c)); reflexivity.
  - repeat constructor; simpl; intuition discriminate.
Qed.

(** The example of the claim: an invalid date wins over an empty name. *)
Lemma invalid_date_before_empty_name (r : AttendanceRecord) :
  strptime_ymd (date (clean r)) = None ->
  snd (validate r) = Raise InvalidDate /\ snd (validate r) <> Raise EmptyName.
Proof.
  intro H. unfold validate; cbn [snd]. rewrite H.
  split; [reflexivity|discriminate].
Qed.

End ValidationFacts.

(* ================================================================= *)
(** * [strip] *)

Section DropWhile.
Context {A : Type} (p : A -> bool).

Lemma dropwhile_length (l : list A) : (length (dropwhile p l) <= length l)%nat.
Proof.
  induction l as [|x l IH]; simpl; [lia|]. destruct (p x); simpl; lia.
Qed.

Lemma dropwhile_idem (l : list A) : dropwhile p (dropwhile p l) = dropwhile p l.
Proof.
  induction l as [|x l IH]; simpl; [reflexivity|].
  destruct (p x) eqn:E; [exact IH|]. simpl. now rewrite E.
Qed.

Lemma dropwhile_head (x : A) (l : list A) :
  dropwhile p (x :: l) = x :: l <-> p x = false.
Proof.
  simpl. destruct (p x); split; try congruence. intro H.
  pose proof (dropwhile_length l) as L. rewrite H in L. simpl in L. lia.
Qed.

Lemma dropwhile_snoc (l : list A) (x : A) :
  p x = false -> dropwhile p (l ++ [x]) = dropwhile p l ++ [x].
Proof.
  intro H. induction l as [|y l IH]; simpl; [now rewrite H|].
  destruct (p y); [exact IH|reflexivity].
Qed.

Lemma dropwhile_ext (q : A -> bool) (l : list A) :
  Forall (fun x => p x = q x) l -> dropwhile p l = dropwhile q l.
Proof.
  induction 1 as [|x l Hx _ IH]; simpl; [reflexivity|].
  rewrite <- Hx. destruct (p x); [exact IH|reflexivity].
Qed.

Lemma dropwhile_Forall (P : A -> Prop) (l : list A) :
  Forall P l -> Forall P (dropwhile p l).
Proof.
  induction 1 as [|x l Hx Hl IH]; simpl; [constructor|].
  destruct (p x); [exact IH|now constructor].
Qed.

End DropWhile.

Section StripFacts.
Context {U : UnicodeData}.

Lemma rstrip_keeps_head (l : str) : lstrip l = l -> lstrip (rstrip l) = rstrip l.
Proof.
  unfold lstrip, rstrip. destruct l as [|x t]; [reflexivity|].
  intro Hx. apply dropwhile_head in Hx. simpl rev.
  rewrite dropwhile_snoc, rev_app_distr by exact Hx. simpl.
  now rewrite Hx.
Qed.

Lemma strip_stripped (s : str) : stripped (strip s).
Proof.
  split.
  - apply rstrip_keeps_head. apply dropwhile_idem.
  - unfold strip, rstrip at 1 2. rewrite rev_involutive. now rewrite dropwhile_idem.
Qed.

Lemma stripped_strip (s : str) : stripped s -> strip s = s.
Proof. intros [H1 H2]. unfold strip. now rewrite H1. Qed.

Lemma strip_idem (s : str) : strip (strip s) = strip s.
Proof. apply stripped_strip, strip_stripped. Qed.

End StripFacts.

(* ================================================================= *)
(** * ASCII strings under any character database *)

Lemma ascii_title_char_cased (prev : bool) (c : char) :
  ascii_iscased (ascii_title_char prev c) = ascii_iscased c.
Proof. brange. Qed.

Lemma ascii_title_char_idem (prev : bool) (c : char) :
  ascii_title_char prev (ascii_title_char prev c) = ascii_title_char prev c.
Proof. brange. Qed.

Lemma ascii_title_char_space (prev : bool) (c : char) :
  ascii_isspace (ascii_title_char prev c) = ascii_isspace c.
Proof. brange. Qed.

Lemma ascii_title_char_ascii (prev : bool) (c : char) :
  c < 128 -> ascii_title_char prev c < 128.
Proof. intro H. brange. Qed.

Lemma ascii_title_idem (prev : bool) (s : str) :
  ascii_title prev (ascii_title prev s) = ascii_title prev s.
Proof.
  revert prev; induction s as [|c s IH]; intro prev; simpl; [reflexivity|].
  now rewrite ascii_title_char_idem, ascii_title_char_cased, IH.
Qed.

Lemma ascii_title_Forall (prev : bool) (s : str) :
  Forall (fun c => c < 128) s -> Forall (fun c => c < 128) (ascii_title prev s).
Proof.
  intro H; revert prev; induction H as [|c s Hc _ IH]; intro prev; simpl;
    constructor; auto using ascii_title_char_ascii.
Qed.

Lemma ascii_title_snoc (prev : bool) (s : str) (c : char) :
  exists c', ascii_title prev (s ++ [c]) = ascii_title prev s ++ [c']
             /\ ascii_isspace c' = ascii_isspace c /\ (c < 128 -> c' < 128).
Proof.
  revert prev; induction s as [|x s IH]; intro prev; simpl.
  - eexists; split; [reflexivity|].
    split; [apply ascii_title_char_space|apply ascii_title_char_ascii].
  - destruct (IH (ascii_iscased x)) as (c' & -> & H). now exists c'.
Qed.

Section AsciiStd.
Context {U : UnicodeData} (std : ascii_std U).

Lemma is_ascii_lt (c : char) : ascii c -> is_ascii c = true.
Proof. unfold ascii, is_ascii. intro H. now apply N.ltb_lt. Qed.

Lemma ascii_not_sigma (c : char) : ascii c -> (c =? SIGMA) = false.
Proof. unfold ascii, SIGMA. intro H. apply N.eqb_neq. lia. Qed.

Lemma do_title_ascii (before : str) (prev : bool) (s : str) :
  Forall ascii s -> do_title before prev s = ascii_title prev s.
Proof.
  intro H; revert before prev.
  induction H as [|c s Hc _ IH]; intros bef prev; simpl; [reflexivity|].
  unfold lower_ucs4. rewrite ascii_not_sigma by exact Hc.
  rewrite (std_tolower std), (std_totitle std), (std_iscased std), IH
    by now apply is_ascii_lt.
  now destruct prev.
Qed.

Lemma do_lower_ascii (before : str) (s : str) :
  Forall ascii s -> do_lower before s = map ascii_tolower s.
Proof.
  intro H; revert before.
  induction H as [|c s Hc _ IH]; intro bef; simpl; [reflexivity|].
  unfold lower_ucs4. rewrite ascii_not_sigma by exact Hc.
  now rewrite (std_tolower std), IH by now apply is_ascii_lt.
Qed.

Lemma capitalize_ascii (s : str) :
  Forall ascii s ->
  capitalize s =
    match s with [] => [] | c :: r => ascii_toupper c :: map ascii_tolower r end.
Proof.
  destruct s as [|c r]; [reflexivity|]. intro H. inversion_clear H as [|? ? Hc Hr].
  unfold capitalize.
  now rewrite (std_totitle std), do_lower_ascii by (try apply is_ascii_lt; assumption).
Qed.

Lemma strip_Forall (P : char -> Prop) (s : str) : Forall P s -> Forall P (strip s).
Proof.
  intro H. unfold strip, rstrip, lstrip.
  apply Forall_rev, dropwhile_Forall, Forall_rev, dropwhile_Forall, H.
Qed.

(** A string whose first and last characters are ASCII and not white
    space is stripped. *)
Lemma stripped_ends (x : char) (t : str) (y : char) (t' : str) :
  rev (x :: t) = y :: t' ->
  ascii x -> ascii_isspace x = false ->
  ascii y -> ascii_isspace y = false ->
  stripped (x :: t).
Proof.
  intros Hrev Ax Sx Ay Sy. split.
  - apply dropwhile_head. now rewrite (std_isspace std) by now apply is_ascii_lt.
  - unfold rstrip. rewrite Hrev.
    assert (E : dropwhile isspace (y :: t') = y :: t').
    { apply dropwhile_head. now rewrite (std_isspace std) by now apply is_ascii_lt. }
    rewrite E, <- Hrev. apply rev_involutive.
Qed.

Lemma stripped_inv (s : str) :
  Forall ascii s -> stripped s ->
  s = [] \/ exists x t y t', s = x :: t /\ rev s = y :: t'
             /\ ascii x /\ ascii_isspace x = false
             /\ ascii y /\ ascii_isspace y = false.
Proof.
  intros Hs [H1 H2]. destruct s as [|x t]; [now left|right].
  destruct (rev (x :: t)) as [|y t'] eqn:Hrev.
  { apply (f_equal (@length _)) in Hrev. rewrite length_rev in Hrev. discriminate. }
  assert (Hy : ascii y).
  { apply Forall_rev in Hs. rewrite Hrev in Hs. now inversion Hs. }
  assert (Hx : ascii x) by now inversion Hs.
  exists x, t, y, t'. repeat split; auto.
  - apply dropwhile_head in H1. now rewrite (std_isspace std) in H1 by now apply is_ascii_lt.
  - unfold rstrip in H2. rewrite Hrev in H2.
    apply (f_equal (@rev _)) in H2. rewrite rev_involutive, Hrev in H2.
    apply dropwhile_head in H2.
    now rewrite (std_isspace std) in H2 by now apply is_ascii_lt.
Qed.

Lemma ascii_title_stripped (s : str) :
  Forall ascii s -> stripped s -> stripped (ascii_title false s).
Proof.
  intros Hs St. destruct (stripped_inv Hs St) as [->|(x & t & y & t' & -> & Hrev & Ax & Sx & Ay & Sy)].
  { exact St. }
  assert (E : x :: t = rev t' ++ [y]).
  { rewrite <- (rev_involutive (x :: t)), Hrev. reflexivity. }
  destruct (ascii_title_snoc false (rev t') y) as (y' & E' & Sy' & Ay').
  assert (Ht : ascii_title false (x :: t)
               = ascii_title_char false x :: ascii_title (ascii_iscased x) t)
    by reflexivity.
  rewrite Ht. eapply stripped_ends with (y := y').
  - rewrite <- Ht, E, E', rev_app_distr. reflexivity.
  - now apply ascii_title_char_ascii.
  - now rewrite ascii_title_char_space.
  - now apply Ay'.
  - now rewrite Sy'.
Qed.

(** Normalizing a normalized ASCII name changes nothing. *)
Lemma name_normal_form (n : str) :
  Forall ascii n ->
  title (strip (title (strip n))) = title (strip n).
Proof.
  intro Hn. unfold title.
  assert (Hs : Forall ascii (strip n)) by now apply strip_Forall.
  rewrite (do_title_ascii [] false Hs).
  assert (St : stripped (ascii_title false (strip n))).
  { apply ascii_title_stripped; [exact Hs|apply strip_stripped]. }
  rewrite (stripped_strip St).
  rewrite do_title_ascii by now apply ascii_title_Forall.
  apply ascii_title_idem.
Qed.

(** Normalizing one of the three valid statuses changes nothing. *)
Lemma status_normal_form (s : str) :
  str_in s VALID_STATUSES = true -> capitalize (strip s) = s.
Proof.
  unfold str_in, VALID_STATUSES. cbn [existsb].
  rewrite !orb_true_iff, !str_eqb_eq.
  assert (P : forall x t y t', rev (x :: t) = y :: t' ->
              Forall ascii (x :: t) -> ascii y ->
              ascii_isspace x = false -> ascii_isspace y = false ->
              ascii_toupper x :: map ascii_tolower t = x :: t ->
              capitalize (strip (x :: t)) = x :: t).
  { intros x t y t' Hrev Hall Ay Sx Sy Hcap.
    rewrite stripped_strip.
    - now rewrite capitalize_ascii.
    - eapply stripped_ends; eauto. now inversion Hall. }
  assert (A : forall z : str, forallb is_ascii z = true -> Forall ascii z).
  { intros z H. apply Forall_forall. intros c Hc.
    rewrite forallb_forall in H. apply N.ltb_lt, (H c Hc). }
  intros [->|[->|[->|H]]]; [| | |discriminate H].
  - apply (P 80 (lit "resent") 116 (rev (lit "Presen")));
      try reflexivity; now apply A.
  - apply (P 65 (lit "bsent") 116 (rev (lit "Absen")));
      try reflexivity; now apply A.
  - apply (P 76 (lit "ate") 101 (rev (lit "Lat")));
      try reflexivity; now apply A.
Qed.

End AsciiStd.

Lemma ascii_ucd_std : ascii_std ascii_ucd.
Proof. split; reflexivity. Qed.

(* ================================================================= *)
(** * Names of case-stable characters *)

Section CaseStableFacts.
Context {U : UnicodeData}.

Lemma same_class_inv (c c' : char) :
  same_class c c' = true -> iscased c' = iscased c /\ isspace c' = isspace c.
Proof.
  unfold same_class. rewrite andb_true_iff. intros [H1 H2].
  split; now apply Bool.eqb_prop.
Qed.

Lemma lower_image_ok_inv (c : char) (image : str) :
  lower_image_ok c image = true ->
  exists l, image = [l]
    /\ (forall before after, lower_ucs4 before l after = [l])
    /\ iscased l = iscased c /\ isspace l = isspace c.
Proof.
  unfold lower_image_ok. destruct image as [|l [|x rest]]; try discriminate.
  rewrite !andb_true_iff, negb_true_iff. intros [[Hs Hl] Hc].
  exists l. split; [reflexivity|]. split; [|now apply same_class_inv].
  intros bef aft. unfold lower_ucs4. rewrite Hs. now apply str_eqb_eq.
Qed.

(** The lower case of a case-stable character, wherever it stands. *)
Lemma lower_ucs4_stable (c : char) (before after : str) :
  case_stable c = true ->
  exists l, lower_ucs4 before c after = [l]
    /\ (forall b a, lower_ucs4 b l a = [l])
    /\ iscased l = iscased c /\ isspace l = isspace c.
Proof.
  unfold case_stable. rewrite andb_true_iff. intros [H _].
  rewrite forallb_forall in H.
  assert (Hin : In (lower_ucs4 before c after) (lower_images c)).
  { unfold lower_ucs4, lower_images, handle_capital_sigma.
    destruct (c =? SIGMA); [|now left].
    match goal with |- In [if ?b then _ else _] _ => destruct b end;
      [now left|now right; left]. }
  destruct (lower_image_ok_inv _ _ (H _ Hin)) as (l & E & Hl). exists l. now split.
Qed.

Lemma totitle_stable (c : char) :
  case_stable c = true ->
  exists t, totitle_full c = [t] /\ totitle_full t = [t]
    /\ iscased t = iscased c /\ isspace t = isspace c.
Proof.
  unfold case_stable, title_image_ok. rewrite andb_true_iff. intros [_ H].
  destruct (totitle_full c) as [|t [|x rest]]; try discriminate.
  apply andb_true_iff in H. destruct H as [Ht Hc].
  exists t. split; [reflexivity|]. split; [now apply str_eqb_eq|].
  now apply same_class_inv.
Qed.

(** Title-casing a string of case-stable characters maps it character
    by character. *)
Lemma do_title_titled (s : str) :
  forallb case_stable s = true ->
  forall before prev, titled prev s (do_title before prev s).
Proof.
  induction s as [|c s IH]; intros H bef prev; [constructor|].
  cbn [forallb] in H. apply andb_true_iff in H. destruct H as [Hc Hs].
  cbn [do_title]. destruct prev.
  - destruct (lower_ucs4_stable c bef s Hc) as (l & -> & Hl & Hcased & Hspace).
    cbn [app]. constructor; auto.
  - destruct (totitle_stable c Hc) as (t & -> & Ht & Hcased & Hspace).
    cbn [app]. constructor; auto.
Qed.

(** What title-casing gives is left as it is by title-casing. *)
Lemma titled_fixed (prev : bool) (s s' : str) :
  titled prev s s' -> forall before, do_title before prev s' = s'.
Proof.
  induction 1 as [|prev c c' s s' Hmap Hcased Hspace _ IH]; intro bef;
    [reflexivity|].
  cbn [do_title]. rewrite Hcased, IH.
  destruct prev; now rewrite Hmap.
Qed.

Lemma titled_isspace (prev : bool) (s s' : str) :
  titled prev s s' -> map isspace s' = map isspace s.
Proof.
  induction 1 as [|prev c c' s s' _ _ Hspace _ IH]; [reflexivity|].
  cbn [map]. now rewrite Hspace, IH.
Qed.

Lemma dropwhile_fixed_map {A} (p : A -> bool) (l l' : list A) :
  map p l' = map p l -> dropwhile p l = l -> dropwhile p l' = l'.
Proof.
  destruct l as [|x l], l' as [|x' l']; try discriminate; [reflexivity|].
  cbn [map]. intros [= Hx _] H.
  apply dropwhile_head in H. apply dropwhile_head. now rewrite Hx.
Qed.

(** A string with white space in the same places as a stripped one is
    stripped. *)
Lemma stripped_isspace (s s' : str) :
  map isspace s' = map isspace s -> stripped s -> stripped s'.
Proof.
  intros Hm [Hl Hr]. split.
  - exact (@dropwhile_fixed_map _ isspace s s' Hm Hl).
  - unfold rstrip in *.
    assert (E : dropwhile isspace (rev s) = rev s).
    { rewrite <- Hr at 2. now rewrite rev_involutive. }
    assert (Hm' : map isspace (rev s') = map isspace (rev s))
      by now rewrite !map_rev, Hm.
    rewrite (@dropwhile_fixed_map _ isspace (rev s) (rev s') Hm' E).
    apply rev_involutive.
Qed.

Lemma forallb_strip (P : char -> bool) (s : str) :
  forallb P s = true -> forallb P (strip s) = true.
Proof.
  rewrite !forallb_forall, <- !Forall_forall. apply strip_Forall.
Qed.

(** Normalizing a normalized name of case-stable characters changes
    nothing. *)
Lemma name_normal_form_stable (n : str) :
  forallb case_stable n = true ->
  title (strip (title (strip n))) = title (strip n).
Proof.
  intro Hn. unfold title.
  pose proof (do_title_titled _ (forallb_strip _ _ Hn) [] false) as T.
  assert (St : stripped (do_title [] false (strip n))).
  { exact (@stripped_isspace (strip n) _ (titled_isspace T) (strip_stripped n)). }
  rewrite (stripped_strip St). exact (titled_fixed T []).
Qed.

End CaseStableFacts.

(** ASCII characters are case-stable in every character database that
    agrees with ASCII below U+0080. *)
Lemma ascii_case_stable {U : UnicodeData} (std : ascii_std U) (c : char) :
  is_ascii c = true -> case_stable c = true.
Proof.
  intro Hc.
  assert (A : ascii c) by now apply N.ltb_lt.
  assert (Al : is_ascii (ascii_tolower c) = true).
  { revert A. unfold ascii. intro A. brange. }
  assert (Au : is_ascii (ascii_toupper c) = true).
  { revert A. unfold ascii. intro A. brange. }
  unfold case_stable, lower_images.
  rewrite (ascii_not_sigma A), (std_tolower std c Hc), (std_totitle std c Hc).
  cbn [forallb lower_image_ok title_image_ok]. unfold same_class.
  rewrite (std_tolower std _ Al), (std_totitle std _ Au).
  rewrite !(std_iscased std) by assumption.
  rewrite !(std_isspace std) by assumption.
  assert (S1 : (ascii_tolower c =? SIGMA) = false).
  { apply ascii_not_sigma. now apply N.ltb_lt. }
  rewrite S1. cbn [negb str_eqb].
  assert (E1 : ascii_tolower (ascii_tolower c) = ascii_tolower c) by brange.
  assert (E2 : ascii_toupper (ascii_toupper c) = ascii_toupper c) by brange.
  assert (E3 : ascii_iscased (ascii_tolower c) = ascii_iscased c) by brange.
  assert (E4 : ascii_iscased (ascii_toupper c) = ascii_iscased c) by brange.
  assert (E5 : ascii_isspace (ascii_tolower c) = ascii_isspace c) by brange.
  assert (E6 : ascii_isspace (ascii_toupper c) = ascii_isspace c) by brange.
  rewrite E1, E2, E3, E4, E5, E6, !N.eqb_refl, !Bool.eqb_reflx. reflexivity.
Qed.

Lemma latin_ucd_std : ascii_std latin_ucd.
Proof.
  split; intros c H; apply N.ltb_lt in H; cbn; try reflexivity.
  - unfold latin_capital, latin_small, in_range.
    replace (192 <=? c) with false by (symmetry; apply N.leb_gt; lia).
    replace (224 <=? c) with false by (symmetry; apply N.leb_gt; lia).
    cbn [andb]. now rewrite !orb_false_r.
  - unfold latin_capital, in_range.
    now replace (192 <=? c) with false by (symmetry; apply N.leb_gt; lia).
  - unfold latin_small, in_range.
    now replace (224 <=? c) with false by (symmetry; apply N.leb_gt; lia).
Qed.

(** C9, as amended. For every raw record on which [validate] succeeds
    and whose student name is made of case-stable characters (the lower
    case and the title case of each are one character, of the
    character's class, and their own lower and title case), normalizing
    the normalized record again leaves it unchanged, and validating it
    again succeeds with the same record; this for every character
    database that agrees with ASCII below U+0080, where the characters
    of the three statuses are.  ASCII characters are case-stable. *)
Theorem validate_idempotent_stable_names :
  forall (U : UnicodeData) (r : AttendanceRecord),
    ascii_std U ->
    forallb case_stable (student_name r) = true ->
    snd (validate r) = Ok tt ->
    clean (fst (validate r)) = fst (validate r)
    /\ validate (fst (validate r)) = (fst (validate r), Ok tt).
Proof.
  intros U r std Hname Hok.
  assert (C : clean (clean r) = clean r).
  { assert (Hstatus : str_in (status (clean r)) VALID_STATUSES = true).
    { unfold validate in Hok; cbn [snd] in Hok.
      destruct (strptime_ymd (date (clean r))); [|discriminate].
      destruct (str_in (status (clean r)) VALID_STATUSES); [reflexivity|discriminate]. }
    unfold clean at 1. rewrite !or_empty_id.
    destruct r as [n d s m]; unfold clean in *; cbn [student_name date status remarks] in *.
    rewrite !or_empty_id in *. f_equal.
    - now apply name_normal_form_stable.
    - apply strip_idem.
    - apply (status_normal_form std), Hstatus.
    - apply strip_idem. }
  rewrite validate_fst. split; [exact C|].
  unfold validate in *. cbn [snd] in Hok. rewrite C. now rewrite Hok.
Qed.

Lemma validate_idempotent_stable_names_witness :
  clean (U := latin_ucd) (fst (validate (U := latin_ucd) jose_raw))
  = fst (validate (U := latin_ucd) jose_raw)
  /\ validate (U := latin_ucd) (fst (validate (U := latin_ucd) jose_raw))
     = (fst (validate (U := latin_ucd) jose_raw), Ok tt).
Proof.
  exact (validate_idempotent_stable_names (U := latin_ucd) jose_raw
           latin_ucd_std eq_refl eq_refl).
Defined.

(** C9, as stated, fails: the name U+01F0 U+0061 is normalized to
    U+004A U+030C U+0061 and accepted, and normalizing that gives
    U+004A U+030C U+0041, because the combining caron is not cased. *)
Lemma title_case_not_idempotent :
  let r := {| student_name := [J_CARON; 97]; date := lit "2025-08-24";
              status := lit "present"; remarks := lit "" |} in
  snd (validate (U := caron_ucd) r) = Ok tt
  /\ student_name (fst (validate (U := caron_ucd) r)) = [74; COMBINING_CARON; 97]
  /\ student_name (clean (U := caron_ucd) (fst (validate (U := caron_ucd) r)))
     = [74; COMBINING_CARON; 65]
  /\ clean (U := caron_ucd) (fst (validate (U := caron_ucd) r))
     <> fst (validate (U := caron_ucd) r).
Proof.
  cbv zeta. repeat split; try reflexivity. intro H.
  apply (f_equal student_name) in H. vm_compute in H. discriminate.
Qed.

(* ================================================================= *)
(** * The store on records *)

Section StoreFacts.
Context {U : UnicodeData} {F : FloatOps}.

Lemma name_is_record (s : str) (r : AttendanceRecord) :
  name_is s (record_dict r) = Ok (str_eqb (lower (student_name r)) s).
Proof. reflexivity. Qed.

Lemma getitem_date (r : AttendanceRecord) :
  py_getitem (record_dict r) (lit "date") = Ok (PStr (date r)).
Proof. reflexivity. Qed.

Lemma getitem_status (r : AttendanceRecord) :
  py_getitem (record_dict r) (lit "status") = Ok (PStr (status r)).
Proof. reflexivity. Qed.

Lemma comprehension_records (p : pyval -> result bool) (q : AttendanceRecord -> bool)
    (rs : list AttendanceRecord) :
  (forall r, p (record_dict r) = Ok (q r)) ->
  comprehension p (map record_dict rs) = Ok (map record_dict (filter q rs)).
Proof.
  intro H. induction rs as [|r rs IH]; [reflexivity|].
  cbn [map comprehension filter]. rewrite H, IH. cbn [rbind].
  now destruct (q r).
Qed.

Lemma check_duplicate_records (rec : AttendanceRecord) (rs : list AttendanceRecord) :
  check_duplicate rec (map record_dict rs) =
    if existsb (same_key rec) rs
    then Raise (DuplicateRecord (student_name rec) (date rec))
    else Ok tt.
Proof.
  induction rs as [|r rs IH]; [reflexivity|].
  cbn [map check_duplicate existsb]. rewrite name_is_record. cbn [rbind].
  unfold same_key at 1.
  destruct (str_eqb (lower (student_name r)) (lower (student_name rec)));
    cbn [andb orb rbind]; [|exact IH].
  rewrite getitem_date. cbn [rbind py_eq_str].
  destruct (str_eqb (date r) (date rec)); cbn [orb]; [reflexivity|exact IH].
Qed.

Lemma choose_records (s : str) (y m : Z) (rs : list AttendanceRecord) :
  choose s y m (map record_dict rs) =
    Ok (map record_dict
          (filter (fun r => str_eqb (lower (student_name r)) s && in_month y m r) rs)).
Proof.
  induction rs as [|r rs IH]; [reflexivity|].
  cbn [map choose filter]. rewrite name_is_record. cbn [rbind].
  destruct (str_eqb (lower (student_name r)) s); cbn [negb andb]; [|exact IH].
  rewrite getitem_date. cbn [rbind py_strptime]. unfold in_month.
  destruct (strptime_ymd (date r)) as [d|]; [|exact IH].
  rewrite IH. cbn [rbind].
  now destruct ((d_year d =? y)%Z && (d_month d =? m)%Z).
Qed.

Lemma count_present_records (rs : list AttendanceRecord) :
  count_present (map record_dict rs) = Ok (count_of (length (filter is_present rs))).
Proof.
  induction rs as [|r rs IH]; [reflexivity|].
  cbn [map count_present filter]. rewrite getitem_status, IH. cbn [rbind py_eq_str].
  change (str_eqb (status r) (lit "Present")) with (is_present r).
  destruct (is_present r); [|reflexivity].
  unfold count_of. cbn [length]. f_equal. lia.
Qed.

Lemma filter_andb {A} (f g : A -> bool) (l : list A) :
  filter f (filter g l) = filter (fun x => g x && f x) l.
Proof.
  induction l as [|x l IH]; [reflexivity|]. simpl.
  destruct (g x); simpl; [destruct (f x)|]; now rewrite IH.
Qed.

Lemma filtered_records (test : pyval -> result bool) (q : AttendanceRecord -> bool)
    (l : list AttendanceRecord) :
  (forall r, test (record_dict r) = Ok (q r)) ->
  filtered test (Ok (PList (map record_dict l)))
  = Ok (PList (map record_dict (filter q l))).
Proof.
  intro H. unfold filtered. cbn [rbind py_iter]. now rewrite (comprehension_records _ _ _ H).
Qed.

(** What [student_monthly_percentage] returns on a store of records. *)
Lemma monthly_on_records (p : str) (rs : list AttendanceRecord) (fs : filesystem)
    (q : str) (y m : Z) :
  student_monthly_percentage q y m (world_of p rs fs) =
    (Ok (monthly_report (strip q) y m rs), world_of p rs fs).
Proof.
  unfold student_monthly_percentage, monthly_report.
  cbn [world_of store_of self _data py_iter rbind].
  rewrite choose_records. cbn [rbind].
  change (fun r => str_eqb (lower (student_name r)) (lower (strip q)) && in_month y m r)
    with (selected (strip q) y m).
  set (chosen := filter (selected (strip q) y m) rs).
  rewrite count_present_records, length_map. cbn [rbind].
  fold (count_of (length chosen)).
  unfold percentage, py_truediv, count_of.
  destruct (length chosen) as [|n] eqn:E; [reflexivity|].
  replace (Z.of_nat (S n) =? 0)%Z with false by (symmetry; apply Z.eqb_neq; lia).
  replace (0 <? Z.of_nat (S n))%Z with true by (symmetry; apply Z.ltb_lt; lia).
  reflexivity.
Qed.

(** What [list_records] returns on a store of records. *)
Lemma list_on_records (p : str) (rs : list AttendanceRecord) (fs : filesystem)
    (n f t : option str) :
  list_records n f t (world_of p rs fs) =
    (Ok (PList (map record_dict
                  (filter (satisfies (option_map strip (supplied n))
                                     (supplied f) (supplied t)) rs))),
     world_of p rs fs).
Proof.
  unfold list_records. cbn [world_of store_of self _data]. f_equal.
  assert (Hn : forall q r, name_is (lower (strip q)) (record_dict r)
                           = Ok (name_matches (strip q) r)) by reflexivity.
  assert (Hf : forall lo r, date_ge lo (record_dict r) = Ok (str_leb lo (date r)))
    by reflexivity.
  assert (Ht : forall hi r, date_le hi (record_dict r) = Ok (str_leb (date r) hi))
    by reflexivity.
  unfold satisfies, supplied.
  destruct n as [qn|]; [destruct (truthy qn)|];
    destruct f as [lo|]; try destruct (truthy lo);
    destruct t as [hi|]; try destruct (truthy hi);
    cbn [option_map name_filter from_filter to_filter];
    repeat (erewrite filtered_records
              by (first [apply Hn | apply Hf | apply Ht]));
    repeat rewrite filter_andb;
    do 3 f_equal;
    first [ apply filter_ext; intro r; btauto
          | cbn [andb]; symmetry; apply filter_true ].
Qed.

End StoreFacts.

(* ================================================================= *)
(** * [add_record] *)

Section AddRecordFacts.
Context {U : UnicodeData} {F : FloatOps}.

(** The store object has no attribute [data]. *)
Lemma getattr_db_data (o : AttendanceDB) :
  getattr_db o "data" = Raise (AttributeError "data").
Proof. reflexivity. Qed.

(** Whatever the record and the world, [add_record] raises and leaves
    the world as it was. *)
Lemma add_record_raises (rec : AttendanceRecord) (w : world) :
  exists e, add_record rec w = (Raise e, w).
Proof.
  unfold add_record. destruct (validate rec) as [rec' [[]|e]]; [|eauto].
  destruct (rbind (py_iter (_data (self w))) (fun l => check_duplicate rec' l))
    as [[]|e]; [|eauto].
  rewrite getattr_db_data. cbn [rbind]. eauto.
Qed.

(** A record that passes validation and the uniqueness check is not
    stored: line 65 raises [AttributeError]. *)
Lemma add_record_accepted_raises (rec : AttendanceRecord) (p : str)
    (rs : list AttendanceRecord) (fs : filesystem) :
  snd (validate rec) = Ok tt ->
  existsb (same_key (clean rec)) rs = false ->
  add_record rec (world_of p rs fs) = (Raise (AttributeError "data"), world_of p rs fs).
Proof.
  intros Hv Hd. unfold add_record.
  destruct (validate rec) as [rec' v] eqn:E.
  assert (rec' = clean rec) by (now rewrite <- validate_fst, E). subst rec'.
  cbn [snd] in Hv. subst v.
  cbn [world_of store_of self _data py_iter rbind].
  now rewrite check_duplicate_records, Hd.
Qed.

(** The uniqueness check: when the store holds a record with the same
    lower-cased name and the same date, a valid candidate is refused
    with [DuplicateRecord], whatever its status and remarks. *)
Lemma add_record_duplicate (rec : AttendanceRecord) (p : str)
    (rs : list AttendanceRecord) (fs : filesystem) :
  snd (validate rec) = Ok tt ->
  existsb (same_key (clean rec)) rs = true ->
  add_record rec (world_of p rs fs)
  = (Raise (DuplicateRecord (student_name (clean rec)) (date (clean rec))),
     world_of p rs fs).
Proof.
  intros Hv Hd. unfold add_record.
  destruct (validate rec) as [rec' v] eqn:E.
  assert (rec' = clean rec) by (now rewrite <- validate_fst, E). subst rec'.
  cbn [snd] in Hv. subst v.
  cbn [world_of store_of self _data py_iter rbind].
  now rewrite check_duplicate_records, Hd.
Qed.

(** A record marked absent without remarks is refused with
    [MissingRemarks]. *)
Lemma add_record_absent_without_remarks (rec : AttendanceRecord) (w : world) :
  strptime_ymd (date (clean rec)) <> None ->
  status (clean rec) = lit "Absent" ->
  remarks (clean rec) = [] ->
  add_record rec w = (Raise MissingRemarks, w).
Proof.
  intros Hd Hs Hr. unfold add_record, validate.
  destruct (strptime_ymd (date (clean rec))); [|congruence].
  now rewrite Hs, Hr.
Qed.

End AddRecordFacts.

(** C4. Whenever [add_record] fails, with a validation error, the
    duplicate error or any other, the store object (its record sequence
    included) and the files on disk are what they were before the call. *)
Theorem add_record_failure_changes_nothing :
  forall (U : UnicodeData) (F : FloatOps) (rec : AttendanceRecord)
         (w w' : world) (e : exn),
    add_record rec w = (Raise e, w') ->
    self w' = self w /\ files w' = files w.
Proof.
  intros U F rec w w' e H.
  destruct (add_record_raises rec w) as [e' H'].
  rewrite H' in H. injection H as _ <-. split; reflexivity.
Qed.

Lemma add_record_failure_changes_nothing_witness :
  self (snd (add_record (U := ascii_ucd) (F := fixed_point) jane_raw sample_world))
  = self sample_world
  /\ files (snd (add_record (U := ascii_ucd) (F := fixed_point) jane_raw sample_world))
     = files sample_world.
Proof.
  exact (@add_record_failure_changes_nothing ascii_ucd fixed_point
           jane_raw sample_world _ MissingRemarks eq_refl).
Defined.

(** C1. The claim fails on the code: the candidate [john doe],
    [2025-08-24], [present] passes validation and the uniqueness check
    on the empty store, and [add_record] then raises [AttributeError]
    instead of appending; the store and the files stay as they were. *)
Theorem add_record_valid_record_not_stored :
  validate (U := ascii_ucd) john_raw = (john, Ok tt)
  /\ add_record (U := ascii_ucd) (F := fixed_point) john_raw empty_world
     = (Raise (AttributeError "data"), empty_world).
Proof. split; reflexivity. Qed.



(* ================================================================= *)
(** * Queries *)

(** C5, as amended. On a store of records, [student_monthly_percentage]
    returns the number of selected records, the number of those whose
    status is [Present], and the percentage
    [round(present / total * 100, 2)] when the total is positive and
    [0.0] otherwise; a record is selected when its lower-cased name
    equals the lower-cased given name with surrounding white space
    trimmed and its date parses into the given year and month.  The call
    never raises, and changes nothing. *)
Theorem monthly_percentage_report :
  forall (U : UnicodeData) (F : FloatOps) (p : str) (rs : list AttendanceRecord)
         (fs : filesystem) (q : str) (y m : Z),
    student_monthly_percentage q y m (world_of p rs fs)
    = (Ok (monthly_report (strip q) y m rs), world_of p rs fs)
    /\ monthly_report (strip q) y m [] = (0%Z, 0%Z, float_zero).
Proof.
  intros. split; [apply monthly_on_records|reflexivity].
Qed.

(** With no record selected the report is [(0, 0, 0.0)]. *)
Lemma monthly_report_none_selected {U : UnicodeData} {F : FloatOps}
    (q : str) (y m : Z) (rs : list AttendanceRecord) :
  filter (selected q y m) rs = [] ->
  monthly_report q y m rs = (0%Z, 0%Z, float_zero).
Proof. unfold monthly_report. now intros ->. Qed.

(** C5, as stated, fails: asked for [" john doe "], the code trims the
    name and selects John's record, while no stored name equals the
    padded name case-insensitively. *)
Lemma monthly_padded_name_selected :
  fst (student_monthly_percentage (U := ascii_ucd) (F := fixed_point)
         (lit " john doe ") 2025 8 sample_world)
  = Ok (1%Z, 1%Z, percentage (F := fixed_point) 1 1)
  /\ monthly_report (U := ascii_ucd) (F := fixed_point)
       (lit " john doe ") 2025 8 [john; jane]
     = (0%Z, 0%Z, float_zero (FloatOps := fixed_point))
  /\ fst (student_monthly_percentage (U := ascii_ucd) (F := fixed_point)
            (lit " john doe ") 2025 8 sample_world)
     <> Ok (monthly_report (U := ascii_ucd) (F := fixed_point)
              (lit " john doe ") 2025 8 [john; jane]).
Proof. repeat split; try reflexivity. discriminate. Qed.

(** C6, as amended. On a store of records, [list_records] returns, in
    the store's order, exactly the records that satisfy every filter
    given, a filter counting as given when it is neither absent nor the
    empty string: the lower-cased name equals the lower-cased filter
    with surrounding white space trimmed, the date is at least
    [date_from] and at most [date_to] as strings.  The world is
    unchanged. *)
Theorem list_records_filters :
  forall (U : UnicodeData) (p : str) (rs : list AttendanceRecord)
         (fs : filesystem) (n f t : option str),
    list_records n f t (world_of p rs fs)
    = (Ok (PList (map record_dict
                    (filter (satisfies (option_map strip (supplied n))
                                       (supplied f) (supplied t)) rs))),
       world_of p rs fs).
Proof. intros. apply list_on_records. Qed.

(** C6, as stated, fails: the filter [" john doe "] returns John's
    record although the padded name does not equal his name
    case-insensitively, and an empty [date_to] returns every record
    although no date is at most the empty string. *)
Lemma list_records_padded_name :
  fst (list_records (U := ascii_ucd) (Some (lit " john doe ")) None None sample_world)
  = Ok (PList [record_dict john])
  /\ filter (satisfies (U := ascii_ucd) (Some (lit " john doe ")) None None) [john; jane]
     = []
  /\ fst (list_records (U := ascii_ucd) None None (Some (lit "")) sample_world)
     = Ok (PList [record_dict john; record_dict jane])
  /\ filter (satisfies (U := ascii_ucd) None None (Some (lit ""))) [john; jane] = [].
Proof. repeat split; reflexivity. Qed.

Section ReportOnAnyStore.
Context {U : UnicodeData}.

(** When the loop of the report goes through, it has chosen the stored
    values that pass its tests, in the store's order. *)
Lemma choose_filter (s : str) (y m : Z) (l chosen : list pyval) :
  choose s y m l = Ok chosen -> chosen = filter (item_selected s y m) l.
Proof.
  revert chosen. induction l as [|r l IH]; intro chosen; cbn [choose filter].
  - now intros [= <-].
  - unfold item_selected.
    destruct (name_is s r) as [[|]|e]; cbn [rbind negb]; [| |discriminate].
    + destruct (rbind (py_getitem r (lit "date")) (fun v => py_strptime v)) as [d|e].
      * destruct (choose s y m l) as [c|e]; cbn [rbind]; [|discriminate].
        intros [= <-]. rewrite (IH c eq_refl).
        now destruct ((d_year d =? y)%Z && (d_month d =? m)%Z).
      * exact (IH chosen).
    + exact (IH chosen).
Qed.

(** The count of days present is the number of chosen values whose
    status is the string [Present]. *)
Lemma count_present_filter (chosen : list pyval) (n : Z) :
  count_present chosen = Ok n ->
  n = Z.of_nat (length (filter item_present chosen)).
Proof.
  revert n. induction chosen as [|r l IH]; intro n; cbn [count_present filter].
  - now intros [= <-].
  - unfold item_present.
    destruct (py_getitem r (lit "status")) as [v|e]; cbn [rbind]; [|discriminate].
    destruct (count_present l) as [k|e]; cbn [rbind]; [|discriminate].
    intro H. assert (E : n = if py_eq_str v (lit "Present") then (1 + k)%Z else k)
      by congruence.
    rewrite E, (IH k eq_refl).
    destruct (py_eq_str v (lit "Present")); cbn [length];
      fold item_present; lia.
Qed.

(** A value counts as present exactly when it is an object whose
    [status] is the string [Present], character by character. *)
Lemma item_present_iff (r : pyval) :
  item_present r = true
  <-> exists d, r = PDict d /\ dict_get d (lit "status") = Some (PStr (lit "Present")).
Proof.
  unfold item_present, py_getitem. split.
  - destruct r as [| | | | |d]; try discriminate.
    destruct (dict_get d (lit "status")) as [v|] eqn:E; [|discriminate].
    destruct v as [| | |t| |]; cbn [py_eq_str]; try discriminate.
    intro H. apply str_eqb_eq in H. subst t. now exists d.
  - intros (d & -> & E). rewrite E. reflexivity.
Qed.

End ReportOnAnyStore.

(** C10. Whatever the store holds, when [student_monthly_percentage]
    returns, the days marked are the stored values the query selects
    and the days present are those among them whose status is the
    string [Present], compared character by character, wherever they
    stand in the store: a selected value with any other status,
    [present] or [null] included, counts toward the days marked and not
    toward the days present. *)
Theorem monthly_counts_exact_present :
  forall (U : UnicodeData) (F : FloatOps) (w : world) (q : str)
         (y m total present : Z) (pct : float),
    fst (student_monthly_percentage q y m w) = Ok (total, present, pct) ->
    exists items,
      py_iter (_data (self w)) = Ok items
      /\ total
         = Z.of_nat (length (filter (item_selected (lower (strip q)) y m) items))
      /\ present
         = Z.of_nat (length (filter item_present
                               (filter (item_selected (lower (strip q)) y m) items)))
      /\ forall r, item_present r = true
                   <-> exists d, r = PDict d
                         /\ dict_get d (lit "status") = Some (PStr (lit "Present")).
Proof.
  intros U F w q y m total present pct H.
  unfold student_monthly_percentage in H. cbn [fst] in H.
  destruct (py_iter (_data (self w))) as [items|e]; [|discriminate H].
  exists items. split; [reflexivity|]. cbn [rbind] in H.
  destruct (choose (lower (strip q)) y m items) as [chosen|e] eqn:Ec;
    [|discriminate H].
  apply choose_filter in Ec. cbn [rbind] in H.
  destruct (count_present chosen) as [n|e] eqn:En; [|discriminate H].
  apply count_present_filter in En. cbn [rbind] in H.
  assert (Ht : total = Z.of_nat (length chosen) /\ present = n).
  { destruct (negb (Z.of_nat (length chosen) =? 0)%Z);
      [destruct (py_truediv n (Z.of_nat (length chosen))); [|discriminate H]|];
      cbn [rbind] in H; injection H as <- <- _; now split. }
  destruct Ht as [-> ->]. subst chosen n.
  repeat split; try reflexivity; apply item_present_iff.
Qed.

Lemma monthly_counts_exact_present_witness :
  exists items,
    py_iter (_data (self edited_world)) = Ok items
    /\ 2%Z = Z.of_nat (length (filter (item_selected (U := ascii_ucd)
                                        (lower (U := ascii_ucd)
                                           (strip (U := ascii_ucd) (lit "john doe")))
                                        2025 8) items))
    /\ 1%Z = Z.of_nat (length (filter item_present
                                 (filter (item_selected (U := ascii_ucd)
                                            (lower (U := ascii_ucd)
                                               (strip (U := ascii_ucd) (lit "john doe")))
                                            2025 8) items)))
    /\ forall r, item_present r = true
                 <-> exists d, r = PDict d
                       /\ dict_get d (lit "status") = Some (PStr (lit "Present")).
Proof.
  exact (@monthly_counts_exact_present ascii_ucd fixed_point edited_world
           (lit "john doe") 2025%Z 8%Z 2%Z 1%Z (percentage (F := fixed_point) 2 1)
           eq_refl).
Defined.

(* ================================================================= *)
(** * UTF-8 *)

Lemma utf8_decode_encode_char (c : char) (bs rest : bytes) :
  utf8_encode_char c = Some bs ->
  utf8_decode (bs ++ rest) = option_map (cons c) (utf8_decode rest).
Proof.
  unfold utf8_encode_char, is_surrogate, in_range.
  replace (c / 4096) with (c / 64 / 64) by (now rewrite N.Div0.div_div).
  replace (c / 262144) with (c / 64 / 64 / 64) by (now rewrite !N.Div0.div_div).
  set (a := c / 64). set (b := a / 64). set (d := b / 64).
  assert (Ec : c = 64 * a + c mod 64) by (apply N.div_mod'; lia).
  assert (Lc : c mod 64 < 64) by (apply N.mod_lt; lia).
  assert (Ea : a = 64 * b + a mod 64) by (apply N.div_mod'; lia).
  assert (La : a mod 64 < 64) by (apply N.mod_lt; lia).
  assert (Eb : b = 64 * d + b mod 64) by (apply N.div_mod'; lia).
  assert (Lb : b mod 64 < 64) by (apply N.mod_lt; lia).
  set (m0 := c mod 64) in *. set (m1 := a mod 64) in *. set (m2 := b mod 64) in *.
  clearbody m0 m1 m2 a b d.
  destruct (N.ltb_spec c 128).
  { take_some. cbn [app utf8_decode]. now settle_tests. }
  destruct (N.ltb_spec c 2048).
  { take_some. cbn [app utf8_decode]. unfold in_range, is_cont, in_range.
    settle_tests. do 2 f_equal. lia. }
  destruct (N.ltb_spec c 65536).
  { destruct (N.leb_spec 55296 c), (N.leb_spec c 57343); cbn [andb];
      try discriminate; take_some; cbn [app utf8_decode];
      unfold in_range, is_cont, is_surrogate, in_range;
      settle_tests; do 2 f_equal; lia. }
  destruct (N.ltb_spec c 1114112); [|discriminate].
  take_some. cbn [app utf8_decode].
  unfold in_range, is_cont, in_range. settle_tests. do 2 f_equal. lia.
Qed.

Lemma utf8_encode_char_scalar (c : char) :
  scalar c = true -> exists bs, utf8_encode_char c = Some bs.
Proof.
  unfold scalar, utf8_encode_char. rewrite andb_true_iff, negb_true_iff.
  intros [H1 H2]. rewrite H1, H2.
  destruct (c <? 128), (c <? 2048), (c <? 65536); eauto.
Qed.

Lemma utf8_encode_app (a b : str) :
  utf8_encode (a ++ b) =
    match utf8_encode a, utf8_encode b with
    | Some x, Some y => Some (x ++ y)
    | _, _ => None
    end.
Proof.
  induction a as [|c a IH]; simpl.
  - now destruct (utf8_encode b).
  - rewrite IH. destruct (utf8_encode_char c), (utf8_encode a), (utf8_encode b);
      try reflexivity. now rewrite app_assoc.
Qed.

Lemma utf8_encode_encodable (s : str) :
  encodable s = true -> exists b, utf8_encode s = Some b.
Proof.
  induction s as [|c s IH]; simpl; [eauto|].
  rewrite andb_true_iff. intros [Hc Hs].
  destruct (utf8_encode_char_scalar c Hc) as [bs ->].
  destruct (IH Hs) as [b ->]. eauto.
Qed.

(** Decoding what was encoded gives the text back. *)
Lemma utf8_decode_encode (s : str) (b : bytes) :
  utf8_encode s = Some b -> utf8_decode b = Some s.
Proof.
  revert b; induction s as [|c s IH]; simpl; intro b.
  - now intros [= <-].
  - destruct (utf8_encode_char c) as [bs|] eqn:E; [|discriminate].
    destruct (utf8_encode s) as [b'|]; [|discriminate].
    intros [= <-]. rewrite (utf8_decode_encode_char _ _ E), (IH b' eq_refl).
    reflexivity.
Qed.

(** Chunks that can all be encoded are all written. *)
Lemma write_chunks_encoded
    (chunks : list str) (written b : bytes) :
  utf8_encode (concat chunks) = Some b ->
  write_chunks chunks written = (Ok tt, written ++ b).
Proof.
  revert written b; induction chunks as [|c chunks IH]; intros written b; simpl.
  - intros [= <-]. now rewrite app_nil_r.
  - rewrite utf8_encode_app.
    destruct (utf8_encode c) as [x|]; [|discriminate].
    destruct (utf8_encode (concat chunks)) as [y|] eqn:E; [|discriminate].
    intros [= <-]. rewrite (IH _ _ eq_refl). now rewrite app_assoc.
Qed.

(* ================================================================= *)
(** * The JSON scanner: what is left is never longer *)

Lemma skip_ws_length (s : str) : (length (skip_ws s) <= length s)%nat.
Proof. apply dropwhile_length. Qed.

Lemma scan_cons_inv (c : char) (o : option (str * str)) (x r : str) :
  scan_cons c o = Some (x, r) ->
  exists x', o = Some (x', r) /\ x = c :: x'.
Proof.
  destruct o as [[x' r']|]; simpl; [|discriminate].
  intros [= <- <-]. eauto.
Qed.

Lemma scanstring_length_aux (n : nat) :
  forall s x r, (length s <= n)%nat -> scanstring s = Some (x, r) ->
                (length r < length s)%nat.
Proof.
  induction n as [|n IH]; intros s x r Hn.
  { destruct s; [discriminate|simpl in Hn; lia]. }
  assert (K : forall c t, (length t <= n)%nat ->
              scan_cons c (scanstring t) = Some (x, r) -> (length r < length t)%nat).
  { intros c t Ht H. apply scan_cons_inv in H as (x' & H & _). eapply IH; eauto. }
  destruct s as [|c rest]; [discriminate|]. cbn [scanstring length] in *.
  destruct (c =? 34). { intros [= <- <-]. lia. }
  destruct (c =? 92).
  - destruct rest as [|e rest1]; [discriminate|]. cbn [length] in *.
    destruct (e =? 117).
    + destruct rest1 as [|h1 [|h2 [|h3 [|h4 rest2]]]]; try discriminate.
      cbn [length] in *.
      destruct (hex4 h1 h2 h3 h4) as [u|]; [|discriminate].
      destruct (is_high_surrogate u).
      * destruct rest2 as [|b [|v [|l1 [|l2 [|l3 [|l4 rest3]]]]]];
          try (intro H; apply K in H; cbn [length] in *; lia).
        cbn [length] in *.
        destruct ((b =? 92) && (v =? 117));
          [|intro H; apply K in H; cbn [length] in *; lia].
        destruct (hex4 l1 l2 l3 l4) as [u2|]; [|discriminate].
        destruct (is_low_surrogate u2);
          intro H; apply K in H; cbn [length] in *; lia.
      * intro H; apply K in H; lia.
    + destruct (unescape e); [|discriminate].
      intro H; apply K in H; lia.
  - destruct (c <=? 31); [discriminate|].
    intro H; apply K in H; lia.
Qed.

Lemma scanstring_length (s x r : str) :
  scanstring s = Some (x, r) -> (length r < length s)%nat.
Proof. apply (@scanstring_length_aux (length s) s x r). lia. Qed.

Lemma strip_prefix_length (p s r : str) :
  strip_prefix p s = Some r -> (length r <= length s)%nat.
Proof.
  revert s; induction p as [|x p IH]; intros [|y s]; simpl; try discriminate.
  - now intros [= <-].
  - now intros [= <-].
  - destruct (x =? y); [|discriminate]. intro H. apply IH in H. lia.
Qed.

Lemma scan_constant_length (s : str) (v : pyval) (r : str) :
  scan_constant s = Some (v, r) -> (length r <= length s)%nat.
Proof.
  unfold scan_constant.
  repeat match goal with
    | |- context [strip_prefix ?p s] =>
        let E := fresh in
        destruct (strip_prefix p s) eqn:E;
        [apply strip_prefix_length in E; now intros [= _ <-]|]
    end.
  discriminate.
Qed.

Lemma span_digits_length (s : str) :
  (length (snd (span_digits s)) <= length s)%nat.
Proof.
  induction s as [|c s IH]; simpl; [lia|].
  destruct (is_digit c); simpl; [|lia].
  destruct (span_digits s); simpl in *. lia.
Qed.

Lemma number_sign_length (s : str) :
  (length (snd (number_sign s)) <= length s)%nat.
Proof.
  destruct s as [|c r]; simpl; [lia|]. destruct (c =? 45); simpl; lia.
Qed.

Lemma number_int_length (s i r : str) :
  number_int s = Some (i, r) -> (length r <= length s)%nat.
Proof.
  destruct s as [|c t]; simpl; [discriminate|].
  pose proof (span_digits_length t) as S1.
  destruct (in_range 49 57 c).
  - destruct (span_digits t). cbn [snd] in S1. intros [= _ <-]. lia.
  - destruct (c =? 48); [|discriminate]. intros [= _ <-]. lia.
Qed.

Lemma number_frac_length (s : str) :
  (length (snd (number_frac s)) <= length s)%nat.
Proof.
  destruct s as [|p [|d r]]; simpl; try lia.
  destruct ((p =? 46) && is_digit d); simpl; [|lia].
  pose proof (span_digits_length r). destruct (span_digits r). simpl in *. lia.
Qed.

Lemma number_exp_length (s : str) :
  (length (snd (number_exp s)) <= length s)%nat.
Proof.
  destruct s as [|e r]; [simpl; lia|]. unfold number_exp.
  destruct ((e =? 101) || (e =? 69)); [|simpl; lia].
  set (sg := match r with
             | g :: t => if (g =? 45) || (g =? 43) then ([g], t) else ([], r)
             | [] => ([], r)
             end).
  assert (Ls : (length (snd sg) <= length r)%nat).
  { subst sg. destruct r as [|g t]; [simpl; lia|].
    destruct ((g =? 45) || (g =? 43)); simpl; lia. }
  destruct sg as [sg r']. cbn [snd] in Ls.
  pose proof (span_digits_length r').
  destruct (span_digits r') as [[|dd ds] r3]; cbn [snd length] in *; lia.
Qed.

Lemma match_number_length (s n r : str) :
  match_number s = Some (n, r) -> (length r <= length s)%nat.
Proof.
  unfold match_number.
  pose proof (number_sign_length s) as L0.
  destruct (number_sign s) as [sign s0]. cbn [snd] in L0.
  destruct (number_int s0) as [[ip r1]|] eqn:E; [|discriminate].
  apply number_int_length in E.
  pose proof (number_frac_length r1) as L2.
  destruct (number_frac r1) as [frac r2]. cbn [snd] in L2.
  pose proof (number_exp_length r2) as L3.
  destruct (number_exp r2) as [ex r3]. cbn [snd] in L3.
  intros [= _ <-]. lia.
Qed.

(* ================================================================= *)
(** * The JSON scanner: the fuel *)

Section ScannerFacts.
Context {I : Interpreter}.

Lemma syntax_error_fed {A} (depth : nat) (s : str) :
  @syntax_error A depth <> Starved
  /\ forall v r, @syntax_error A depth = Scanned v r -> (length r <= length s)%nat.
Proof.
  unfold syntax_error. destruct (depth <? error_levels)%nat; split; discriminate.
Qed.

Lemma scan_step_fed (depth : nat) items pairs (n : nat) :
  fed_loop items n -> fed_loop pairs n ->
  fed_once (scan_step depth items pairs) (S n).
Proof.
  intros Hi Hp s Hs. unfold scan_step.
  destruct s as [|c rest]; [split; [discriminate|discriminate]|].
  cbn [length] in Hs. pose proof (skip_ws_length rest) as Lw.
  destruct (c =? 34).
  { destruct (scanstring rest) as [[x r]|] eqn:E; [|apply syntax_error_fed].
    split; try discriminate.
    intros v r' [= _ <-]. apply scanstring_length in E. cbn [length]. lia. }
  destruct (c =? 123).
  { destruct depth as [|depth]; [split; discriminate|].
    destruct (skip_ws rest) as [|d r].
    - destruct (Hp [] []) as [A B]; [cbn [length]; lia|]. split; [exact A|].
      intros v r' H. apply B in H. cbn [length] in *. lia.
    - destruct (d =? 125).
      + split; [discriminate|]. intros v r' [= _ <-]. cbn [length] in *. lia.
      + destruct (Hp (d :: r) []) as [A B]; [lia|]. split; [exact A|].
        intros v r' H. apply B in H. cbn [length] in *. lia. }
  destruct (c =? 91).
  { destruct depth as [|depth]; [split; discriminate|].
    destruct (skip_ws rest) as [|d r].
    - destruct (Hi [] []) as [A B]; [cbn [length]; lia|]. split; [exact A|].
      intros v r' H. apply B in H. cbn [length] in *. lia.
    - destruct (d =? 93).
      + split; [discriminate|]. intros v r' [= _ <-]. cbn [length] in *. lia.
      + destruct (Hi (d :: r) []) as [A B]; [lia|]. split; [exact A|].
        intros v r' H. apply B in H. cbn [length] in *. lia. }
  destruct (scan_constant (c :: rest)) as [[v r]|] eqn:E.
  { split; [discriminate|]. intros v' r' [= _ <-].
    now apply scan_constant_length in E. }
  destruct (match_number (c :: rest)) as [[m r]|] eqn:E'.
  { destruct (int_conversion_error m); [split; discriminate|].
    split; [discriminate|]. intros v' r' [= _ <-].
    now apply match_number_length in E'. }
  split; discriminate.
Qed.

Lemma items_step_fed (depth : nat) once items (n : nat) :
  fed_once once n -> fed_loop items n ->
  fed_loop (items_step depth once items) (S n).
Proof.
  intros Ho Hi s acc Hs. unfold items_step.
  destruct (Ho s) as [A B]; [lia|].
  destruct (once s) as [v r| |e|];
    [|split; discriminate|split; discriminate|contradiction].
  specialize (B _ _ eq_refl). pose proof (skip_ws_length r) as Lw.
  destruct (skip_ws r) as [|d r1]; [apply syntax_error_fed|]. cbn [length] in Lw.
  destruct (d =? 93).
  { split; [discriminate|]. intros v' r' [= _ <-]. lia. }
  destruct (d =? 44); [|apply syntax_error_fed].
  pose proof (skip_ws_length r1) as Lw1.
  destruct (Hi (skip_ws r1) (acc ++ [v])) as [A' B']; [lia|].
  split; [exact A'|]. intros v' r' H. apply B' in H. lia.
Qed.

Lemma pairs_step_fed (depth : nat) once pairs (n : nat) :
  fed_once once n -> fed_loop pairs n ->
  fed_loop (pairs_step depth once pairs) (S n).
Proof.
  intros Ho Hp s acc Hs. unfold pairs_step.
  destruct s as [|q s1]; [apply syntax_error_fed|]. cbn [length] in Hs.
  destruct (q =? 34); [|apply syntax_error_fed].
  destruct (scanstring s1) as [[key r]|] eqn:E; [|apply syntax_error_fed].
  apply scanstring_length in E. pose proof (skip_ws_length r) as Lw.
  destruct (skip_ws r) as [|d r1]; [apply syntax_error_fed|]. cbn [length] in Lw.
  destruct (d =? 58); [|apply syntax_error_fed].
  pose proof (skip_ws_length r1) as Lw1.
  destruct (Ho (skip_ws r1)) as [A B]; [lia|].
  destruct (once (skip_ws r1)) as [v r2| |e|];
    [|split; discriminate|split; discriminate|contradiction].
  specialize (B _ _ eq_refl). pose proof (skip_ws_length r2) as Lw2.
  destruct (skip_ws r2) as [|d2 r3]; [apply syntax_error_fed|]. cbn [length] in Lw2.
  destruct (d2 =? 125).
  { split; [discriminate|]. intros v' r' [= _ <-]. cbn [length]. lia. }
  destruct (d2 =? 44); [|apply syntax_error_fed].
  pose proof (skip_ws_length r3) as Lw3.
  destruct (Hp (skip_ws r3) (dict_set acc key v)) as [A' B']; [lia|].
  split; [exact A'|]. intros v' r' H. apply B' in H. cbn [length]. lia.
Qed.

Lemma scanner_fed (n : nat) :
  (forall depth, fed_once (scan_once n depth) n)
  /\ (forall depth, fed_loop (parse_items n depth) n)
  /\ (forall depth, fed_loop (parse_pairs n depth) n).
Proof.
  induction n as [|n (IH1 & IH2 & IH3)].
  - repeat split; intros; lia.
  - split; [|split]; intro depth.
    + apply (scan_step_fed depth (IH2 _) (IH3 _)).
    + apply (items_step_fed depth (IH1 _) (IH2 _)).
    + apply (pairs_step_fed depth (IH1 _) (IH3 _)).
Qed.

(** With two units of fuel for every character, [scan_once] never
    starves. *)
Lemma scan_once_fed (n depth : nat) (s : str) :
  (2 * length s < n)%nat -> scan_once n depth s <> Starved.
Proof. intro H. now apply (proj1 (scanner_fed n)). Qed.

Lemma scan_step_extends (depth : nat) items items' pairs pairs' :
  extends_loop items items' -> extends_loop pairs pairs' ->
  extends_once (scan_step depth items pairs) (scan_step depth items' pairs').
Proof.
  intros Hi Hp s. unfold scan_step.
  destruct s as [|c rest]; [reflexivity|].
  destruct (c =? 34); [reflexivity|].
  destruct (c =? 123).
  { destruct depth as [|depth]; [reflexivity|].
    destruct (skip_ws rest) as [|d r]; [apply Hp|].
    destruct (d =? 125); [reflexivity|apply Hp]. }
  destruct (c =? 91); [|reflexivity].
  destruct depth as [|depth]; [reflexivity|].
  destruct (skip_ws rest) as [|d r]; [apply Hi|].
  destruct (d =? 93); [reflexivity|apply Hi].
Qed.

Lemma items_step_extends (depth : nat) once once' items items' :
  extends_once once once' -> extends_loop items items' ->
  extends_loop (items_step depth once items) (items_step depth once' items').
Proof.
  intros Ho Hi s acc. unfold items_step. specialize (Ho s).
  destruct (once s) as [v r| |e|]; [rewrite Ho by discriminate| | |].
  - destruct (skip_ws r) as [|d r1]; [reflexivity|].
    destruct (d =? 93); [reflexivity|].
    destruct (d =? 44); [apply Hi|reflexivity].
  - now rewrite Ho.
  - now rewrite Ho.
  - congruence.
Qed.

Lemma pairs_step_extends (depth : nat) once once' pairs pairs' :
  extends_once once once' -> extends_loop pairs pairs' ->
  extends_loop (pairs_step depth once pairs) (pairs_step depth once' pairs').
Proof.
  intros Ho Hp s acc. unfold pairs_step.
  destruct s as [|q s1]; [reflexivity|].
  destruct (q =? 34); [|reflexivity].
  destruct (scanstring s1) as [[key r]|]; [|reflexivity].
  destruct (skip_ws r) as [|d r1]; [reflexivity|].
  destruct (d =? 58); [|reflexivity].
  specialize (Ho (skip_ws r1)).
  destruct (once (skip_ws r1)) as [v r2| |e|]; [rewrite Ho by discriminate| | |].
  - destruct (skip_ws r2) as [|d2 r3]; [reflexivity|].
    destruct (d2 =? 125); [reflexivity|].
    destruct (d2 =? 44); [apply Hp|reflexivity].
  - now rewrite Ho.
  - now rewrite Ho.
  - congruence.
Qed.

Lemma scanner_extends (n : nat) :
  (forall depth, extends_once (scan_once n depth) (scan_once (S n) depth))
  /\ (forall depth, extends_loop (parse_items n depth) (parse_items (S n) depth))
  /\ (forall depth, extends_loop (parse_pairs n depth) (parse_pairs (S n) depth)).
Proof.
  induction n as [|n (IH1 & IH2 & IH3)].
  - split; [|split]; intros depth s; simpl; congruence.
  - split; [|split]; intro depth.
    + apply (scan_step_extends depth (IH2 _) (IH3 _)).
    + apply (items_step_extends depth (IH1 _) (IH2 _)).
    + apply (pairs_step_extends depth (IH1 _) (IH3 _)).
Qed.

(** More fuel does not change what [scan_once] finds. *)
Lemma scan_once_more (n m depth : nat) (s : str) :
  (n <= m)%nat -> scan_once n depth s <> Starved ->
  scan_once m depth s = scan_once n depth s.
Proof.
  induction 1 as [|m _ IH]; [reflexivity|]. intro H.
  rewrite <- (IH H). apply (proj1 (scanner_extends m)). now rewrite (IH H).
Qed.

Lemma syntax_error_failed {A} (depth : nat) (e : exn) :
  @syntax_error A depth = Failed e -> beyond_limits e.
Proof.
  unfold syntax_error.
  destruct (depth <? error_levels)%nat; [intros [= <-]; now left|discriminate].
Qed.

(** What [scan_once] raises besides syntax errors: [RecursionError],
    or the [ValueError] of an integer with too many digits. *)
Lemma scan_step_failed (depth : nat) items pairs (s : str) (e : exn) :
  (forall t acc, items t acc = Failed e -> beyond_limits e) ->
  (forall t acc, pairs t acc = Failed e -> beyond_limits e) ->
  scan_step depth items pairs s = Failed e -> beyond_limits e.
Proof.
  intros Hi Hp. unfold scan_step.
  destruct s as [|c rest]; [discriminate|].
  destruct (c =? 34).
  { destruct (scanstring rest) as [[x r]|]; [discriminate|].
    apply syntax_error_failed. }
  destruct (c =? 123).
  { destruct depth; [intros [= <-]; now left|].
    destruct (skip_ws rest) as [|d r]; [apply Hp|].
    destruct (d =? 125); [discriminate|apply Hp]. }
  destruct (c =? 91).
  { destruct depth; [intros [= <-]; now left|].
    destruct (skip_ws rest) as [|d r]; [apply Hi|].
    destruct (d =? 93); [discriminate|apply Hi]. }
  destruct (scan_constant (c :: rest)) as [[v r]|]; [discriminate|].
  destruct (match_number (c :: rest)) as [[m r]|]; [|discriminate].
  unfold int_conversion_error.
  destruct (negb (is_float_text m) && (0 <? int_max_str_digits)
            && (int_max_str_digits <? count_digits m)) eqn:E; [|discriminate].
  intros [= <-]. right. exists (count_digits m). split; [reflexivity|].
  apply andb_true_iff in E. destruct E as [E1 E2].
  apply andb_true_iff in E1. destruct E1 as [_ E1].
  apply N.ltb_lt in E1, E2. lia.
Qed.

Lemma scanner_failed (n : nat) (e : exn) :
  (forall depth s, scan_once n depth s = Failed e -> beyond_limits e)
  /\ (forall depth s acc, parse_items n depth s acc = Failed e -> beyond_limits e)
  /\ (forall depth s acc, parse_pairs n depth s acc = Failed e -> beyond_limits e).
Proof.
  induction n as [|n (IH1 & IH2 & IH3)]; [repeat split; discriminate|].
  split; [|split].
  - intros depth s. cbn [scan_once].
    apply scan_step_failed; intros t acc; [apply IH2|apply IH3].
  - intros depth s acc. cbn [parse_items]. unfold items_step.
    destruct (scan_once n depth s) as [v r| |e'|] eqn:E; try discriminate.
    + destruct (skip_ws r) as [|d r1]; [apply syntax_error_failed|].
      destruct (d =? 93); [discriminate|].
      destruct (d =? 44); [apply IH2|apply syntax_error_failed].
    + intros [= <-]. exact (IH1 _ _ E).
  - intros depth s acc. cbn [parse_pairs]. unfold pairs_step.
    destruct s as [|q s1]; [apply syntax_error_failed|].
    destruct (q =? 34); [|apply syntax_error_failed].
    destruct (scanstring s1) as [[key r]|]; [|apply syntax_error_failed].
    destruct (skip_ws r) as [|d r1]; [apply syntax_error_failed|].
    destruct (d =? 58); [|apply syntax_error_failed].
    destruct (scan_once n depth (skip_ws r1)) as [v r2| |e'|] eqn:E; try discriminate.
    + destruct (skip_ws r2) as [|d2 r3]; [apply syntax_error_failed|].
      destruct (d2 =? 125); [discriminate|].
      destruct (d2 =? 44); [apply IH3|apply syntax_error_failed].
    + intros [= <-]. exact (IH1 _ _ E).
Qed.

(** [json.loads] raises [JSONDecodeError], or one of the two errors of
    the interpreter's limits. *)
Lemma json_loads_raises (s : str) (e : exn) :
  json_loads s = Raise e -> e = JSONDecodeError \/ beyond_limits e.
Proof.
  unfold json_loads. destruct (starts_with_bom s); [intros [= <-]; now left|].
  pose proof (@scan_once_fed (2 * length s + 1) nesting_allowed (skip_ws s)) as Hfed.
  pose proof (skip_ws_length s).
  destruct (scan_once (2 * length s + 1) nesting_allowed (skip_ws s))
    as [v r| |e'|] eqn:E.
  - destruct (skip_ws r); [discriminate|intros [= <-]; now left].
  - intros [= <-]. now left.
  - intros [= <-]. right. exact (proj1 (scanner_failed _ _) _ _ E).
  - exfalso. apply Hfed; [lia|reflexivity].
Qed.

(* ================================================================= *)
(** * The JSON scanner reads back what the encoder writes *)

Lemma hexval_hex_digit (n : N) : n < 16 -> hexval (hex_digit n) = Some n.
Proof.
  intro H. unfold hexval, hex_digit, in_range.
  destruct (N.ltb_spec n 10); settle_tests; f_equal; lia.
Qed.

Lemma scanstring_escape_char (c : char) (rest : str) :
  scanstring (escape_char c ++ rest) = scan_cons c (scanstring rest).
Proof.
  unfold escape_char.
  destruct (N.eqb_spec c 92) as [->|H92]; [reflexivity|].
  destruct (N.eqb_spec c 34) as [->|H34]; [reflexivity|].
  destruct (N.eqb_spec c 8) as [->|H8]; [reflexivity|].
  destruct (N.eqb_spec c 12) as [->|H12]; [reflexivity|].
  destruct (N.eqb_spec c 10) as [->|H10]; [reflexivity|].
  destruct (N.eqb_spec c 13) as [->|H13]; [reflexivity|].
  destruct (N.eqb_spec c 9) as [->|H9]; [reflexivity|].
  destruct (N.ltb_spec c 32) as [Hlt|Hge].
  - assert (Hq : c / 16 < 16).
    { apply N.Div0.div_lt_upper_bound. lia. }
    assert (Hm : c mod 16 < 16) by (apply N.mod_lt; lia).
    assert (Ec : c = 16 * (c / 16) + c mod 16) by (apply N.div_mod'; lia).
    cbn [app]. unfold scanstring at 1; fold scanstring.
    change (92 =? 34) with false. change (92 =? 92) with true.
    change (117 =? 117) with true. cbv iota.
    unfold hex4. change (hexval 48) with (Some 0).
    rewrite !hexval_hex_digit by assumption.
    set (q := c / 16) in *. set (m := c mod 16) in *. clearbody q m.
    replace (((0 * 16 + 0) * 16 + q) * 16 + m) with c by lia.
    unfold is_high_surrogate, in_range.
    replace (55296 <=? c) with false by (symmetry; apply N.leb_gt; lia).
    reflexivity.
  - cbn [app]. unfold scanstring at 1; fold scanstring.
    replace (c =? 34) with false by (symmetry; now apply N.eqb_neq).
    replace (c =? 92) with false by (symmetry; now apply N.eqb_neq).
    replace (c <=? 31) with false by (symmetry; apply N.leb_gt; lia).
    reflexivity.
Qed.

(** An escaped string with its closing quote is scanned back to the
    string. *)
Lemma scanstring_escape (s rest : str) :
  scanstring (flat_map escape_char s ++ 34 :: rest) = Some (s, rest).
Proof.
  induction s as [|c s IH]; [reflexivity|].
  cbn [flat_map]. rewrite <- app_assoc, scanstring_escape_char, IH. reflexivity.
Qed.

Lemma scan_once_quoted (f depth : nat) (value rest : str) :
  scan_once (S f) depth (quoted value rest) = Scanned (PStr value) rest.
Proof.
  unfold quoted. cbn [scan_once scan_step]. change (34 =? 34) with true.
  cbv iota. now rewrite scanstring_escape.
Qed.

(** One round of the object loop on a field of a record. *)
Lemma parse_pairs_field (f depth : nat) (key : str) (value tail : str)
    (seen : list (str * pyval)) :
  parse_pairs (S (S f)) depth (quoted key (58 :: 32 :: quoted value tail)) seen =
    match skip_ws tail with
    | [] => syntax_error depth
    | d :: r =>
        if d =? 125 then Scanned (PDict (dict_set seen key (PStr value))) r
        else if d =? 44
        then parse_pairs (S f) depth (skip_ws r) (dict_set seen key (PStr value))
        else syntax_error depth
    end.
Proof.
  cbn [parse_pairs]. unfold pairs_step at 1. unfold quoted at 1.
  change (34 =? 34) with true. cbv iota.
  rewrite scanstring_escape.
  change (skip_ws (58 :: 32 :: quoted value tail))
    with (58 :: 32 :: quoted value tail).
  change (58 =? 58) with true. cbv iota.
  change (skip_ws (32 :: quoted value tail)) with (quoted value tail).
  now rewrite scan_once_quoted.
Qed.

Lemma parse_pairs_field_comma (f depth : nat) (key value : str) (k2 : string)
    (v2 rest : str) (seen : list (str * pyval)) :
  parse_pairs (S (S f)) depth
    (quoted key (58 :: 32 :: quoted value (44 :: field_text k2 v2 rest))) seen
  = parse_pairs (S f) depth (quoted (lit k2) (58 :: 32 :: quoted v2 rest))
      (dict_set seen key (PStr value)).
Proof. now rewrite parse_pairs_field. Qed.

Lemma parse_pairs_field_last (f depth : nat) (key value rest : str)
    (seen : list (str * pyval)) :
  parse_pairs (S (S f)) depth
    (quoted key (58 :: 32 :: quoted value (10 :: 32 :: 32 :: 125 :: rest))) seen
  = Scanned (PDict (dict_set seen key (PStr value))) rest.
Proof. now rewrite parse_pairs_field. Qed.

Lemma scan_step_object_start (depth : nat) items pairs (k v : str) :
  scan_step (S depth) items pairs (123 :: 10 :: 32 :: 32 :: 32 :: 32 :: quoted k v)
  = pairs (quoted k v) [].
Proof. reflexivity. Qed.

(** The text of a record is scanned back to its dict. *)
Lemma scan_once_record (f depth : nat) (r : AttendanceRecord) (rest : str) :
  scan_once (7 + f) (S depth) (record_text r rest) = Scanned (record_dict r) rest.
Proof.
  change (7 + f)%nat with (S (S (S (S (S (S (S f))))))).
  unfold record_text. cbn [scan_once]. unfold field_text at 1.
  rewrite scan_step_object_start.
  rewrite !parse_pairs_field_comma, parse_pairs_field_last.
  reflexivity.
Qed.

Lemma parse_items_records (rs : list AttendanceRecord) :
  forall (f depth : nat) (r : AttendanceRecord) (acc : list pyval) (rest : str),
    parse_items (S (length rs + (7 + f))) (S depth)
      (record_text r (more_records_text rs rest)) acc
    = Scanned (PList (acc ++ record_dict r :: map record_dict rs)) rest.
Proof.
  induction rs as [|r' rs IH]; intros f depth r acc rest.
  - cbn [length Nat.add parse_items]. unfold items_step.
    rewrite (scan_once_record f). reflexivity.
  - cbn [parse_items]. unfold items_step.
    replace (length (r' :: rs) + (7 + f))%nat with (7 + (length (r' :: rs) + f))%nat
      by lia.
    rewrite scan_once_record. cbn [more_records_text].
    change (skip_ws (44 :: ?x)) with (44 :: x).
    cbv iota. change (44 =? 93) with false. change (44 =? 44) with true. cbv iota.
    change (skip_ws (10 :: 32 :: 32 :: record_text r' (more_records_text rs rest)))
      with (record_text r' (more_records_text rs rest)).
    replace (7 + (length (r' :: rs) + f))%nat with (S (length rs + (7 + f)))%nat
      by (cbn [length]; lia).
    rewrite IH, <- app_assoc. reflexivity.
Qed.

Lemma scan_step_array_start (depth : nat) items pairs (r : AttendanceRecord)
    (tail : str) :
  scan_step (S depth) items pairs (91 :: 10 :: 32 :: 32 :: record_text r tail)
  = items (record_text r tail) [].
Proof. reflexivity. Qed.

(** Enough fuel for the length of the text finds what any fuel finds. *)
Lemma scan_once_enough (n m depth : nat) (s : str) (v : pyval) (r : str) :
  scan_once n depth s = Scanned v r -> (2 * length s < m)%nat ->
  scan_once m depth s = Scanned v r.
Proof.
  intros H Hm. destruct (Nat.le_ge_cases n m) as [L|L].
  - rewrite (@scan_once_more n m depth s L); [exact H|]. rewrite H. discriminate.
  - rewrite <- H. symmetry. apply scan_once_more; [exact L|].
    now apply scan_once_fed.
Qed.

(** [json.loads] reads the text of a list of records back to the list. *)
Lemma json_loads_records_text (rs : list AttendanceRecord) :
  json_loads (records_text rs) = Ok (PList (map record_dict rs)).
Proof.
  destruct rs as [|r rs]; [reflexivity|].
  unfold json_loads, records_text.
  change (starts_with_bom (91 :: ?x)) with false. cbv iota.
  change (skip_ws (91 :: ?x)) with (91 :: x).
  set (text := 91 :: 10 :: 32 :: 32 :: record_text r (more_records_text rs [])).
  assert (E : scan_once (S (S (length rs + (7 + 0)))) nesting_allowed text
              = Scanned (PList (map record_dict (r :: rs))) []).
  { subst text.
    change nesting_allowed with (S (S (S spare_depth))).
    cbn [scan_once pred].
    rewrite scan_step_array_start.
    now rewrite parse_items_records. }
  match goal with
  | |- context [scan_once ?m nesting_allowed text] =>
      rewrite (@scan_once_enough _ m _ _ _ _ E) by lia
  end.
  reflexivity.
Qed.

End ScannerFacts.

Section DumpsFacts.
Context {F : FloatOps}.

Lemma record_chunks (r : AttendanceRecord) (tail : str) :
  concat (iterencode (record_dict r) 1) ++ tail = record_text r tail.
Proof.
  unfold record_text, field_text, quoted.
  cbn [iterencode record_dict is_nil encode_pairs concat app newline_indent
       repeat Nat.mul Nat.add encode_basestring].
  change (lit "{") with [123]. change (lit "}") with [125].
  change (lit ": ") with [58; 32].
  cbn [app]. repeat (rewrite <- ?app_assoc; cbn [app]). reflexivity.
Qed.

Lemma more_record_chunks (rs : list AttendanceRecord) :
  concat (encode_items (fun v => iterencode v 1) 0 false (map record_dict rs)
          ++ [newline_indent 0; lit "]"])
  = more_records_text rs [].
Proof.
  induction rs as [|r rs IH]; [reflexivity|].
  cbn [map encode_items]. change (is_atom (record_dict r)) with false. cbv iota.
  cbn [app]. rewrite concat_cons, <- app_assoc, concat_app.
  etransitivity; [|apply (f_equal (app (44 :: newline_indent 1))), record_chunks].
  do 2 f_equal. exact IH.
Qed.

(** What [json.dumps] writes for a list of records. *)
Lemma json_dumps_records (rs : list AttendanceRecord) :
  json_dumps (PList (map record_dict rs)) = records_text rs.
Proof.
  destruct rs as [|r rs]; [reflexivity|].
  unfold json_dumps, records_text. cbn [iterencode map is_nil encode_items].
  change (is_atom (record_dict r)) with false. cbv iota.
  cbn [app]. rewrite concat_cons, <- app_assoc, concat_app.
  etransitivity; [|apply (f_equal (app (91 :: newline_indent 1))), record_chunks].
  do 2 f_equal. apply more_record_chunks.
Qed.

End DumpsFacts.

(* ================================================================= *)
(** * The characters of the text written *)

Lemma universal_newlines_id (s : str) :
  Forall (fun c => c <> 13) s -> universal_newlines s = s.
Proof.
  induction 1 as [|c s Hc _ IH]; [reflexivity|]. cbn [universal_newlines].
  replace (c =? 13) with false by (symmetry; now apply N.eqb_neq).
  now rewrite IH.
Qed.

Section TextCharacters.
(** A property [P] that every ASCII character but the carriage return
    has; the characters of the fields from U+0020 on have it too. *)
Context (P : char -> Prop) (ascii_ok : forall c, c < 128 -> c <> 13 -> P c).

Lemma hex_digit_ok (n : N) : n < 16 -> P (hex_digit n).
Proof.
  intro H. unfold hex_digit. destruct (N.ltb_spec n 10); apply ascii_ok; lia.
Qed.

Lemma escape_char_ok (c : char) : (32 <= c -> P c) -> Forall P (escape_char c).
Proof.
  intro H. unfold escape_char.
  repeat match goal with
    | |- context [N.eqb c ?k] => destruct (N.eqb c k); [literal_ok ascii_ok|]
    end.
  destruct (N.ltb_spec c 32).
  - literal_ok ascii_ok. repeat apply Forall_cons; try apply Forall_nil; apply hex_digit_ok.
    + apply N.Div0.div_lt_upper_bound. lia.
    + apply N.mod_lt. lia.
  - constructor; [now apply H|constructor].
Qed.

Lemma quoted_ok (v rest : str) :
  field_ok P v -> Forall P rest -> Forall P (quoted v rest).
Proof.
  intros Hv Hr. unfold quoted. constructor; [apply ascii_ok; lia|].
  apply Forall_app. split.
  - induction Hv as [|c v Hc _ IH]; [constructor|]. cbn [flat_map].
    apply Forall_app. split; [now apply escape_char_ok|exact IH].
  - constructor; [apply ascii_ok; lia|exact Hr].
Qed.

Lemma literal_field_ok (s : str) :
  forallb (fun c => (c <? 128) && negb (c =? 13)) s = true -> field_ok P s.
Proof.
  intro H. apply Forall_forall. intros c Hc _.
  rewrite forallb_forall in H. specialize (H c Hc).
  rewrite andb_true_iff, negb_true_iff, N.ltb_lt, N.eqb_neq in H.
  now apply ascii_ok.
Qed.

Lemma record_text_ok (r : AttendanceRecord) (rest : str) :
  field_ok P (student_name r) -> field_ok P (date r) ->
  field_ok P (status r) -> field_ok P (remarks r) ->
  Forall P rest -> Forall P (record_text r rest).
Proof.
  intros H1 H2 H3 H4 Hr. unfold record_text, field_text.
  repeat first
    [ exact Hr
    | apply quoted_ok; [first [assumption | apply literal_field_ok; reflexivity]|]
    | apply Forall_cons; [apply ascii_ok; lia|] ].
Qed.

Lemma more_records_text_ok (rs : list AttendanceRecord) :
  Forall (record_ok P) rs -> Forall P (more_records_text rs []).
Proof.
  induction 1 as [|r rs (H1 & H2 & H3 & H4) _ IH]; cbn [more_records_text].
  - literal_ok ascii_ok.
  - do 4 (apply Forall_cons; [apply ascii_ok; lia|]).
    now apply record_text_ok.
Qed.

Lemma records_text_ok (rs : list AttendanceRecord) :
  Forall (record_ok P) rs -> Forall P (records_text rs).
Proof.
  intros [|r rs' (H1 & H2 & H3 & H4) H]; unfold records_text.
  - change (lit "[]") with [91; 93]. literal_ok ascii_ok.
  - do 4 (apply Forall_cons; [apply ascii_ok; lia|]).
    apply record_text_ok; auto. now apply more_records_text_ok.
Qed.

End TextCharacters.

(* ================================================================= *)
(** * Persistence *)

Lemma scalar_ascii (c : char) : c < 128 -> c <> 13 -> scalar c = true.
Proof.
  intros H _. unfold scalar, is_surrogate, in_range. now settle_tests.
Qed.

Lemma encodable_field_ok (s : str) :
  encodable s = true -> Forall (fun c => 32 <= c -> scalar c = true) s.
Proof.
  intro H. apply Forall_forall. intros c Hc _.
  unfold encodable in H. rewrite forallb_forall in H. now apply H.
Qed.

Lemma records_text_encodable (rs : list AttendanceRecord) :
  forallb record_encodable rs = true -> encodable (records_text rs) = true.
Proof.
  intro H. unfold encodable. apply forallb_forall. apply Forall_forall.
  apply (@records_text_ok (fun c => scalar c = true) scalar_ascii).
  apply Forall_forall. intros r Hr. rewrite forallb_forall in H.
  specialize (H r Hr). unfold record_encodable in H.
  rewrite !andb_true_iff in H. destruct H as [[[H1 H2] H3] H4].
  repeat split; now apply encodable_field_ok.
Qed.

Lemma records_text_no_cr (rs : list AttendanceRecord) :
  Forall (fun c => c <> 13) (records_text rs).
Proof.
  apply (@records_text_ok (fun c => c <> 13)); [auto|].
  apply Forall_forall. intros r _.
  repeat split; apply Forall_forall; intros c _ Hc; lia.
Qed.

Lemma write_file_same (fs : filesystem) (p : str) (content : bytes) :
  write_file fs p content p = Some content.
Proof. unfold write_file. now rewrite str_eqb_refl. Qed.

(** C7, as amended. For every sequence of records whose strings hold no
    lone surrogate (every character is a Unicode scalar value), saving
    succeeds and loading the file written gives the same records back,
    with the same fields in the same order. *)
Theorem save_then_load_roundtrip :
  forall (F : FloatOps) (I : Interpreter) (p : str) (rs : list AttendanceRecord)
         (fs : filesystem),
    forallb record_encodable rs = true ->
    exists fs',
      _save (world_of p rs fs) = (Ok tt, world_of p rs fs')
      /\ _load (world_of p rs fs')
         = (Ok (PList (map record_dict rs)), world_of p rs fs').
Proof.
  intros F I p rs fs H.
  destruct (utf8_encode_encodable _ (records_text_encodable rs H)) as [b Hb].
  exists (write_file fs p b). split.
  - unfold _save. cbn [world_of store_of self _data path files].
    rewrite (write_chunks_encoded (iterencode (PList (map record_dict rs)) 0) [] (b := b)).
    + reflexivity.
    + fold (json_dumps (PList (map record_dict rs))).
      now rewrite json_dumps_records.
  - unfold _load. cbn [world_of store_of self _data path files].
    rewrite write_file_same, (utf8_decode_encode _ Hb).
    rewrite (universal_newlines_id (records_text_no_cr rs)).
    now rewrite json_loads_records_text.
Qed.

Lemma save_then_load_roundtrip_witness :
  exists fs',
    _save (F := fixed_point) (world_of db_path [john; jane] no_files)
    = (Ok tt, world_of db_path [john; jane] fs')
    /\ _load (I := cpython) (world_of db_path [john; jane] fs')
       = (Ok (PList [record_dict john; record_dict jane]),
          world_of db_path [john; jane] fs').
Proof.
  exact (@save_then_load_roundtrip fixed_point cpython db_path [john; jane]
           no_files eq_refl).
Defined.

(** C7, as stated, fails: a record with a lone surrogate in its remarks
    is valid, yet saving it raises [UnicodeEncodeError] where the
    surrogate is to be written, and the file then does not load back to
    the record. *)
Lemma save_lone_surrogate_fails :
  let w := world_of db_path [surrogate_record] no_files in
  validate (U := ascii_ucd) surrogate_record = (surrogate_record, Ok tt)
  /\ fst (_save (F := fixed_point) w) = Raise UnicodeEncodeError
  /\ fst (_load (I := cpython)
            (snd (_save (F := fixed_point) w)))
     <> Ok (PList [record_dict surrogate_record]).
Proof.
  cbv zeta. repeat split; try (vm_compute; reflexivity).
  vm_compute. discriminate.
Qed.




(* ================================================================= *)
(** * Further properties of the program *)

Lemma truthy_true (s : str) : truthy s = true <-> s <> [].
Proof. destruct s; simpl; split; congruence. Qed.

Lemma str_in_In (s : str) (l : list str) : str_in s l = true <-> In s l.
Proof.
  unfold str_in. rewrite existsb_exists. split.
  - intros (x & Hx & E). apply str_eqb_eq in E. now subst x.
  - intro H. exists s. split; [exact H|apply str_eqb_refl].
Qed.

(** ** Dates that [strptime] accepts *)

Section DateFacts.
Context {U : UnicodeData}.

Lemma match_1digit_range (s : str) (v : N) (r : str) :
  match_1digit s = Some (v, r) -> 1 <= v <= 9.
Proof.
  destruct s as [|c rest]; [discriminate|]. unfold match_1digit, in_range, digit_val.
  destruct (N.leb_spec 49 c); [|discriminate].
  destruct (N.leb_spec c 57); [|discriminate].
  cbn [andb]. intro Hv. assert (v = c - 48) by congruence. lia.
Qed.

Lemma digit_in_range (lo hi c : char) :
  in_range lo hi c = true -> lo <= c <= hi.
Proof.
  unfold in_range. rewrite andb_true_iff, !N.leb_le. tauto.
Qed.

Ltac split_literals :=
  repeat match goal with
    | |- context [match ?x with _ => _ end] => is_var x; destruct x
    end.

Lemma match_month_range (s : str) (v : N) (r : str) :
  match_month s = Some (v, r) -> 1 <= v <= 12.
Proof.
  assert (D : forall t, match_1digit t = Some (v, r) -> 1 <= v <= 12).
  { intros t H. apply match_1digit_range in H. lia. }
  unfold match_month. split_literals; try apply D;
    match goal with
    | |- (if in_range ?lo ?hi ?c then _ else _) = _ -> _ =>
        let E := fresh in
        destruct (in_range lo hi c) eqn:E;
          [apply digit_in_range in E; unfold digit_val;
           let Hv := fresh in
           intro Hv;
           match type of Hv with
           | Some (?x, _) = _ => assert (v = x) by congruence; lia
           end
          |first [apply D | discriminate]]
    end.
Qed.

(** A date that [strptime] accepts is a day of the calendar: the year
    from 1 to 9999, the month from 1 to 12, the day from 1 to the length
    of that month. *)
Lemma strptime_ymd_range (s : str) (d : date_t) :
  strptime_ymd s = Some d ->
  (1 <= d_year d <= 9999 /\ 1 <= d_month d <= 12
   /\ 1 <= d_day d <= Z.of_N (days_in_month (Z.to_N (d_year d)) (Z.to_N (d_month d))))%Z.
Proof.
  unfold strptime_ymd.
  destruct (match_year s) as [[y s1]|]; [|discriminate].
  split_literals; try discriminate.
  destruct (match_month s1) as [[m s2]|] eqn:Em; [|discriminate].
  apply match_month_range in Em.
  split_literals; try discriminate.
  destruct (match_day s2) as [[dd s3]|]; [|discriminate].
  destruct s3; [|discriminate].
  destruct ((1 <=? y) && (y <=? 9999) && (1 <=? dd) && (dd <=? days_in_month y m))
    eqn:C; [|discriminate].
  apply andb_true_iff in C. destruct C as [C C4].
  apply andb_true_iff in C. destruct C as [C C3].
  apply andb_true_iff in C. destruct C as [C1 C2].
  apply N.leb_le in C1, C2, C3, C4.
  intro H. assert (E : d = {| d_year := Z.of_N y; d_month := Z.of_N m; d_day := Z.of_N dd |})
    by congruence.
  subst d. cbn [d_year d_month d_day]. rewrite !N2Z.id. lia.
Qed.


End DateFacts.

(** ** [validate] *)

(** X1. [validate] succeeds exactly when the normalized record has a
    date that [strptime] accepts, one of the three statuses, remarks
    when the status is [Absent], and a name that is not empty. *)
Theorem validate_accepts_iff :
  forall (U : UnicodeData) (r : AttendanceRecord),
    snd (validate r) = Ok tt
    <-> (exists d, strptime_ymd (date (clean r)) = Some d)
        /\ In (status (clean r)) VALID_STATUSES
        /\ (status (clean r) = lit "Absent" -> remarks (clean r) <> [])
        /\ student_name (clean r) <> [].
Proof.
  intros U r. unfold validate. cbn [snd].
  generalize (clean r). intro c.
  rewrite <- str_in_In, <- !truthy_true.
  destruct (strptime_ymd (date c)) as [d|].
  2:{ split; [discriminate|]. intros [[d H] _]. discriminate H. }
  destruct (str_in (status c) VALID_STATUSES); cbn [negb].
  2:{ split; [discriminate|]. intros (_ & H & _). discriminate H. }
  destruct (str_eqb (status c) (lit "Absent")) eqn:Ea; cbn [andb].
  - apply str_eqb_eq in Ea.
    destruct (truthy (remarks c)); cbn [negb].
    2:{ split; [discriminate|]. intros (_ & _ & H & _). discriminate (H Ea). }
    destruct (truthy (student_name c)); cbn [negb].
    + split; [|reflexivity]. intros _. repeat split; eauto.
    + split; [discriminate|]. intros (_ & _ & _ & H). discriminate H.
  - apply str_eqb_neq in Ea.
    destruct (truthy (student_name c)); cbn [negb].
    + split; [|reflexivity]. intros _. repeat split; eauto; contradiction.
    + split; [discriminate|]. intros (_ & _ & _ & H). discriminate H.
Qed.

(** When [validate] reports missing remarks, the normalized status is
    [Absent] and the normalized remarks are empty. *)
Lemma validate_missing_remarks_absent {U : UnicodeData} (r : AttendanceRecord) :
  snd (validate r) = Raise MissingRemarks -> status (clean r) = lit "Absent".
Proof.
  unfold validate. cbn [snd].
  destruct (strptime_ymd (date (clean r))); [|discriminate].
  destruct (str_in (status (clean r)) VALID_STATUSES); [|discriminate].
  cbn [negb].
  destruct (str_eqb (status (clean r)) (lit "Absent")) eqn:E; cbn [andb].
  - intros _. now apply str_eqb_eq.
  - now destruct (truthy (student_name (clean r))).
Qed.

Lemma validate_accepts_missing_remarks {U : UnicodeData} (r : AttendanceRecord) :
  snd (validate r) = Raise MissingRemarks -> remarks (clean r) = [].
Proof.
  unfold validate. cbn [snd].
  destruct (strptime_ymd (date (clean r))); [|discriminate].
  destruct (str_in (status (clean r)) VALID_STATUSES); [|discriminate].
  cbn [negb].
  destruct (str_eqb (status (clean r)) (lit "Absent")); cbn [andb].
  - destruct (remarks (clean r)); [reflexivity|]. cbn [truthy negb].
    now destruct (truthy (student_name (clean r))).
  - now destruct (truthy (student_name (clean r))).
Qed.

(** X2. The date of a record that [validate] accepts is a day of the
    calendar: its year is from 1 to 9999, its month from 1 to 12, its
    day from 1 to the number of days of that month. *)
Theorem validate_accepted_date_is_calendar_day :
  forall (U : UnicodeData) (r : AttendanceRecord),
    snd (validate r) = Ok tt ->
    exists d, strptime_ymd (date (fst (validate r))) = Some d
      /\ (1 <= d_year d <= 9999)%Z /\ (1 <= d_month d <= 12)%Z
      /\ (1 <= d_day d
          <= Z.of_N (days_in_month (Z.to_N (d_year d)) (Z.to_N (d_month d))))%Z.
Proof.
  intros U r H. rewrite validate_fst. unfold validate in H. cbn [snd] in H.
  destruct (strptime_ymd (date (clean r))) as [d|] eqn:E; [|discriminate].
  exists d. split; [reflexivity|]. now apply strptime_ymd_range in E.
Qed.

Lemma validate_accepted_date_is_calendar_day_witness :
  exists d, strptime_ymd (U := ascii_ucd)
              (date (fst (validate (U := ascii_ucd) john_raw))) = Some d
    /\ (1 <= d_year d <= 9999)%Z /\ (1 <= d_month d <= 12)%Z
    /\ (1 <= d_day d
        <= Z.of_N (days_in_month (Z.to_N (d_year d)) (Z.to_N (d_month d))))%Z.
Proof.
  exact (@validate_accepted_date_is_calendar_day ascii_ucd john_raw eq_refl).
Defined.

(** ** Letter case of ASCII names and statuses *)

Lemma ascii_tolower_toupper (c : char) :
  ascii_tolower (ascii_toupper c) = ascii_tolower c.
Proof. brange. Qed.

Lemma ascii_toupper_tolower (c : char) :
  ascii_toupper (ascii_tolower c) = ascii_toupper c.
Proof. brange. Qed.

Lemma ascii_tolower_idem (c : char) :
  ascii_tolower (ascii_tolower c) = ascii_tolower c.
Proof. brange. Qed.

Lemma ascii_iscased_tolower (c : char) :
  ascii_iscased (ascii_tolower c) = ascii_iscased c.
Proof. brange. Qed.

Lemma ascii_isspace_tolower (c : char) :
  ascii_isspace (ascii_tolower c) = ascii_isspace c.
Proof. brange. Qed.

Lemma ascii_tolower_title_char (prev : bool) (c : char) :
  ascii_tolower (ascii_title_char prev c) = ascii_tolower c.
Proof. brange. Qed.

Lemma all_ascii_Forall (s : str) : all_ascii s = true -> Forall ascii s.
Proof.
  unfold all_ascii. rewrite forallb_forall, Forall_forall.
  intros H c Hc. apply N.ltb_lt, (H c Hc).
Qed.

(** A lower-case word is what a string lower-cases to exactly when the
    two capitalize to the same. *)
Lemma ascii_capitalize_lower (t w : str) :
  map ascii_tolower w = w ->
  ascii_capitalize t = ascii_capitalize w <-> map ascii_tolower t = w.
Proof.
  intro Hw. destruct t as [|c r], w as [|a b]; cbn [ascii_capitalize map] in *;
    try (split; [reflexivity|reflexivity]); try (split; discriminate).
  injection Hw as Ha Hb. rewrite Hb. split.
  - intros [= Hc Hr]. f_equal; [|exact Hr].
    now rewrite <- ascii_tolower_toupper, Hc, ascii_tolower_toupper.
  - intros [= Hc Hr]. f_equal; [|exact Hr].
    now rewrite <- ascii_toupper_tolower, Hc.
Qed.

Lemma ascii_title_lower (prev : bool) (s : str) :
  map ascii_tolower (ascii_title prev s) = map ascii_tolower s.
Proof.
  revert prev. induction s as [|c s IH]; intro prev; [reflexivity|].
  cbn [ascii_title map]. now rewrite ascii_tolower_title_char, IH.
Qed.

Lemma ascii_title_of_lower (prev : bool) (s t : str) :
  map ascii_tolower s = map ascii_tolower t ->
  ascii_title prev s = ascii_title prev t.
Proof.
  revert prev t. induction s as [|c s IH]; intros prev [|d t]; try discriminate;
    [reflexivity|].
  cbn [map ascii_title]. intros [= Hc Hs]. f_equal.
  - unfold ascii_title_char. destruct prev; [exact Hc|].
    now rewrite <- ascii_toupper_tolower, Hc, ascii_toupper_tolower.
  - rewrite <- (ascii_iscased_tolower c), Hc, ascii_iscased_tolower. now apply IH.
Qed.

(** X3. A status typed in ASCII passes the status check of [validate]
    exactly when, trimmed and lower-cased, it is [present], [absent] or
    [late]: the letter case typed does not matter.  It is normalized to
    [Absent] exactly when it lower-cases to [absent]. *)
Theorem status_accepted_in_any_letter_case :
  forall (U : UnicodeData) (r : AttendanceRecord),
    ascii_std U ->
    all_ascii (status r) = true ->
    (str_in (status (clean r)) VALID_STATUSES = true
     <-> In (lower (strip (status r))) lowercase_statuses)
    /\ (status (clean r) = lit "Absent" <-> lower (strip (status r)) = lit "absent").
Proof.
  intros U r std Hs. cbn [clean status]. rewrite or_empty_id.
  assert (Ht : Forall ascii (strip (status r)))
    by now apply strip_Forall, all_ascii_Forall.
  rewrite (capitalize_ascii std Ht). unfold lower. rewrite (do_lower_ascii std [] Ht).
  fold (ascii_capitalize (strip (status r))).
  generalize (strip (status r)). intro t.
  rewrite str_in_In. unfold VALID_STATUSES, lowercase_statuses. cbn [In].
  change (lit "Present") with (ascii_capitalize (lit "present")).
  change (lit "Absent") with (ascii_capitalize (lit "absent")).
  change (lit "Late") with (ascii_capitalize (lit "late")).
  assert (E : forall w, map ascii_tolower w = w ->
                ascii_capitalize w = ascii_capitalize t <-> w = map ascii_tolower t).
  { intros w Hw. split; intro H; symmetry;
      apply (ascii_capitalize_lower t Hw); now symmetry. }
  rewrite !E by reflexivity. split; [reflexivity|].
  split; intro H; symmetry; now apply E.
Qed.

Lemma status_accepted_in_any_letter_case_witness :
  let r := {| student_name := lit "john doe"; date := lit "2025-08-24";
              status := lit " aBSent "; remarks := lit "" |} in
  (str_in (status (clean (U := ascii_ucd) r)) VALID_STATUSES = true
   <-> In (lower (U := ascii_ucd) (strip (U := ascii_ucd) (status r))) lowercase_statuses)
  /\ (status (clean (U := ascii_ucd) r) = lit "Absent"
      <-> lower (U := ascii_ucd) (strip (U := ascii_ucd) (status r)) = lit "absent").
Proof.
  exact (@status_accepted_in_any_letter_case ascii_ucd
           {| student_name := lit "john doe"; date := lit "2025-08-24";
              status := lit " aBSent "; remarks := lit "" |}
           ascii_ucd_std eq_refl).
Defined.

(** X4. Two names typed in ASCII are normalized to the same name exactly
    when, trimmed, they are equal up to letter case; and the lower-cased
    normalized name, on which [add_record] compares, is the lower-cased
    trimmed name typed. *)
Theorem name_normal_form_ignores_letter_case :
  forall (U : UnicodeData) (a b : AttendanceRecord),
    ascii_std U ->
    all_ascii (student_name a) = true ->
    all_ascii (student_name b) = true ->
    (student_name (clean a) = student_name (clean b)
     <-> lower (strip (student_name a)) = lower (strip (student_name b)))
    /\ lower (student_name (clean a)) = lower (strip (student_name a)).
Proof.
  intros U a b std Ha Hb. cbn [clean student_name]. rewrite !or_empty_id.
  assert (Hx : Forall ascii (strip (student_name a)))
    by now apply strip_Forall, all_ascii_Forall.
  assert (Hy : Forall ascii (strip (student_name b)))
    by now apply strip_Forall, all_ascii_Forall.
  unfold title, lower.
  rewrite (do_title_ascii std [] false Hx), (do_title_ascii std [] false Hy).
  rewrite (do_lower_ascii std [] Hx), (do_lower_ascii std [] Hy).
  rewrite (do_lower_ascii std []) by now apply ascii_title_Forall.
  rewrite ascii_title_lower. split; [|reflexivity]. split.
  - intro H. apply (f_equal (map ascii_tolower)) in H.
    now rewrite !ascii_title_lower in H.
  - apply ascii_title_of_lower.
Qed.

Lemma name_normal_form_ignores_letter_case_witness :
  (student_name (clean (U := ascii_ucd) john_raw)
   = student_name (clean (U := ascii_ucd) john_late_raw)
   <-> lower (U := ascii_ucd) (strip (U := ascii_ucd) (student_name john_raw))
       = lower (U := ascii_ucd) (strip (U := ascii_ucd) (student_name john_late_raw)))
  /\ lower (U := ascii_ucd) (student_name (clean (U := ascii_ucd) john_raw))
     = lower (U := ascii_ucd) (strip (U := ascii_ucd) (student_name john_raw)).
Proof.
  exact (@name_normal_form_ignores_letter_case ascii_ucd john_raw john_late_raw
           ascii_ucd_std eq_refl eq_refl).
Defined.

(* ================================================================= *)
(** ** [add_record] on any store *)

Section StoreLoops.
Context {U : UnicodeData}.

Lemma comprehension_app (p : pyval -> result bool) (l1 l2 : list pyval) :
  comprehension p (l1 ++ l2)
  = (a <- comprehension p l1 ;; b <- comprehension p l2 ;; Ok (a ++ b))%py.
Proof.
  induction l1 as [|x l1 IH]; cbn [app comprehension rbind].
  - now destruct (comprehension p l2).
  - destruct (p x) as [b|e]; cbn [rbind]; [|reflexivity]. rewrite IH.
    destruct (comprehension p l1) as [a|e]; cbn [rbind]; [|reflexivity].
    destruct (comprehension p l2) as [c|e]; cbn [rbind]; [|reflexivity].
    now destruct b.
Qed.

Lemma check_duplicate_app (rec : AttendanceRecord) (l1 l2 : list pyval) :
  check_duplicate rec (l1 ++ l2)
  = (_ <- check_duplicate rec l1 ;; check_duplicate rec l2)%py.
Proof.
  induction l1 as [|x l1 IH]; cbn [app check_duplicate rbind]; [reflexivity|].
  destruct (name_is (lower (student_name rec)) x) as [b|e]; cbn [rbind]; [|reflexivity].
  destruct b.
  - destruct (py_getitem x (lit "date")) as [v|e]; cbn [rbind]; [|reflexivity].
    destruct (py_eq_str v (date rec)); [reflexivity|exact IH].
  - cbn [rbind]. exact IH.
Qed.

Lemma choose_app (s : str) (y m : Z) (l1 l2 : list pyval) :
  choose s y m (l1 ++ l2)
  = (a <- choose s y m l1 ;; b <- choose s y m l2 ;; Ok (a ++ b))%py.
Proof.
  induction l1 as [|x l1 IH]; cbn [app choose rbind].
  - now destruct (choose s y m l2).
  - destruct (name_is s x) as [b|e]; cbn [rbind]; [|reflexivity].
    destruct b; cbn [negb]; [|exact IH].
    destruct (rbind (py_getitem x (lit "date")) (fun v => py_strptime v)) as [d|e];
      [|exact IH].
    rewrite IH.
    destruct (choose s y m l1) as [a|e]; cbn [rbind]; [|reflexivity].
    destruct (choose s y m l2) as [c|e]; cbn [rbind]; [|reflexivity].
    now destruct ((d_year d =? y)%Z && (d_month d =? m)%Z).
Qed.

Lemma count_present_app (l1 l2 : list pyval) :
  count_present (l1 ++ l2)
  = (a <- count_present l1 ;; b <- count_present l2 ;; Ok (a + b)%Z)%py.
Proof.
  induction l1 as [|x l1 IH]; cbn [app count_present rbind].
  - now destruct (count_present l2).
  - destruct (py_getitem x (lit "status")) as [v|e]; cbn [rbind]; [|reflexivity].
    rewrite IH.
    destruct (count_present l1) as [a|e]; cbn [rbind]; [|reflexivity].
    destruct (count_present l2) as [c|e]; cbn [rbind]; [|reflexivity].
    destruct (py_eq_str v (lit "Present")); f_equal; lia.
Qed.

(** Reading the name of an object without the key [student_name]. *)
Lemma name_is_nameless (s : str) (d : list (str * pyval)) :
  dict_get d (lit "student_name") = None ->
  name_is s (PDict d) = Raise (KeyError (lit "student_name")).
Proof. intro H. unfold name_is, py_getitem. now rewrite H. Qed.

End StoreLoops.

(** X5. [add_record] never returns: whatever the candidate and whatever
    the store and the files, it raises, and the store and the files are
    as before. *)
Theorem add_record_always_raises :
  forall (U : UnicodeData) (F : FloatOps) (rec : AttendanceRecord) (w : world),
    exists e, fst (add_record rec w) = Raise e /\ snd (add_record rec w) = w.
Proof.
  intros U F rec w. destruct (add_record_raises rec w) as [e H].
  exists e. now rewrite H.
Qed.

(** X6. On any store of records, a candidate that [validate] accepts
    and whose name and date no stored record has is not appended: the
    statement that should append raises [AttributeError], and nothing is
    written. *)
Theorem add_record_accepted_candidate_is_not_appended :
  forall (U : UnicodeData) (F : FloatOps) (rec : AttendanceRecord) (p : str)
         (rs : list AttendanceRecord) (fs : filesystem),
    snd (validate rec) = Ok tt ->
    existsb (same_key (clean rec)) rs = false ->
    add_record rec (world_of p rs fs)
    = (Raise (AttributeError "data"), world_of p rs fs).
Proof. intros. now apply add_record_accepted_raises. Qed.

Lemma add_record_accepted_candidate_is_not_appended_witness :
  add_record (U := ascii_ucd) (F := fixed_point) john_raw
    (world_of db_path [jane] no_files)
  = (Raise (AttributeError "data"), world_of db_path [jane] no_files).
Proof.
  exact (@add_record_accepted_candidate_is_not_appended ascii_ucd fixed_point
           john_raw db_path [jane] no_files eq_refl eq_refl).
Defined.

(** X7. When the store holds a record with the candidate's normalized
    name, compared in lower case, and the candidate's date, a candidate
    that [validate] accepts is refused with the duplicate error,
    whatever its status and remarks. *)
Theorem add_record_refuses_same_name_and_date :
  forall (U : UnicodeData) (F : FloatOps) (rec : AttendanceRecord) (p : str)
         (rs : list AttendanceRecord) (fs : filesystem),
    snd (validate rec) = Ok tt ->
    existsb (same_key (clean rec)) rs = true ->
    add_record rec (world_of p rs fs)
    = (Raise (DuplicateRecord (student_name (clean rec)) (date (clean rec))),
       world_of p rs fs).
Proof. intros. now apply add_record_duplicate. Qed.

Lemma add_record_refuses_same_name_and_date_witness :
  add_record (U := ascii_ucd) (F := fixed_point) john_late_raw sample_world
  = (Raise (DuplicateRecord (lit "John Doe") (lit "2025-08-24")), sample_world).
Proof.
  exact (@add_record_refuses_same_name_and_date ascii_ucd fixed_point
           john_late_raw db_path [john; jane] no_files eq_refl eq_refl).
Defined.

(** X8. Validation comes first: a candidate that [validate] refuses is
    refused by [add_record] with the same error whatever the store
    holds, a record with the same name and date or values that are no
    records at all; the store is not read. *)
Theorem add_record_reports_validation_error_first :
  forall (U : UnicodeData) (F : FloatOps) (rec : AttendanceRecord) (w : world)
         (e : exn),
    snd (validate rec) = Raise e ->
    add_record rec w = (Raise e, w).
Proof.
  intros U F rec w e H. unfold add_record.
  destruct (validate rec) as [rec' v]. cbn [snd] in H. now subst v.
Qed.

Lemma add_record_reports_validation_error_first_witness :
  add_record (U := ascii_ucd) (F := fixed_point) jane_raw
    (world_with db_path [PNone; record_dict jane] no_files)
  = (Raise MissingRemarks, world_with db_path [PNone; record_dict jane] no_files).
Proof.
  exact (@add_record_reports_validation_error_first ascii_ucd fixed_point
           jane_raw (world_with db_path [PNone; record_dict jane] no_files)
           MissingRemarks eq_refl).
Defined.

(* ================================================================= *)
(** ** Stored values that are no records *)

Section MixedStore.
Context {U : UnicodeData} {F : FloatOps}.

Lemma check_duplicate_nameless (rec : AttendanceRecord) (rs : list AttendanceRecord)
    (d : list (str * pyval)) (more : list pyval) :
  existsb (same_key rec) rs = false ->
  dict_get d (lit "student_name") = None ->
  check_duplicate rec (map record_dict rs ++ PDict d :: more)
  = Raise (KeyError (lit "student_name")).
Proof.
  intros Hd Hn. rewrite check_duplicate_app, check_duplicate_records, Hd.
  cbn [rbind check_duplicate]. now rewrite name_is_nameless by exact Hn.
Qed.

Lemma choose_nameless (s : str) (y m : Z) (rs : list AttendanceRecord)
    (d : list (str * pyval)) (more : list pyval) :
  dict_get d (lit "student_name") = None ->
  choose s y m (map record_dict rs ++ PDict d :: more)
  = Raise (KeyError (lit "student_name")).
Proof.
  intro Hn. rewrite choose_app, choose_records.
  cbn [rbind choose]. now rewrite name_is_nameless by exact Hn.
Qed.

Lemma filtered_nameless (s : str) (rs : list AttendanceRecord)
    (d : list (str * pyval)) (more : list pyval) :
  dict_get d (lit "student_name") = None ->
  filtered (name_is s) (Ok (PList (map record_dict rs ++ PDict d :: more)))
  = Raise (KeyError (lit "student_name")).
Proof.
  intro Hn. unfold filtered. cbn [rbind py_iter].
  rewrite comprehension_app.
  rewrite (comprehension_records (name_is s)
             (fun r => str_eqb (lower (student_name r)) s)) by reflexivity.
  cbn [rbind comprehension]. now rewrite name_is_nameless by exact Hn.
Qed.

(** An object with a name and no usable date is passed over by the
    loop of [student_monthly_percentage]. *)
Lemma choose_date_unusable (s : str) (y m : Z) (d : list (str * pyval)) (n : str) :
  dict_get d (lit "student_name") = Some (PStr n) ->
  date_unusable d ->
  choose s y m [PDict d] = Ok [].
Proof.
  intros Hn Hd. cbn [choose]. unfold name_is, py_getitem. rewrite Hn.
  cbn [rbind py_lower].
  destruct (str_eqb (lower n) s); cbn [negb]; [|reflexivity].
  destruct (dict_get d (lit "date")) as [v|] eqn:E; cbn [rbind]; [|reflexivity].
  destruct v as [| | |t| |]; cbn [py_strptime]; try reflexivity.
  now rewrite (Hd t E).
Qed.

End MixedStore.

(** X9. When the store holds, after some records, an object without the
    key [student_name], every operation that compares names raises
    [KeyError] on reaching it: [list_records] with a name filter,
    [student_monthly_percentage], and [add_record] for a candidate that
    is valid and has no duplicate among the records before it. *)
Theorem operations_raise_on_object_without_name :
  forall (U : UnicodeData) (F : FloatOps) (p : str) (rs : list AttendanceRecord)
         (d : list (str * pyval)) (more : list pyval) (fs : filesystem)
         (rec : AttendanceRecord) (n : str) (f t : option str) (q : str) (y m : Z),
    dict_get d (lit "student_name") = None ->
    truthy n = true ->
    snd (validate rec) = Ok tt ->
    existsb (same_key (clean rec)) rs = false ->
    let w := world_with p (map record_dict rs ++ PDict d :: more) fs in
    list_records (Some n) f t w = (Raise (KeyError (lit "student_name")), w)
    /\ student_monthly_percentage q y m w = (Raise (KeyError (lit "student_name")), w)
    /\ add_record rec w = (Raise (KeyError (lit "student_name")), w).
Proof.
  intros U F p rs d more fs rec n f t q y m Hn Ht Hv Hd w. subst w.
  split; [|split].
  - unfold list_records. cbn [world_with self _data]. rewrite Ht.
    rewrite filtered_nameless by exact Hn. f_equal.
    destruct f as [lo|]; [destruct (truthy lo)|];
      (destruct t as [hi|]; [destruct (truthy hi)|]); reflexivity.
  - unfold student_monthly_percentage. cbn [world_with self _data py_iter rbind].
    now rewrite choose_nameless by exact Hn.
  - unfold add_record.
    destruct (validate rec) as [rec' v] eqn:E.
    assert (rec' = clean rec) by (now rewrite <- validate_fst, E). subst rec'.
    cbn [snd] in Hv. subst v.
    cbn [world_with self _data py_iter rbind].
    now rewrite check_duplicate_nameless by assumption.
Qed.

Lemma operations_raise_on_object_without_name_witness :
  let w := world_with db_path (map record_dict [jane] ++ PDict nameless :: []) no_files in
  list_records (U := ascii_ucd) (Some (lit "jane doe")) None None w
  = (Raise (KeyError (lit "student_name")), w)
  /\ student_monthly_percentage (U := ascii_ucd) (F := fixed_point)
       (lit "jane doe") 2025 8 w
     = (Raise (KeyError (lit "student_name")), w)
  /\ add_record (U := ascii_ucd) (F := fixed_point) john_raw w
     = (Raise (KeyError (lit "student_name")), w).
Proof.
  exact (@operations_raise_on_object_without_name ascii_ucd fixed_point
           db_path [jane] nameless [] no_files john_raw (lit "jane doe") None None
           (lit "jane doe") 2025%Z 8%Z eq_refl eq_refl eq_refl eq_refl).
Defined.

(** X10. [student_monthly_percentage] passes over a stored object that
    has a name and no usable date (the key is missing, or its value is
    no string, or no date): among records, the report is the one of the
    store without that object. *)
Theorem monthly_report_skips_object_without_date :
  forall (U : UnicodeData) (F : FloatOps) (p : str)
         (rs1 rs2 : list AttendanceRecord) (d : list (str * pyval)) (n : str)
         (fs : filesystem) (q : str) (y m : Z),
    dict_get d (lit "student_name") = Some (PStr n) ->
    date_unusable d ->
    fst (student_monthly_percentage q y m
           (world_with p (map record_dict rs1 ++ PDict d :: map record_dict rs2) fs))
    = fst (student_monthly_percentage q y m (world_of p (rs1 ++ rs2) fs)).
Proof.
  intros U F p rs1 rs2 d n fs q y m Hn Hd.
  unfold student_monthly_percentage.
  cbn [world_with world_of store_of self _data py_iter rbind fst].
  change (PDict d :: map record_dict rs2) with ([PDict d] ++ map record_dict rs2).
  rewrite map_app, !choose_app.
  rewrite (@choose_date_unusable U _ y m d n Hn Hd).
  cbn [rbind app].
  destruct (choose (lower (strip q)) y m (map record_dict rs1)); cbn [rbind];
    [|reflexivity].
  now destruct (choose (lower (strip q)) y m (map record_dict rs2)).
Qed.

Lemma monthly_report_skips_object_without_date_witness :
  fst (student_monthly_percentage (U := ascii_ucd) (F := fixed_point)
         (lit "john doe") 2025 8
         (world_with db_path
            (map record_dict [john] ++ PDict dateless :: map record_dict [jane])
            no_files))
  = fst (student_monthly_percentage (U := ascii_ucd) (F := fixed_point)
           (lit "john doe") 2025 8 (world_of db_path ([john] ++ [jane]) no_files)).
Proof.
  exact (@monthly_report_skips_object_without_date ascii_ucd fixed_point
           db_path [john] [jane] dateless (lit "John Doe") no_files
           (lit "john doe") 2025%Z 8%Z eq_refl
           (fun s H => match H in _ = o return
                         match o with Some _ => _ | None => True end
                       with eq_refl => I end)).
Defined.

(* ================================================================= *)
(** ** The monthly report *)

Section ReportFacts.
Context {U : UnicodeData} {F : FloatOps}.

Lemma filter_length_le {A} (f : A -> bool) (l : list A) :
  (length (filter f l) <= length l)%nat.
Proof.
  induction l as [|x l IH]; [apply le_n|]. cbn [filter].
  destruct (f x); cbn [length]; lia.
Qed.

(** No record falls in a month that is not one of the calendar. *)
Lemma in_month_out_of_calendar (y m : Z) (r : AttendanceRecord) :
  (y < 1 \/ 9999 < y \/ m < 1 \/ 12 < m)%Z -> in_month y m r = false.
Proof.
  intro H. unfold in_month.
  destruct (strptime_ymd (date r)) as [d|] eqn:E; [|reflexivity].
  apply strptime_ymd_range in E. apply andb_false_iff.
  destruct (Z.eqb_spec (d_year d) y); [|now left].
  destruct (Z.eqb_spec (d_month d) m); [|now right]. lia.
Qed.

End ReportFacts.

(** X11. In the report of [student_monthly_percentage] on a store of
    records, the days present are at most the days marked, the days
    marked are at most the records held, and the percentage is [0.0]
    when no day is marked: no division by zero occurs. *)
Theorem monthly_counts_are_bounded :
  forall (U : UnicodeData) (F : FloatOps) (p : str) (rs : list AttendanceRecord)
         (fs : filesystem) (q : str) (y m : Z),
    exists total present pct,
      fst (student_monthly_percentage q y m (world_of p rs fs))
      = Ok (total, present, pct)
      /\ (0 <= present <= total)%Z
      /\ (total <= Z.of_nat (length rs))%Z
      /\ (total = 0%Z -> pct = float_zero).
Proof.
  intros U F p rs fs q y m. rewrite monthly_on_records. cbn [fst].
  unfold monthly_report. do 3 eexists. split; [reflexivity|].
  set (chosen := filter (selected (strip q) y m) rs).
  pose proof (filter_length_le (selected (strip q) y m) rs) as H1.
  pose proof (filter_length_le is_present chosen) as H2.
  fold chosen in H1. unfold count_of. repeat split; try lia.
  intro H0. unfold percentage. now rewrite H0.
Qed.

(** X12. Asked for a month that is not from 1 to 12, or a year that is
    not from 1 to 9999, [student_monthly_percentage] on a store of
    records does not raise: it reports no day marked, [(0, 0, 0.0)]. *)
Theorem monthly_report_outside_calendar_is_empty :
  forall (U : UnicodeData) (F : FloatOps) (p : str) (rs : list AttendanceRecord)
         (fs : filesystem) (q : str) (y m : Z),
    (y < 1 \/ 9999 < y \/ m < 1 \/ 12 < m)%Z ->
    student_monthly_percentage q y m (world_of p rs fs)
    = (Ok (0%Z, 0%Z, float_zero), world_of p rs fs).
Proof.
  intros U F p rs fs q y m H. rewrite monthly_on_records. do 2 f_equal.
  apply monthly_report_none_selected.
  induction rs as [|r rs IH]; [reflexivity|]. cbn [filter].
  unfold selected at 1. now rewrite (in_month_out_of_calendar r H), andb_false_r.
Qed.

Lemma monthly_report_outside_calendar_is_empty_witness :
  student_monthly_percentage (U := ascii_ucd) (F := fixed_point)
    (lit "john doe") 2025 13 sample_world
  = (Ok (0%Z, 0%Z, float_zero (FloatOps := fixed_point)), sample_world).
Proof.
  exact (@monthly_report_outside_calendar_is_empty ascii_ucd fixed_point
           db_path [john; jane] no_files (lit "john doe") 2025%Z 13%Z
           (or_intror (or_intror (or_intror eq_refl)))).
Defined.

(** X13. The counts of the report add up over the store: for a store
    made of two runs of records, the days marked and the days present
    are the sums of those reported for each run. *)
Theorem monthly_counts_add_up :
  forall (U : UnicodeData) (F : FloatOps) (p : str)
         (rs1 rs2 : list AttendanceRecord) (fs : filesystem) (q : str) (y m : Z)
         (t1 p1 t2 p2 : Z) (c1 c2 : float),
    fst (student_monthly_percentage q y m (world_of p rs1 fs)) = Ok (t1, p1, c1) ->
    fst (student_monthly_percentage q y m (world_of p rs2 fs)) = Ok (t2, p2, c2) ->
    exists c,
      fst (student_monthly_percentage q y m (world_of p (rs1 ++ rs2) fs))
      = Ok ((t1 + t2)%Z, (p1 + p2)%Z, c).
Proof.
  intros U F p rs1 rs2 fs q y m t1 p1 t2 p2 c1 c2 H1 H2.
  rewrite monthly_on_records in *. cbn [fst] in *.
  unfold monthly_report in *. injection H1 as <- <- _. injection H2 as <- <- _.
  rewrite !filter_app, !length_app. eexists. f_equal. f_equal. f_equal.
  - unfold count_of. lia.
  - unfold count_of. lia.
Qed.

Lemma monthly_counts_add_up_witness :
  exists c,
    fst (student_monthly_percentage (U := ascii_ucd) (F := fixed_point)
           (lit "john doe") 2025 8
           (world_of db_path ([john; jane] ++ [john_edited]) no_files))
    = Ok ((1 + 1)%Z, (1 + 0)%Z, c).
Proof.
  exact (@monthly_counts_add_up ascii_ucd fixed_point db_path
           [john; jane] [john_edited] no_files (lit "john doe") 2025%Z 8%Z
           1%Z 1%Z 1%Z 0%Z
           (percentage (F := fixed_point) 1 1) (percentage (F := fixed_point) 1 0)
           eq_refl eq_refl).
Defined.

(* ================================================================= *)
(** ** [list_records] *)

Section ListFacts.
Context {U : UnicodeData}.

Lemma filter_idem {A} (f : A -> bool) (l : list A) :
  filter f (filter f l) = filter f l.
Proof.
  rewrite filter_andb. apply filter_ext. intro x. now destruct (f x).
Qed.

End ListFacts.

(** X14. The filters of [list_records] can be applied one at a time:
    filtering the store by name and then the result by the two dates
    gives what the three filters give together. *)
Theorem list_records_filters_compose :
  forall (U : UnicodeData) (p : str) (rs : list AttendanceRecord)
         (fs : filesystem) (n f t : option str),
    exists rs',
      fst (list_records n None None (world_of p rs fs))
      = Ok (PList (map record_dict rs'))
      /\ fst (list_records None f t (world_of p rs' fs))
         = fst (list_records n f t (world_of p rs fs)).
Proof.
  intros U p rs fs n f t. eexists. rewrite !list_on_records. cbn [fst].
  split; [reflexivity|]. rewrite filter_andb. do 3 f_equal. apply filter_ext. intro r.
  unfold satisfies. cbn [supplied option_map name_filter from_filter to_filter].
  btauto.
Qed.

(** X15. What [list_records] returns is stable: it holds no more
    records than the store, and the same filters applied to a store
    that holds the result return all of it. *)
Theorem list_records_result_is_stable :
  forall (U : UnicodeData) (p : str) (rs : list AttendanceRecord)
         (fs : filesystem) (n f t : option str),
    exists rs',
      fst (list_records n f t (world_of p rs fs)) = Ok (PList (map record_dict rs'))
      /\ (length rs' <= length rs)%nat
      /\ fst (list_records n f t (world_of p rs' fs))
         = Ok (PList (map record_dict rs')).
Proof.
  intros U p rs fs n f t. eexists. rewrite !list_on_records. cbn [fst].
  split; [reflexivity|]. split; [apply filter_length_le|].
  now rewrite filter_idem.
Qed.

(* ================================================================= *)
(** ** [prompt_record] *)

Section PromptFacts.
Context {U : UnicodeData}.

Lemma stripped_nil : stripped [].
Proof. split; reflexivity. Qed.

Lemma clean_stripped_field (s : str) : stripped s -> strip (or_empty s) = s.
Proof. intro H. rewrite or_empty_id. now apply stripped_strip. Qed.

(** What [prompt_record] gives on the lines it is given. *)
Lemma prompt_record_lines (c : console) :
  match stdin c with
  | n :: d :: s :: rest =>
      if str_eqb (lower (strip s)) (lit "absent")
      then match rest with
           | k :: rest' =>
               fst (prompt_record c)
               = Read {| student_name := strip n; date := strip d;
                         status := strip s; remarks := strip k |}
               /\ stdin (snd (prompt_record c)) = rest'
           | [] => fst (prompt_record c) = EOFError
                   /\ stdin (snd (prompt_record c)) = []
           end
      else fst (prompt_record c)
           = Read {| student_name := strip n; date := strip d;
                     status := strip s; remarks := [] |}
           /\ stdin (snd (prompt_record c)) = rest
  | _ => fst (prompt_record c) = EOFError /\ stdin (snd (prompt_record c)) = []
  end.
Proof.
  destruct c as [l out]. cbn [stdin].
  destruct l as [|n [|d [|s rest]]]; try (split; reflexivity).
  unfold prompt_record, input. cbn [stdin stdout].
  destruct (str_eqb (lower (strip s)) (lit "absent")); [|split; reflexivity].
  destruct rest as [|k rest']; split; reflexivity.
Qed.

End PromptFacts.

(** X16. [prompt_record] reads three lines, and a fourth exactly when
    the third, trimmed and lower-cased, is [absent]; it leaves the
    lines after those unread, and it fails with [EOFError] exactly when
    fewer lines than that are left to read.  Every field of the record
    it returns is trimmed, so that normalizing the record keeps its date
    and remarks as they are. *)
Theorem prompt_record_reads_three_or_four_lines :
  forall (U : UnicodeData) (c : console),
    stdin (snd (prompt_record c)) = skipn (lines_needed c) (stdin c)
    /\ (fst (prompt_record c) = EOFError
        <-> (length (stdin c) < lines_needed c)%nat)
    /\ forall r, fst (prompt_record c) = Read r ->
         stripped (student_name r) /\ stripped (status r)
         /\ date (clean r) = date r /\ remarks (clean r) = remarks r.
Proof.
  intros U c. pose proof (prompt_record_lines c) as H. unfold lines_needed.
  destruct (stdin c) as [|n [|d [|s rest]]];
    try (destruct H as [-> ->]; cbn [length skipn];
         repeat split; try reflexivity; try lia; try discriminate).
  destruct (str_eqb (lower (strip s)) (lit "absent")).
  - destruct rest as [|k rest']; destruct H as [-> ->]; cbn [length skipn].
    + repeat split; try reflexivity; try lia; try discriminate.
    + split; [reflexivity|]. split; [split; [discriminate|lia]|].
      intros r [= <-]. cbn [clean student_name date status remarks].
      rewrite !clean_stripped_field by apply strip_stripped.
      repeat split; try reflexivity; apply strip_stripped.
  - destruct H as [-> ->]; cbn [length skipn].
    split; [reflexivity|]. split; [split; [discriminate|lia]|].
    intros r [= <-]. cbn [clean student_name date status remarks].
    rewrite !clean_stripped_field by first [apply strip_stripped|apply stripped_nil].
    repeat split; try reflexivity; apply strip_stripped.
Qed.

(** X17. For a status typed in ASCII, [prompt_record] asks for remarks
    exactly when [validate] will require them: the status of the record
    returned is normalized to [Absent] exactly when a fourth line was
    read, and [validate] refuses the record for missing remarks only
    when the line read for them was blank. *)
Theorem prompt_record_asks_remarks_when_required :
  forall (U : UnicodeData) (c : console) (r : AttendanceRecord),
    ascii_std U ->
    Forall (fun l => all_ascii l = true) (stdin c) ->
    fst (prompt_record c) = Read r ->
    (status (clean r) = lit "Absent" <-> lines_needed c = 4%nat)
    /\ (snd (validate r) = Raise MissingRemarks ->
        exists n d s k rest,
          stdin c = n :: d :: s :: k :: rest /\ strip k = []).
Proof.
  intros U c r std Hl Hr. pose proof (prompt_record_lines c) as H.
  unfold lines_needed.
  destruct (stdin c) as [|n [|d [|s rest]]];
    try (destruct H as [H _]; rewrite H in Hr; discriminate Hr).
  assert (Hs : all_ascii s = true).
  { inversion_clear Hl as [|? ? _ Hl1]. inversion_clear Hl1 as [|? ? _ Hl2].
    now inversion_clear Hl2. }
  assert (Hst : Forall ascii (strip s)) by now apply strip_Forall, all_ascii_Forall.
  assert (E : forall x, status x = strip s ->
                (status (clean x) = lit "Absent"
                 <-> lower (strip s) = lit "absent")).
  { intros x Hx. cbn [clean status]. rewrite Hx, or_empty_id, strip_idem.
    rewrite (capitalize_ascii std Hst). unfold lower.
    rewrite (do_lower_ascii std [] Hst).
    change (lit "Absent") with (ascii_capitalize (lit "absent")).
    fold (ascii_capitalize (strip s)).
    now apply ascii_capitalize_lower. }
  destruct (str_eqb (lower (strip s)) (lit "absent")) eqn:Ea.
  - apply str_eqb_eq in Ea.
    destruct rest as [|k rest']; destruct H as [H _]; rewrite H in Hr;
      [discriminate Hr|].
    injection Hr as <-. split.
    + rewrite E by reflexivity. split; [reflexivity|intros _; exact Ea].
    + intro Hv. exists n, d, s, k, rest'. split; [reflexivity|].
      apply validate_accepts_missing_remarks in Hv.
      cbn [clean remarks] in Hv. now rewrite or_empty_id, strip_idem in Hv.
  - apply str_eqb_neq in Ea. destruct H as [H _]. rewrite H in Hr.
    injection Hr as <-. split.
    + rewrite E by reflexivity. split; [intro; contradiction|discriminate].
    + intro Hv. exfalso. apply validate_missing_remarks_absent in Hv.
      apply E in Hv; [contradiction|reflexivity].
Qed.

Lemma prompt_record_asks_remarks_when_required_witness :
  (status (clean (U := ascii_ucd) absent_typed) = lit "Absent"
   <-> lines_needed (U := ascii_ucd) absent_console = 4%nat)
  /\ (snd (validate (U := ascii_ucd) absent_typed) = Raise MissingRemarks ->
      exists n d s k rest,
        stdin absent_console = n :: d :: s :: k :: rest
        /\ strip (U := ascii_ucd) k = []).
Proof.
  apply (@prompt_record_asks_remarks_when_required ascii_ucd absent_console
           absent_typed ascii_ucd_std).
  - unfold absent_console. cbn [stdin].
    repeat (apply Forall_cons; [reflexivity|]). apply Forall_nil.
  - reflexivity.
Defined.

(* ================================================================= *)
(** ** [export_csv] *)

Lemma encodable_app (a b : str) : encodable (a ++ b) = encodable a && encodable b.
Proof. apply forallb_app. Qed.

Lemma csv_field_encodable (s : str) : encodable s = true -> encodable (csv_field s) = true.
Proof.
  intro H. unfold csv_field. destruct (needs_quotes s); [|exact H].
  unfold encodable in *. rewrite forallb_forall in *. intros c Hc.
  destruct Hc as [<-|Hc]; [reflexivity|].
  apply in_app_or in Hc. destruct Hc as [Hc|[<-|[]]]; [|reflexivity].
  apply in_flat_map in Hc. destruct Hc as (x & Hx & Hc).
  unfold csv_double_quote in Hc. destruct (N.eqb_spec x 34) as [->|_].
  - destruct Hc as [<-|[<-|[]]]; reflexivity.
  - destruct Hc as [<-|[]]. now apply H.
Qed.

Lemma csv_line_encodable (r : AttendanceRecord) :
  record_encodable r = true -> encodable (csv_line r) = true.
Proof.
  unfold record_encodable. rewrite !andb_true_iff. intros [[[Hn Hd] Hs] Hm].
  unfold csv_line, csv_row.
  assert (E : encodable
                (join [44] (map csv_field [student_name r; date r; status r; remarks r])
                 ++ [13; 10]) = true).
  { cbn [map join]. rewrite !encodable_app.
    now rewrite !csv_field_encodable by assumption. }
  destruct (student_name r); exact E.
Qed.

Lemma csv_lines_encodable (rs : list AttendanceRecord) :
  forallb record_encodable rs = true -> encodable (flat_map csv_line rs) = true.
Proof.
  induction rs as [|r rs IH]; [reflexivity|]. cbn [forallb flat_map].
  rewrite andb_true_iff, encodable_app. intros [Hr Hrs].
  now rewrite (csv_line_encodable _ Hr), (IH Hrs).
Qed.

Section ExportFacts.
Context {R : ReprOps}.

Lemma header_bytes :
  exists hb, utf8_encode (csv_row fieldnames) = Some hb
             /\ writeheader [] = (Ok tt, hb).
Proof. eexists. split; reflexivity. Qed.

Lemma writerow_record (r : AttendanceRecord) (written : bytes) :
  writerow (record_dict r) written
  = match utf8_encode (csv_line r) with
    | Some b => (Ok tt, written ++ b)
    | None => (Raise UnicodeEncodeError, written)
    end.
Proof. reflexivity. Qed.

(** Records that can all be encoded are all written. *)
Lemma writerows_records (rs : list AttendanceRecord) (written b : bytes)
    (more : list pyval) :
  utf8_encode (flat_map csv_line rs) = Some b ->
  writerows (map record_dict rs ++ more) written = writerows more (written ++ b).
Proof.
  revert written b. induction rs as [|r rs IH]; intros written b.
  - cbn. intros [= <-]. now rewrite app_nil_r.
  - cbn [flat_map map app writerows]. rewrite utf8_encode_app, writerow_record.
    destruct (utf8_encode (csv_line r)) as [x|]; [|discriminate].
    destruct (utf8_encode (flat_map csv_line rs)) as [y|] eqn:E; [|discriminate].
    intros [= <-]. rewrite (IH _ _ eq_refl). now rewrite app_assoc.
Qed.

(** Whatever the rows, the file holds the encoding of a text that starts
    with what was written before. *)
Lemma writerow_text (r : pyval) (written : bytes) (t : str) :
  utf8_encode t = Some written ->
  exists t', utf8_encode (t ++ t') = Some (snd (writerow r written)).
Proof.
  intro H. unfold writerow.
  destruct (_dict_to_list r) as [fields|e].
  - destruct (utf8_encode (csv_row (map csv_text fields))) as [b|] eqn:E.
    + exists (csv_row (map csv_text fields)). now rewrite utf8_encode_app, H, E.
    + exists []. now rewrite app_nil_r.
  - exists []. now rewrite app_nil_r.
Qed.

Lemma writerows_text (rows : list pyval) (written : bytes) (t : str) :
  utf8_encode t = Some written ->
  exists t', utf8_encode (t ++ t') = Some (snd (writerows rows written)).
Proof.
  revert written t. induction rows as [|r rows IH]; intros written t H.
  - exists []. now rewrite app_nil_r.
  - cbn [writerows]. destruct (@writerow_text r written t H) as [t1 H1].
    destruct (writerow r written) as [[[]|e] written']; cbn [snd] in *.
    + destruct (IH _ _ H1) as [t2 H2]. exists (t1 ++ t2). now rewrite app_assoc.
    + now exists t1.
Qed.

End ExportFacts.

(** A text that starts with the letter [s] is no JSON document. *)
Lemma json_loads_not_json {I : Interpreter} (rest : str) :
  json_loads (115 :: rest) = Raise JSONDecodeError.
Proof. reflexivity. Qed.

Lemma header_text_newlines (t : str) :
  universal_newlines (csv_row fieldnames ++ t)
  = 115 :: universal_newlines (tl (csv_row fieldnames) ++ t).
Proof. reflexivity. Qed.

(** A file that starts with the header line of an export is read by
    [_load] as the empty list. *)
Lemma load_header_text {I : Interpreter} (w : world) (t : str) (content : bytes) :
  utf8_encode (csv_row fieldnames ++ t) = Some content ->
  files w (path (self w)) = Some content ->
  fst (_load w) = Ok (PList []).
Proof.
  intros E H. unfold _load. rewrite H, (utf8_decode_encode _ E).
  rewrite header_text_newlines, json_loads_not_json. reflexivity.
Qed.

(** Whatever the store holds, the file an export leaves starts with the
    header line, and the store is as before. *)
Lemma export_csv_content {R : ReprOps} {D : Disk} (out : str) (w : world) :
  open_error w out = None ->
  exists t content,
    utf8_encode (csv_row fieldnames ++ t) = Some content
    /\ files (snd (export_csv out w)) out = Some content
    /\ self (snd (export_csv out w)) = self w.
Proof.
  intro Ho. destruct header_bytes as (hb & Hh & Hw).
  unfold export_csv. rewrite Ho, Hw.
  destruct (py_iter (_data (self w))) as [rows|e].
  - destruct (@writerows_text R rows hb _ Hh) as [t Ht]. exists t.
    destruct (writerows rows hb) as [outcome content]. cbn [snd self files] in *.
    exists content. rewrite write_file_same. repeat split. exact Ht.
  - exists [], hb. cbn [snd self files]. rewrite write_file_same, app_nil_r.
    repeat split. exact Hh.
Qed.



(** X19. Exporting to the path of the backing file destroys the data on
    disk: whatever the store holds and whether the export succeeds or
    fails, the file then starts with the header line, and [_load] reads
    it as the empty list. *)
Theorem export_csv_over_backing_file_loads_empty :
  forall (R : ReprOps) (D : Disk) (I : Interpreter) (w : world),
    fst (_load (snd (export_csv (path (self w)) w))) = Ok (PList []).
Proof.
  intros R D I w.
  destruct (export_csv_content (path (self w)) w (own_file_opens w))
    as (t & content & E & Hf & Hs).
  apply (load_header_text _ t E). now rewrite Hs.
Qed.

(** X20. For a path that can be opened for writing, [export_csv] stops
    at the first stored value it cannot turn into a row (a value that is no object, or an object with a key that
    is no field name): it raises, the values after it are not looked
    at, and the file is left holding the header and the lines of the
    records before it, as an export of those records alone would. *)
Theorem export_csv_stops_at_first_bad_row :
  forall (R : ReprOps) (D : Disk) (p : str) (rs : list AttendanceRecord)
         (bad : pyval) (more : list pyval) (fs : filesystem) (out : str) (e : exn),
    open_error (world_with p (map record_dict rs ++ bad :: more) fs) out = None ->
    open_error (world_of p rs fs) out = None ->
    forallb record_encodable rs = true ->
    _dict_to_list bad = Raise e ->
    let w := world_with p (map record_dict rs ++ bad :: more) fs in
    fst (export_csv out w) = Raise e
    /\ files (snd (export_csv out w)) out
       = files (snd (export_csv out (world_of p rs fs))) out.
Proof.
  intros R D p rs bad more fs out e Ho1 Ho2 H Hbad w. subst w.
  destruct (utf8_encode_encodable _ (csv_lines_encodable _ H)) as [b Hb].
  destruct header_bytes as (hb & _ & Hw).
  unfold export_csv. rewrite Ho1, Ho2, Hw.
  cbn [world_with world_of store_of self _data py_iter files].
  rewrite (writerows_records _ _ (bad :: more) Hb).
  rewrite <- (app_nil_r (map record_dict rs)).
  rewrite (writerows_records _ _ [] Hb).
  cbn [writerows]. unfold writerow. rewrite Hbad. cbn [fst snd files].
  split; [reflexivity|]. now rewrite !write_file_same.
Qed.

Lemma export_csv_stops_at_first_bad_row_witness :
  let w := world_with db_path (map record_dict [john] ++ numbered :: [record_dict jane])
             no_files in
  fst (export_csv (R := sketch_repr) (D := open_disk) (lit "out.csv") w)
  = Raise (ValueError (lit "dict contains fields not in fieldnames: 'id'"))
  /\ files (snd (export_csv (R := sketch_repr) (D := open_disk) (lit "out.csv") w)) (lit "out.csv")
     = files (snd (export_csv (R := sketch_repr) (D := open_disk) (lit "out.csv")
                     (world_of db_path [john] no_files))) (lit "out.csv").
Proof.
  exact (@export_csv_stops_at_first_bad_row sketch_repr open_disk db_path [john]
           numbered [record_dict jane] no_files (lit "out.csv")
           (ValueError (lit "dict contains fields not in fieldnames: 'id'"))
           eq_refl eq_refl eq_refl eq_refl).
Defined.
